(** * Recipe ranking engine: the two scorers and the proxy objective

    A shallow embedding of [rag_pipeline.py] (the inference-time scorer
    [score_doc], the input parsers and the ranking step of [suggest_menus])
    and of [optim.py] (the class [AutoRanker]: [score], [_objective]),
    followed by the properties the specification states about them.

    Conventions of the embedding.
    - The builtins are those of CPython 3.11 (Unicode 14.0): the decimal
      digits of every script for [int] and [\d], the limit of 4300 digits
      of [int] on a string, the sort of lists.
    - A Python [str] is the list of its code points ([pystr]).  Literals are
      written in UTF-8 and decoded by [U].
    - A metadata value is [None], an [int] or a [str] ([pyval]); a metadata
      dictionary is a finite map from key to value.  An [int] of the data
      is taken to be one [str] prints, of at most 4300 digits; the one
      statement about scoring never raising names this bound
      ([printable]).
    - A call that may raise returns an [outcome]: [Ok v] or [Raise e].
    - Floats are modelled without rounding.  [rag_pipeline.py] computes
      with Python floats that stay finite; they are rendered as exact
      rationals ([Q]).  [optim.py] computes with numpy floats, which can be
      infinite or NaN ([np.log1p] of a negative count, a product that
      overflows, [np.mean] of an empty list); they are rendered as [fl]: a
      real number, an infinity or NaN.  What is stated of scores is what
      rounding keeps: which of two scores is not the smaller, bounds that
      are floats themselves, the order of a sorted list.  The exact value
      of a sum or of a mean stands for the float next to it.
    - [AutoRanker] methods run in a small state-and-exception monad over the
      object's single attribute [params]. *)

From Stdlib Require Import ZArith NArith QArith Qminmax Reals Lra Lia List String Ascii.
From stdpp Require Import gmap strings list fin_maps.
From Stdlib Require DecimalPos DecimalZ Lqa.

Local Open Scope Z_scope.

(** ** Python values and builtins *)

Module Py.

(** A [str]: its code points. *)
Definition pystr := list N.

(** Decoding of a UTF-8 byte sequence (used for literals only). *)
Fixpoint utf8_decode (bs : list N) : pystr :=
  match bs with
  | [] => []
  | b0 :: r0 =>
    if (b0 <? 128)%N then b0 :: utf8_decode r0
    else match r0 with
    | [] => [b0]
    | b1 :: r1 =>
      if (b0 <? 224)%N then ((b0 mod 32) * 64 + b1 mod 64)%N :: utf8_decode r1
      else match r1 with
      | [] => [b0; b1]
      | b2 :: r2 =>
        if (b0 <? 240)%N
        then ((b0 mod 16) * 4096 + (b1 mod 64) * 64 + b2 mod 64)%N :: utf8_decode r2
        else match r2 with
        | [] => [b0; b1; b2]
        | b3 :: r3 =>
          ((b0 mod 8) * 262144 + (b1 mod 64) * 4096 + (b2 mod 64) * 64 + b3 mod 64)%N
            :: utf8_decode r3
        end
      end
    end
  end.

Definition U (s : string) : pystr :=
  utf8_decode (map N_of_ascii (list_ascii_of_string s)).

(** Metadata values. *)
Inductive pyval : Type :=
  | VNone
  | VInt (z : Z)
  | VStr (s : pystr).

(** The exceptions the modelled code can raise. *)
Inductive exn : Type :=
  | ValueError
  | TypeError
  | AttributeError
  | OverflowError.

Inductive outcome (A : Type) : Type :=
  | Ok (a : A)
  | Raise (e : exn).
Arguments Ok {A} a.
Arguments Raise {A} e.

Definition obind {A B} (o : outcome A) (f : A -> outcome B) : outcome B :=
  match o with
  | Ok a => f a
  | Raise e => Raise e
  end.

(** A list comprehension (or a [for] loop) whose body may raise: the first
    exception, in list order, ends it. *)
Fixpoint omap {A B} (f : A -> outcome B) (l : list A) : outcome (list B) :=
  match l with
  | [] => Ok []
  | x :: t => obind (f x) (fun y => obind (omap f t) (fun ys => Ok (y :: ys)))
  end.

(** [bool(v)]. *)
Definition truthy (v : pyval) : bool :=
  match v with
  | VNone => false
  | VInt z => negb (z =? 0)
  | VStr s => match s with [] => false | _ => true end
  end.

(** [a or b]. *)
Definition py_or (a b : pyval) : pyval := if truthy a then a else b.

(** [c.isspace()] for one character; also what [\s] matches in a [str]
    pattern. *)
Definition is_space (c : N) : bool :=
  ((9 <=? c) && (c <=? 13) || (28 <=? c) && (c <=? 32) || (c =? 133) || (c =? 160)
   || (c =? 5760) || (8192 <=? c) && (c <=? 8202) || (c =? 8232) || (c =? 8233)
   || (c =? 8239) || (c =? 8287) || (c =? 12288))%N.

(** The decimal digits (general category Nd) of Unicode 14.0, the version
    CPython 3.11 carries: the first code point of each run of ten.  A run
    holds the digits 0 to 9 in order (ASCII, Arabic-Indic, Devanagari, ...,
    fullwidth, ..., the five mathematical alphabets from U+1D7CE on, ...). *)
Definition digit_starts : list N :=
  [48; 1632; 1776; 1984; 2406; 2534; 2662; 2790; 2918; 3046; 3174; 3302; 3430;
   3558; 3664; 3792; 3872; 4160; 4240; 6112; 6160; 6470; 6608; 6784; 6800;
   6992; 7088; 7232; 7248; 42528; 43216; 43264; 43472; 43504; 43600; 44016;
   65296; 66720; 68912; 69734; 69872; 69942; 70096; 70384; 70736; 70864;
   71248; 71360; 71472; 71904; 72016; 72784; 73040; 73120; 92768; 92864;
   93008; 120782; 120792; 120802; 120812; 120822; 123200; 123632; 125264;
   130032]%N.

(** The value of a decimal digit, [None] for any other character. *)
Definition digit_value (c : N) : option N :=
  option_map (fun s => (c - s)%N)
    (List.find (fun s => (s <=? c) && (c <=? s + 9))%N digit_starts).

(** A decimal digit: what [\d] matches in a [str] pattern, and what [int]
    reads. *)
Definition is_digit (c : N) : bool :=
  match digit_value c with
  | Some _ => true
  | None => false
  end.

Fixpoint drop_while (p : N -> bool) (s : pystr) : pystr :=
  match s with
  | [] => []
  | c :: t => if p c then drop_while p t else s
  end.

Fixpoint take_while (p : N -> bool) (s : pystr) : pystr :=
  match s with
  | [] => []
  | c :: t => if p c then c :: take_while p t else []
  end.

(** [s.strip()]. *)
Definition strip (s : pystr) : pystr :=
  rev (drop_while is_space (rev (drop_while is_space s))).

Fixpoint startswith (p s : pystr) : bool :=
  match p, s with
  | [], _ => true
  | _ :: _, [] => false
  | a :: p', b :: s' => (a =? b)%N && startswith p' s'
  end.

(** [needle in hay] on strings. *)
Fixpoint contains (needle hay : pystr) : bool :=
  startswith needle hay ||
  match hay with
  | [] => false
  | _ :: t => contains needle t
  end.

(** [a == b] on strings. *)
Fixpoint str_eqb (a b : pystr) : bool :=
  match a, b with
  | [], [] => true
  | x :: a', y :: b' => (x =? y)%N && str_eqb a' b'
  | _, _ => false
  end.

(** [v == s] for a string literal [s]. *)
Definition val_is_str (v : pyval) (s : pystr) : bool :=
  match v with
  | VStr t => str_eqb t s
  | _ => false
  end.

(** [v in [s1, s2, ...]] for a list of string literals. *)
Definition val_in (v : pyval) (l : list pystr) : bool := existsb (val_is_str v) l.

Fixpoint uint_codes (u : Decimal.uint) : pystr :=
  match u with
  | Decimal.Nil => []
  | Decimal.D0 u => 48%N :: uint_codes u
  | Decimal.D1 u => 49%N :: uint_codes u
  | Decimal.D2 u => 50%N :: uint_codes u
  | Decimal.D3 u => 51%N :: uint_codes u
  | Decimal.D4 u => 52%N :: uint_codes u
  | Decimal.D5 u => 53%N :: uint_codes u
  | Decimal.D6 u => 54%N :: uint_codes u
  | Decimal.D7 u => 55%N :: uint_codes u
  | Decimal.D8 u => 56%N :: uint_codes u
  | Decimal.D9 u => 57%N :: uint_codes u
  end.

(** [str(v)], for an [int] of at most 4300 digits (CPython 3.11 refuses to
    print a longer one). *)
Definition py_str (v : pyval) : pystr :=
  match v with
  | VNone => U "None"
  | VInt z =>
    match Z.to_int z with
    | Decimal.Pos u => uint_codes u
    | Decimal.Neg u => 45%N :: uint_codes u
    end
  | VStr s => s
  end.

(** The digits of an [int] literal: decimal digits of any script, single
    underscores allowed between digits.  [seen] tells whether the previous
    character was a digit. *)
Fixpoint int_digits (acc : Z) (seen : bool) (s : pystr) : option Z :=
  match s with
  | [] => if seen then Some acc else None
  | c :: t =>
    match digit_value c with
    | Some d => int_digits (10 * acc + Z.of_N d) true t
    | None => if (c =? 95)%N && seen then int_digits acc false t else None
    end
  end.

(** The white space [int] skips around a literal: the characters of
    [isspace] except the separators U+001C to U+001F. *)
Definition is_int_space (c : N) : bool :=
  is_space c && negb ((28 <=? c) && (c <=? 31))%N.

(** [sys.get_int_max_str_digits()], as CPython 3.11 starts: a literal with
    more digits is refused. *)
Definition int_max_str_digits : Z := 4300.

(** The literal after its sign: digits and underscores, at most
    [int_max_str_digits] digits. *)
Definition int_body (s : pystr) : option Z :=
  if (int_max_str_digits <? Z.of_nat (length (List.filter is_digit s)))%Z then None
  else int_digits 0 false s.

(** [int(s)] for a string: white space around, an optional sign (code
    points 43 and 45), then the digits.  [None] stands for [ValueError]. *)
Definition int_of_str (s : pystr) : option Z :=
  match rev (drop_while is_int_space (rev (drop_while is_int_space s))) with
  | [] => None
  | c :: t =>
    if (c =? 43)%N then int_body t
    else if (c =? 45)%N then option_map Z.opp (int_body t)
    else int_body (c :: t)
  end.

(** [int(v)]. *)
Definition py_int (v : pyval) : outcome Z :=
  match v with
  | VNone => Raise TypeError
  | VInt z => Ok z
  | VStr s =>
    match int_of_str s with
    | Some z => Ok z
    | None => Raise ValueError
    end
  end.

(** [d.get(k, default)]. *)
Definition get (d : gmap string pyval) (k : string) (default : pyval) : pyval :=
  match d !! k with
  | Some v => v
  | None => default
  end.

(** [s.split(sep)] for a one-character separator. *)
Fixpoint split_on (sep : N) (cur : pystr) (s : pystr) : list pystr :=
  match s with
  | [] => [rev cur]
  | c :: t =>
    if (c =? sep)%N then rev cur :: split_on sep [] t
    else split_on sep (c :: cur) t
  end.

Definition split (s : pystr) (sep : N) : list pystr := split_on sep [] s.

(** *** [sorted] and [list.sort]

    The keys are computed before the sort starts, so the sort works on
    (key, item) pairs and compares keys with [<] only.  With [reverse=True]
    CPython reverses the list, sorts it in ascending order, and reverses
    the result.  The ascending sort of CPython 3.11 on a list shorter than
    64 entries is modelled step by step: [count_run] takes the run the
    list starts with, and [binarysort] inserts the other entries one by
    one at the place a binary search finds.  Longer lists are cut into
    several runs that are merged; whenever [<] orders the keys totally
    every stable sort gives the same list, so the model is exact for lists
    of any length then, and for lists shorter than 64 entries otherwise
    (keys that are NaN). *)

Section Sorting.
Context {K A : Type} (ltb : K -> K -> bool).

(** The entries at the head of [l] that continue a run after [prev]: each
    is not less than the one before it. *)
Fixpoint run_ascending (prev : K * A) (l : list (K * A)) : list (K * A) * list (K * A) :=
  match l with
  | [] => ([], [])
  | x :: t =>
    if ltb (fst x) (fst prev) then ([], l)
    else
      match run_ascending x t with
      | (run, rest) => (x :: run, rest)
      end
  end.

(** The same for a strictly descending run: each entry is less than the
    one before it. *)
Fixpoint run_descending (prev : K * A) (l : list (K * A)) : list (K * A) * list (K * A) :=
  match l with
  | [] => ([], [])
  | x :: t =>
    if ltb (fst x) (fst prev)
    then
      match run_descending x t with
      | (run, rest) => (x :: run, rest)
      end
    else ([], l)
  end.

(** [count_run] and the reversal of a descending run: the run the list
    starts with, in ascending order, and the entries after it. *)
Definition count_run (l : list (K * A)) : list (K * A) * list (K * A) :=
  match l with
  | x :: y :: t =>
    if ltb (fst y) (fst x)
    then
      match run_descending y t with
      | (run, rest) => (rev (x :: y :: run), rest)
      end
    else
      match run_ascending y t with
      | (run, rest) => (x :: y :: run, rest)
      end
  | _ => (l, [])
  end.

(** The search loop of [binarysort], between the indices [l] and [r] of
    the sorted part: [p] is the middle; the pivot goes left of [p] when it
    is less than the entry there, right of it otherwise.  The interval
    shrinks at every step, so [r - l] steps are enough. *)
Fixpoint bisect (steps : nat) (pivot : K) (sorted : list (K * A)) (l r : nat) : nat :=
  match steps with
  | O => l
  | S steps' =>
    if (l <? r)%nat then
      let p := (l + (r - l) / 2)%nat in
      match sorted !! p with
      | Some y =>
        if ltb pivot (fst y) then bisect steps' pivot sorted l p
        else bisect steps' pivot sorted (p + 1)%nat r
      | None => l
      end
    else l
  end.

(** One step of [binarysort]: the entry [x] is put at the place found. *)
Definition binary_insert (x : K * A) (sorted : list (K * A)) : list (K * A) :=
  let i := bisect (length sorted) (fst x) sorted 0 (length sorted) in
  take i sorted ++ x :: drop i sorted.

Definition binarysort (run rest : list (K * A)) : list (K * A) :=
  fold_left (fun sorted x => binary_insert x sorted) rest run.

(** The ascending sort. *)
Definition sort_asc (l : list (K * A)) : list (K * A) :=
  match count_run l with
  | (run, rest) => binarysort run rest
  end.

Definition sort_keyed (reverse : bool) (l : list (K * A)) : list (K * A) :=
  if reverse then rev (sort_asc (rev l)) else sort_asc l.
End Sorting.

End Py.

Export Py.

Notation "'let*' x ':=' m 'in' k" := (obind m (fun x => k))
  (at level 10, x name, m at level 100, k at level 200).

(** [int / float] and [int * float] first convert the [int]; the conversion
    raises [OverflowError] when the nearest double is not finite. *)
Definition float_of_int (z : Z) : outcome Q :=
  if Z.abs z <? 2 ^ 1024 - 2 ^ 970 then Ok (inject_Z z) else Raise OverflowError.

Definition Qltb (a b : Q) : bool := if Qlt_le_dec a b then true else false.

(** The retriever's documents (LangChain's [Document]): [page_content] is a
    [str] and [metadata] a [dict], so [doc.metadata or {}] and
    [doc.page_content or ""] are the attribute itself. *)
Record Document : Type := {
  page_content : pystr;
  metadata : gmap string pyval
}.

(** String literals of the two files. *)
Definition s_chogeup : pystr := U "초급".
Definition s_amuna : pystr := U "아무나".
Definition s_swium : pystr := U "쉬움".
Definition s_Easy : pystr := U "Easy".
Definition s_junggeup : pystr := U "중급".
Definition s_jeongbo : pystr := U "정보".
Definition s_sanggwaneopseum : pystr := U "상관없음".
Definition s_eopseum : pystr := U "없음".
Definition c_bun : N := 48516.   (* the character 분 *)

Definition beginner_labels : list pystr := [s_chogeup; s_amuna; s_swium; s_Easy].

(** ** rag_pipeline.py *)

Module RagPipeline.

(** The character class of [re.split(r"[,/\\|\n]+", text)]: comma, slash,
    backslash, bar, newline. *)
Definition is_sep (c : N) : bool :=
  ((c =? 44) || (c =? 47) || (c =? 92) || (c =? 124) || (c =? 10))%N.

(** [re.split] on maximal runs of separators: [cur] is the current piece
    (reversed), [in_sep] tells whether the previous character was a
    separator.  A leading or trailing run yields an empty piece. *)
Fixpoint re_split_go (cur : pystr) (in_sep : bool) (s : pystr) : list pystr :=
  match s with
  | [] => [rev cur]
  | c :: t =>
    if is_sep c
    then (if in_sep then re_split_go [] true t else rev cur :: re_split_go [] true t)
    else re_split_go (c :: cur) false t
  end.

Definition re_split (text : pystr) : list pystr := re_split_go [] false text.

Definition nonempty (s : pystr) : bool := truthy (VStr s).

(** Lines 40-45. *)
Definition parse_ingredients (text : pystr) : list pystr :=
  if negb (nonempty text)
     || existsb (str_eqb (strip text)) [s_eopseum; U "none"; U "None"]
  then []
  else
    let items := re_split text in
    map strip (List.filter (fun i => nonempty (strip i)) items).

(** [v.strip()]: only a [str] has the method. *)
Definition strip_val (v : pyval) : outcome pystr :=
  match v with
  | VStr s => Ok (strip s)
  | _ => Raise AttributeError
  end.

(** Lines 47-49. *)
Definition normalize_level (level : pyval) : outcome pystr :=
  strip_val (py_or level (VStr [])).

(** [re.search(r"(\d+)\s*분", t)] anchored at the head of [s]: the digits of
    group 1.  The digit run is taken whole: giving back a digit cannot help,
    since the next character would then be a digit and not 분. *)
Definition match_minutes_here (s : pystr) : option pystr :=
  match take_while is_digit s with
  | [] => None
  | ds =>
    match drop_while is_space (drop_while is_digit s) with
    | c :: _ => if (c =? c_bun)%N then Some ds else None
    | [] => None
    end
  end.

(** The leftmost match. *)
Fixpoint search_minutes (s : pystr) : option pystr :=
  match match_minutes_here s with
  | Some ds => Some ds
  | None =>
    match s with
    | [] => None
    | _ :: t => search_minutes t
    end
  end.

(** Lines 51-65. *)
Definition time_to_minutes (time_str : pyval) : outcome Z :=
  if negb (truthy time_str) then Ok 9999
  else
    let* t := strip_val time_str in
    if contains s_jeongbo t then Ok 9999
    else
      match search_minutes t with
      | Some ds => py_int (VStr ds)
      | None => Ok 9999
      end.

(** The [debug] dictionary of [score_doc]. *)
Record Debug : Type := {
  dbg_ing_hit : Z;
  dbg_level : pystr;
  dbg_views : Z;
  dbg_cook_time : Z;
  dbg_final : Q
}.

(** Lines 79-82. *)
Definition ing_hit (user_ings : list pystr) (text : pystr) : Z :=
  Z.of_nat (length (List.filter (fun ing => nonempty ing && contains ing text) user_ings)).

(** Lines 85-91. *)
Definition level_score (level : pystr) : Z :=
  if existsb (str_eqb level) beginner_labels then 5
  else if existsb (str_eqb level) [s_junggeup] then 2
  else 0.

(** Line 95: [min(5.0, views / 5000.0)]. *)
Definition pop_score (views : Z) : outcome Q :=
  let* v := float_of_int views in
  let x := (v / 5000)%Q in
  Ok (if Qltb x 5 then x else 5%Q).

(** Lines 98-101. *)
Definition style_score (doc : Document) (style_hint : pystr) : Q :=
  let md := metadata doc in
  let text := page_content doc in
  if nonempty style_hint && negb (str_eqb style_hint s_sanggwaneopseum)
  then
    if contains style_hint text
       || contains style_hint (py_str (get md "situation" (VStr [])))
       || contains style_hint (py_str (get md "method" (VStr [])))
    then (3 # 2)%Q else 0%Q
  else 0%Q.

(** Lines 104-110, as a function of the parsed minutes. *)
Definition time_penalty (cook_time : Z) : Q :=
  if cook_time <=? 30 then 0%Q
  else if cook_time <=? 60 then (1 # 2)%Q
  else (3 # 2)%Q.

(** Lines 70-122. *)
Definition score_doc (doc : Document) (user_ings : list pystr) (style_hint : pystr)
  : outcome (Q * Debug) :=
  let md := metadata doc in
  let text := page_content doc in
  let* level := normalize_level (get md "level" (VStr [])) in
  let* views := py_int (py_or (get md "views" (VInt 0)) (VInt 0)) in
  let* cook_time := time_to_minutes (get md "time" (VStr [])) in
  let hits := ing_hit user_ings text in
  let* pop := pop_score views in
  let final :=
    (inject_Z hits * 3 + inject_Z (level_score level) * (3 # 2) + pop * 1
     + style_score doc style_hint - time_penalty cook_time)%Q in
  Ok (final,
      {| dbg_ing_hit := hits; dbg_level := level; dbg_views := views;
         dbg_cook_time := cook_time; dbg_final := final |}).

(** Lines 165-168 of [suggest_menus]: the list [scored]. *)
Definition scored (docs : list Document) (user_ings : list pystr) (style_hint : pystr)
  : outcome (list (Q * (Document * Debug))) :=
  omap (fun d => let* r := score_doc d user_ings style_hint in Ok (fst r, (d, snd r))) docs.

(** Line 170: [scored.sort(key=lambda x: x[0], reverse=True)]. *)
Definition sort_scored (sc : list (Q * (Document * Debug))) : list (Q * (Document * Debug)) :=
  sort_keyed Qltb true sc.

(** Lines 165-171: the five best entries, which the rest of [suggest_menus]
    turns into menu cards. *)
Definition top (docs : list Document) (user_ings : list pystr) (style_hint : pystr)
  : outcome (list (Q * (Document * Debug))) :=
  let* sc := scored docs user_ings style_hint in
  Ok (take 5 (sort_scored sc)).

End RagPipeline.

(** ** numpy floats *)

Module Np.

Local Open Scope R_scope.

(** A float64 without rounding: a real number, an infinity or NaN.  The
    operations [fl_add], [fl_sub] and [fl_mul] are the exact ones, for
    operands that cannot overflow ([_objective] combines means of 64-bit
    counts with small constants); [add], [sub] and [mul] turn a result that
    is too large into an infinity, as the weighted sum of [score] needs for
    weights of any size. *)
Inductive fl : Type :=
  | Fin (x : R)
  | PInf
  | NInf
  | NaN.

Definition fl_opp (a : fl) : fl :=
  match a with
  | Fin x => Fin (- x)
  | PInf => NInf
  | NInf => PInf
  | NaN => NaN
  end.

Definition fl_add (a b : fl) : fl :=
  match a, b with
  | NaN, _ | _, NaN => NaN
  | Fin x, Fin y => Fin (x + y)
  | PInf, NInf | NInf, PInf => NaN
  | PInf, _ | _, PInf => PInf
  | NInf, _ | _, NInf => NInf
  end.

Definition fl_sub (a b : fl) : fl := fl_add a (fl_opp b).

(** An infinity [i] times the finite [x]: the sign of [x] decides, and
    [0 * inf] is NaN. *)
Definition fl_scale_inf (x : R) (i : fl) : fl :=
  if Rlt_dec 0 x then i
  else if Rlt_dec x 0 then fl_opp i
  else NaN.

Definition fl_mul (a b : fl) : fl :=
  match a, b with
  | NaN, _ | _, NaN => NaN
  | Fin x, Fin y => Fin (x * y)
  | Fin x, i | i, Fin x => fl_scale_inf x i
  | PInf, PInf | NInf, NInf => PInf
  | PInf, NInf | NInf, PInf => NInf
  end.

(** The least magnitude that rounds to an infinity: [2^1024 - 2^970], half
    a unit in the last place above the largest float64. *)
Definition overflow_threshold : R := IZR (2 ^ 1024 - 2 ^ 970).

(** The result of an operation as far as infinities go: a real result of
    that magnitude or more is an infinity. *)
Definition overflow (a : fl) : fl :=
  match a with
  | Fin x =>
    if Rle_dec overflow_threshold x then PInf
    else if Rle_dec x (- overflow_threshold) then NInf
    else Fin x
  | _ => a
  end.

(** The float64 operations on values of any magnitude. *)
Definition add (a b : fl) : fl := overflow (fl_add a b).
Definition sub (a b : fl) : fl := overflow (fl_sub a b).
Definition mul (a b : fl) : fl := overflow (fl_mul a b).

(** [a < b]: false as soon as one side is NaN. *)
Definition fl_ltb (a b : fl) : bool :=
  match a, b with
  | NaN, _ | _, NaN => false
  | Fin x, Fin y => if Rlt_dec x y then true else false
  | NInf, NInf => false
  | NInf, _ => true
  | _, NInf => false
  | PInf, _ => false
  | Fin _, PInf => true
  end.

(** [a == b]: NaN is equal to nothing. *)
Definition fl_eqb (a b : fl) : bool :=
  match a, b with
  | Fin x, Fin y => if Req_dec_T x y then true else false
  | PInf, PInf | NInf, NInf => true
  | _, _ => false
  end.

(** [a <= b]. *)
Definition fl_leb (a b : fl) : bool := fl_ltb a b || fl_eqb a b.

(** [np.log1p(v)] for a Python [int]: an [int] outside the 64-bit ranges is
    not converted to a float and the call raises [TypeError]; [log1p(-1)] is
    [-inf] and the logarithm of a negative number is NaN (both with a
    warning only). *)
Definition log1p (v : Z) : outcome fl :=
  if ((- 2 ^ 63 <=? v) && (v <? 2 ^ 64))%Z then
    Ok (if (0 <=? v)%Z then Fin (ln (1 + IZR v))
        else if (v =? -1)%Z then NInf
        else NaN)
  else Raise TypeError.

Definition sumZ (l : list Z) : Z := fold_right Z.add 0%Z l.

(** [np.mean] of a list of [int]: NaN (with a warning) on the empty list,
    otherwise the sum over the length.  numpy adds the items as float64 in
    list order; the exact sum stands for the result. *)
Definition mean (l : list Z) : fl :=
  match l with
  | [] => NaN
  | _ :: _ => Fin (IZR (sumZ l) / INR (length l))
  end.

End Np.

(** ** optim.py *)

Module Optim.
Import Np.

Local Open Scope R_scope.

(** The array [[w_ing, w_level, w_pop, w_style, p_time]]. *)
Record Params : Type := {
  w_ing : R;
  w_level : R;
  w_pop : R;
  w_style : R;
  p_time : R
}.

(** An [AutoRanker] object: its only attribute. *)
Record AutoRanker : Type := { params : Params }.

(** Lines 7-9. *)
Definition __init__ : AutoRanker :=
  {| params := {| w_ing := 2; w_level := 1; w_pop := 1 / 2; w_style := 1; p_time := 1 |} |}.

(** A method body: from the object before the call to the object after it
    and the result or the exception. *)
Definition M (A : Type) : Type := AutoRanker -> AutoRanker * outcome A.

Definition ret {A} (a : A) : M A := fun self => (self, Ok a).

Definition lift {A} (o : outcome A) : M A := fun self => (self, o).

Definition bind {A B} (m : M A) (f : A -> M B) : M B :=
  fun self =>
    match m self with
    | (self', Ok a) => f a self'
    | (self', Raise e) => (self', Raise e)
    end.

(** [self.params] *)
Definition read_params : M Params := fun self => (self, Ok (params self)).

(** [self.params = p] *)
Definition write_params (p : Params) : M unit := fun _ => ({| params := p |}, Ok tt).

Notation "'let!' x ':=' m 'in' k" := (bind m (fun x => k))
  (at level 10, x name, m at level 100, k at level 200).

(** A comprehension or a key function that calls a method on each element. *)
Fixpoint mapM {A B} (f : A -> M B) (l : list A) : M (list B) :=
  match l with
  | [] => ret []
  | x :: t => let! y := f x in let! ys := mapM f t in ret (y :: ys)
  end.

(** Lines 11-16. *)
Definition _level_score (level : pyval) : R :=
  if val_in level beginner_labels then 1
  else if val_is_str level s_junggeup then 1 / 2
  else 0.

(** Lines 18-23. *)
Definition _parse_time (t : pyval) : Z :=
  if contains (U "30") (py_str t) then 0%Z
  else if contains (U "60") (py_str t) then 1%Z
  else 2%Z.

(** Line 31. *)
Definition ing_hit (user_ings : list pystr) (text : pystr) : Z :=
  Z.of_nat (length (List.filter (fun ing => contains (strip ing) text) user_ings)).

(** Lines 35-39, and 71-78 of [_objective] (which tests [situation] before
    [method]; no test can raise, so the order does not matter). *)
Definition style_score (doc : Document) (style_hint : pystr) : Z :=
  let md := metadata doc in
  let text := page_content doc in
  if truthy (VStr style_hint)
     && (contains style_hint text
         || contains style_hint (py_str (get md "method" (VStr [])))
         || contains style_hint (py_str (get md "situation" (VStr []))))
  then 1%Z else 0%Z.

(** Lines 45-51: the weighted sum, each product and each sum a float64
    operation. *)
Definition weighted (p : Params) (hits : Z) (level_score : R) (pop : fl)
    (style : Z) (time_pen : Z) : fl :=
  sub
    (add
      (add
        (add (mul (Fin (w_ing p)) (Fin (IZR hits)))
             (mul (Fin (w_level p)) (Fin level_score)))
        (mul (Fin (w_pop p)) pop))
      (mul (Fin (w_style p)) (Fin (IZR style))))
    (mul (Fin (p_time p)) (Fin (IZR time_pen))).

(** Lines 27-51. *)
Definition score (doc : Document) (user_ings : list pystr) (style_hint : pystr) : M fl :=
  let md := metadata doc in
  let text := page_content doc in
  let hits := ing_hit user_ings text in
  let level_score := _level_score (get md "level" (VStr [])) in
  let! views := lift (py_int (get md "views" (VInt 0))) in
  let! pop_score := lift (log1p views) in
  let style := style_score doc style_hint in
  let time_pen := _parse_time (get md "time" (VStr [])) in
  let! p := read_params in
  ret (weighted p hits level_score pop_score style time_pen).

(** Lines 58-60: [sorted(docs, key=lambda d: self.score(...), reverse=True)]. *)
Definition ranked (docs : list Document) (user_ings : list pystr) (style_hint : pystr)
  : M (list Document) :=
  let! keys := mapM (fun d => score d user_ings style_hint) docs in
  ret (map snd (sort_keyed fl_ltb true (combine keys docs))).

(** Line 66: the number of ingredient terms found in one item. *)
Definition ing_count (user_ings : list pystr) (d : Document) : Z :=
  Z.of_nat (length (List.filter (fun ing => contains ing (page_content d)) user_ings)).

(** Lines 85-87. *)
Definition level_flag (d : Document) : Z :=
  if val_in (get (metadata d) "level" VNone) beginner_labels then 1%Z else 0%Z.

(** Lines 63-97: the four means over [top] and their fixed combination. *)
Definition final_score (top : list Document) (user_ings : list pystr) (style_hint : pystr)
  : outcome fl :=
  let* vs := omap (fun d => py_int (get (metadata d) "views" (VInt 0))) top in
  let views := mean vs in
  let ing_match := mean (map (ing_count user_ings) top) in
  let style_match := mean (map (fun d => style_score d style_hint) top) in
  let level_match := mean (map level_flag top) in
  Ok (fl_add
        (fl_add
          (fl_add views (fl_mul (Fin 2000) ing_match))
          (fl_mul (Fin 1000) style_match))
        (fl_mul (Fin 500) level_match)).

(** Lines 55-99. *)
Definition _objective (p : Params) (docs : list Document) (user_ings : list pystr)
    (style_hint : pystr) : M fl :=
  let! _ := write_params p in
  let! r := ranked docs user_ings style_hint in
  let top := take 5 r in
  let! f := lift (final_score top user_ings style_hint) in
  ret (fl_opp f).

(** Line 134: [[i.strip() for i in ingredients.split(",")]]. *)
Definition main_user_ings (ingredients : pystr) : list pystr :=
  map strip (split ingredients 44%N).

End Optim.

(** ** rag_pipeline.py: language detection, title rewriting, menu cards

    The retriever and the chat client are collaborators outside the two
    files: [retriever.invoke] maps a query to a list of documents and
    [llm_chat] maps a prompt to a reply; either may raise. *)

Module Menus.
Import RagPipeline.

(** What [[가-힣]] matches: a Hangul syllable, U+AC00 to U+D7A3. *)
Definition is_hangul (c : N) : bool := ((44032 <=? c) && (c <=? 55203))%N.

(** Lines 11-14. *)
Definition detect_language (text : pystr) : pystr :=
  if existsb is_hangul text then U "Korean" else U "English".

(** One card of the list [suggest_menus] returns (lines 207-215). *)
Record Menu : Type := {
  title : pyval;
  raw_title : pyval;
  subtitle : pyval;
  tags : list pyval;
  spice : Z;
  meme : pystr;
  debug : Debug
}.

(** Lines 129-140: the prompt of [make_witty_title]. *)
Definition witty_prompt (raw : pyval) (user_story language : pystr) : pystr :=
  U "
You rename Korean dish titles into short, witty but clear titles.
Rules:
- Keep the original dish recognizable
- Max 12 words
- No clickbait, no insult
- Output ONLY the title

Language: " ++ language ++ U "
Original dish: " ++ py_str raw ++ U "
User mood: " ++ user_story ++ U "
".

(** Lines 154-160: the query of [suggest_menus]. *)
Definition menu_query (user_story ingredients style_hint : pystr) : pystr :=
  strip (U "
User mood: " ++ user_story ++ U "
Ingredients: " ++ ingredients ++ U "
Style: " ++ style_hint ++ U "
Find suitable Korean recipes.
Beginner friendly.
").

(** Lines 188-194: the tags, before [tags[:3]]. *)
Definition tags_of (md : gmap string pyval) : list pyval :=
  let level := get md "level" (VStr []) in
  let t1 := if truthy level then [level] else [] in
  let t2 := if truthy (get md "method" VNone) then t1 ++ [get md "method" VNone] else t1 in
  if truthy (get md "time" VNone)
     && negb (contains s_jeongbo (py_str (get md "time" VNone)))
  then t2 ++ [get md "time" VNone] else t2.

(** Lines 197-202. *)
Definition meme_of (hits views : Z) : pystr :=
  if 2 <=? hits then U "재료 매칭 꽤 좋다. 오늘은 이걸로 간다."
  else if 5000 <=? views then U "검증된 인기 레시피 쪽으로 안전하게."
  else U "부담 없는 선택. 실패 확률 낮추자.".

Section Collaborators.
Context (retriever_invoke : pystr -> outcome (list Document))
        (llm_chat : pystr -> outcome pystr).

(** Lines 127-145: any exception of the client is caught. *)
Definition make_witty_title (raw : pyval) (user_story language : pystr) : pyval :=
  match llm_chat (witty_prompt raw user_story language) with
  | Ok reply =>
    let out := strip reply in
    if nonempty out then VStr out else raw
  | Raise _ => raw
  end.

(** Lines 175-215: the body of the loop over [top]. *)
Definition menu_card (user_story language : pystr) (entry : Q * (Document * Debug))
  : outcome Menu :=
  let d := fst (snd entry) in
  let dbg := snd (snd entry) in
  let md := metadata d in
  let raw := py_or (py_or (get md "menu" (VStr [])) (get md "title" (VStr [])))
                   (VStr (U "Unknown")) in
  let display_title := make_witty_title raw user_story language in
  let sub := get md "title" (VStr []) in
  let* views := py_int (py_or (get md "views" (VInt 0)) (VInt 0)) in
  Ok {| title := display_title; raw_title := raw; subtitle := sub;
        tags := take 3 (tags_of md); spice := 3;
        meme := meme_of (dbg_ing_hit dbg) views; debug := dbg |}.

(** Lines 150-217. *)
Definition suggest_menus (user_story ingredients style_hint : pystr)
  : outcome (list Menu) :=
  let user_ings := parse_ingredients ingredients in
  let query := menu_query user_story ingredients style_hint in
  let* docs := retriever_invoke query in
  let* best := top docs user_ings style_hint in
  let language := detect_language user_story in
  omap (menu_card user_story language) best.

End Collaborators.

End Menus.

(** * Notions used in the statements *)

(** ** Values of the methods of [AutoRanker]

    [score], [ranked] and [_objective] run in the monad [Optim.M].  Their
    results are the following functions of the weights in force; the lemmas
    [score_run], [ranked_run] and [objective_run] below relate the two. *)

(** The value [score] returns, as a function of the weights in force. *)
Definition score_value (p : Optim.Params) (doc : Document) (user_ings : list pystr)
    (style_hint : pystr) : outcome Np.fl :=
  let md := metadata doc in
  let* views := py_int (get md "views" (VInt 0)) in
  let* pop_score := Np.log1p views in
  Ok (Optim.weighted p (Optim.ing_hit user_ings (page_content doc))
        (Optim._level_score (get md "level" (VStr []))) pop_score
        (Optim.style_score doc style_hint)
        (Optim._parse_time (get md "time" (VStr [])))).

(** The sorted list of [ranked], from the keys. *)
Definition ranked_value (p : Optim.Params) (docs : list Document) (user_ings : list pystr)
    (style_hint : pystr) : outcome (list Document) :=
  let* keys := omap (fun d => score_value p d user_ings style_hint) docs in
  Ok (map snd (sort_keyed Np.fl_ltb true (combine keys docs))).

(** The value [_objective] returns, as a function of its arguments. *)
Definition objective_value (p : Optim.Params) (docs : list Document)
    (user_ings : list pystr) (style_hint : pystr) : outcome Np.fl :=
  let* r := ranked_value p docs user_ings style_hint in
  let* f := Optim.final_score (take 5 r) user_ings style_hint in
  Ok (Np.fl_opp f).

(** The [views] the objective reads from an item (line 63). *)
Definition views_of (d : Document) : outcome Z :=
  py_int (get (metadata d) "views" (VInt 0)).

(** The arithmetic mean of a non-empty list of integers. *)
Definition rate (l : list Z) : R := (IZR (Np.sumZ l) / INR (length l))%R.

(** ** Strings and metadata *)

(** A string that does not start with white space. *)
Definition clean (s : pystr) : Prop :=
  match s with
  | [] => True
  | c :: _ => is_space c = false
  end.

(** The style hint occurs in the content, in [method] or in [situation]. *)
Definition hint_occurs (doc : Document) (style_hint : pystr) : bool :=
  contains style_hint (page_content doc)
  || contains style_hint (py_str (get (metadata doc) "method" (VStr [])))
  || contains style_hint (py_str (get (metadata doc) "situation" (VStr []))).

(** A value [score_doc] can trim: a falsy one ([None], 0, the empty
    string), which [or ""] replaces by the empty string, or a string. *)
Definition falsy_or_str (v : pyval) : Prop :=
  truthy v = false \/ exists s, v = VStr s.

(** A cook time [int] can read the minutes of: falsy, or a string of at
    most [int_max_str_digits] characters. *)
Definition short_time (v : pyval) : Prop :=
  truthy v = false
  \/ exists s, v = VStr s /\ (Z.of_nat (length s) <= int_max_str_digits)%Z.

(** [int(v)] returns a count below [2^63]: [v] is such an [int], or a
    string that holds its literal. *)
Definition reads_as_count (v : pyval) : Prop :=
  exists n, py_int v = Ok n /\ (0 <= n < 2 ^ 63)%Z.

(** [str(v)] returns: [v] is not an [int] of more than
    [int_max_str_digits] digits. *)
Definition printable (v : pyval) : Prop :=
  match v with
  | VInt z => (Z.abs z < 10 ^ int_max_str_digits)%Z
  | _ => True
  end.

(** The document with the metadata field [k] set to [v]. *)
Definition with_field (doc : Document) (k : string) (v : pyval) : Document :=
  {| page_content := page_content doc; metadata := <[k:=v]> (metadata doc) |}.

(** The fields the scorers read, each with the default its [get] names. *)
Definition field_defaults : list (string * pyval) :=
  [("level", VStr []); ("views", VInt 0); ("time", VStr []);
   ("method", VStr []); ("situation", VStr [])].

(** ** Sorted lists of (key, item) pairs *)

Section SortNotions.
Context {K A : Type} (ltb : K -> K -> bool) (good : K -> Prop).

(** Every key is [good] (for floats: is not NaN). *)
Definition keys_good (l : list (K * A)) : Prop := Forall (fun x => good (fst x)) l.

(** No element is less than an earlier one. *)
Inductive ascending : list (K * A) -> Prop :=
  | ascending_nil : ascending []
  | ascending_cons x l :
      Forall (fun y => ltb (fst y) (fst x) = false) l -> ascending l -> ascending (x :: l).

(** The entry [x] has the same key as [k]: neither is less than the other. *)
Definition tied (k : K) (x : K * A) : bool :=
  negb (ltb (fst x) k) && negb (ltb k (fst x)).

(** No element is less than a later one. *)
Inductive descending : list (K * A) -> Prop :=
  | descending_nil : descending []
  | descending_cons x l :
      Forall (fun y => ltb (fst x) (fst y) = false) l -> descending l -> descending (x :: l).

(** The reference [sort_keyed] is compared with: the stable sort by linear
    insertion, which puts an entry after the entries that are not greater. *)
Fixpoint insert_asc (x : K * A) (l : list (K * A)) : list (K * A) :=
  match l with
  | [] => [x]
  | y :: t => if ltb (fst x) (fst y) then x :: y :: t else y :: insert_asc x t
  end.

Definition insertion_sort (l : list (K * A)) : list (K * A) :=
  fold_left (fun acc x => insert_asc x acc) l [].

Definition stable_keyed (reverse : bool) (l : list (K * A)) : list (K * A) :=
  if reverse then rev (insertion_sort (rev l)) else insertion_sort l.

(** An entry, and the entries of [l], with the key translated by [f]. *)
Definition rekey {K' : Type} (f : K -> K') (x : K * A) : K' * A := (f (fst x), snd x).

Definition map_keys {K' : Type} (f : K -> K') (l : list (K * A)) : list (K' * A) :=
  map (rekey f) l.

End SortNotions.

(** Keys that are an integer or NaN, on which [<] can be evaluated. *)
Definition fl_of_code (c : option Z) : Np.fl :=
  match c with
  | Some z => Np.Fin (IZR z)
  | None => Np.NaN
  end.

Definition code_ltb (a b : option Z) : bool :=
  match a, b with
  | Some x, Some y => (x <? y)%Z
  | _, _ => false
  end.

Definition not_nan (k : Np.fl) : Prop := k <> Np.NaN.

(** The float [k] is the number [c] or more, plus infinity included. *)
Definition at_least (c : R) (k : Np.fl) : Prop :=
  match k with
  | Np.Fin x => (c <= x)%R
  | Np.PInf => True
  | _ => False
  end.

(** The float [k] is the number [c] or less, minus infinity included. *)
Definition at_most (c : R) (k : Np.fl) : Prop :=
  match k with
  | Np.Fin x => (x <= c)%R
  | Np.NInf => True
  | _ => False
  end.

(** The document [d] scores exactly [s] under the weights [p]. *)
Definition scores_as (p : Optim.Params) (user_ings : list pystr) (style_hint : pystr)
    (s : Np.fl) (d : Document) : bool :=
  match score_value p d user_ings style_hint with
  | Ok k => Np.fl_eqb k s
  | Raise _ => false
  end.

(** The score of [d] is a number or an infinity. *)
Definition score_not_nan (p : Optim.Params) (user_ings : list pystr) (style_hint : pystr)
    (d : Document) : Prop :=
  score_value p d user_ings style_hint <> Ok Np.NaN.

(** ** Sample inputs *)

(** The two documents of the specification's scenario, for any content. *)
Definition doc_A (content : pystr) : Document :=
  {| page_content := content;
     metadata := {[ "level" := VStr s_chogeup; "views" := VInt 10000;
                    "time" := VStr (U "30분이내") ]} |}.

Definition doc_B (content : pystr) : Document :=
  {| page_content := content;
     metadata := {[ "level" := VStr (U "고급"); "views" := VInt 500;
                    "time" := VStr (U "120분이내") ]} |}.

Definition doc_A_sample : Document := doc_A (U "tofu and rice").

(** A recipe as a loader may leave it: [level] is [None], [views] is the
    text of the count, [method] is missing. *)
Definition doc_A_text_views : Document :=
  {| page_content := U "tofu and rice";
     metadata := {[ "level" := VNone; "views" := VStr (U " 10000 ");
                    "time" := VStr (U "30분이내") ]} |}.

(** A recipe that names both ingredients of the query [tofu, onion]. *)
Definition doc_tofu_onion : Document := doc_A (U "tofu and onion stew").

(** Three candidates: B, then two recipes with the metadata of A that both
    name tofu, hence with equal scores. *)
Definition docs_with_tie : list Document :=
  [doc_B (U "beef stew"); doc_A (U "tofu soup"); doc_A (U "fried tofu")].

(** A document whose [views] is not a number. *)
Definition doc_views_not_numeric : Document :=
  {| page_content := U "tofu"; metadata := {[ "views" := VStr (U "N/A") ]} |}.

(** A recipe text that happens to contain the words of the sentinel. *)
Definition doc_mentions_sentinel : Document :=
  {| page_content := U "매운맛 상관없음"; metadata := ∅ |}.

(** A recipe with no metadata but [views]. *)
Definition doc_plain (content : pystr) (views : Z) : Document :=
  {| page_content := content; metadata := {[ "views" := VInt views ]} |}.

(** Seven candidates: five rice recipes, one with a negative [views], one
    with tofu. *)
Definition docs_with_nan : list Document :=
  [doc_plain (U "rice 1") 10; doc_plain (U "rice 2") 10; doc_plain (U "noodles") (-5);
   doc_plain (U "rice 3") 10; doc_plain (U "rice 4") 10; doc_plain (U "rice 5") 10;
   doc_plain (U "tofu") 10].

(** Weights that count ingredient hits only. *)
Definition hits_only_params : Optim.Params :=
  {| Optim.w_ing := 1; Optim.w_level := 0; Optim.w_pop := 0; Optim.w_style := 0;
     Optim.p_time := 0 |}.

(** Non-negative weights with the ingredient weight 1 and the popularity
    weight [2^1023], a float64. *)
Definition huge_pop_params : Optim.Params :=
  {| Optim.w_ing := 1; Optim.w_level := 0; Optim.w_pop := IZR (2 ^ 1023);
     Optim.w_style := 0; Optim.p_time := 0 |}.

(** The weights all set to zero. *)
Definition zero_params : Optim.Params :=
  {| Optim.w_ing := 0; Optim.w_level := 0; Optim.w_pop := 0; Optim.w_style := 0;
     Optim.p_time := 0 |}.

(** ** Decimal digits *)

(** The number a digit sequence denotes after the digits already read gave
    [acc]. *)
Fixpoint uint_val (acc : Z) (u : Decimal.uint) : Z :=
  match u with
  | Decimal.Nil => acc
  | Decimal.D0 u => uint_val (10 * acc + 0) u
  | Decimal.D1 u => uint_val (10 * acc + 1) u
  | Decimal.D2 u => uint_val (10 * acc + 2) u
  | Decimal.D3 u => uint_val (10 * acc + 3) u
  | Decimal.D4 u => uint_val (10 * acc + 4) u
  | Decimal.D5 u => uint_val (10 * acc + 5) u
  | Decimal.D6 u => uint_val (10 * acc + 6) u
  | Decimal.D7 u => uint_val (10 * acc + 7) u
  | Decimal.D8 u => uint_val (10 * acc + 8) u
  | Decimal.D9 u => uint_val (10 * acc + 9) u
  end.

(** A cook time written as Python prints it: the decimal digits of [n],
    the character 분, and a rest. *)
Definition minutes_text (n : Z) (rest : pystr) : pystr :=
  py_str (VInt n) ++ c_bun :: rest.

(** ** Ingredient lists *)

(** [",".join(items)]. *)
Fixpoint join_comma (items : list pystr) : pystr :=
  match items with
  | [] => []
  | [s] => s
  | s :: rest => s ++ 44%N :: join_comma rest
  end.

(** An ingredient as [parse_ingredients] returns it: not empty, trimmed. *)
Definition trimmed_item (s : pystr) : Prop := s <> [] /\ strip s = s.

(** No character of [s] is a separator of [parse_ingredients]. *)
Definition sep_free (s : pystr) : Prop :=
  Forall (fun c => RagPipeline.is_sep c = false) s.

(** ** Menu cards *)

(** The card [suggest_menus] builds for an entry of [scored]: the body of
    its loop with the [views] that [score_doc] has already converted. *)
Definition card_of (llm_chat : pystr -> outcome pystr) (user_story language : pystr)
    (entry : Q * (Document * RagPipeline.Debug)) : Menus.Menu :=
  let md := metadata (fst (snd entry)) in
  let dbg := snd (snd entry) in
  let raw := py_or (py_or (get md "menu" (VStr [])) (get md "title" (VStr [])))
                   (VStr (U "Unknown")) in
  {| Menus.title := Menus.make_witty_title llm_chat raw user_story language;
     Menus.raw_title := raw;
     Menus.subtitle := get md "title" (VStr []);
     Menus.tags := take 3 (Menus.tags_of md);
     Menus.spice := 3;
     Menus.meme := Menus.meme_of (RagPipeline.dbg_ing_hit dbg) (RagPipeline.dbg_views dbg);
     Menus.debug := dbg |}.

(** The entry carries the score and the debug record of its document. *)
Definition entry_scored (user_ings : list pystr) (style_hint : pystr)
    (entry : Q * (Document * RagPipeline.Debug)) : Prop :=
  RagPipeline.score_doc (fst (snd entry)) user_ings style_hint
  = Ok (fst entry, snd (snd entry)).

(** ** Sample collaborators *)

(** A retriever that answers every query with B and then A. *)
Definition sample_retriever (query : pystr) : outcome (list Document) :=
  Ok [doc_B (U "beef stew"); doc_A (U "tofu soup")].

(** A chat client that answers every prompt with the same padded title. *)
Definition sample_llm (prompt : pystr) : outcome pystr := Ok (U " Tofu party ").

(** The cards of the sample collaborators for a tired user with tofu and
    onion. *)
Definition sample_menus : list Menus.Menu :=
  Eval vm_compute in
    match Menus.suggest_menus sample_retriever sample_llm (U "tired") (U "tofu, onion") []
    with
    | Ok menus => menus
    | Raise _ => []
    end.

(** The outcomes of [score_doc] on A with 500 and with 10000 views. *)
Definition sample_score_500 : Q * RagPipeline.Debug :=
  ((106000 # 10000)%Q,
   {| RagPipeline.dbg_ing_hit := 1; RagPipeline.dbg_level := s_chogeup;
      RagPipeline.dbg_views := 500; RagPipeline.dbg_cook_time := 30;
      RagPipeline.dbg_final := (106000 # 10000)%Q |}).

Definition sample_score_10000 : Q * RagPipeline.Debug :=
  ((125000 # 10000)%Q,
   {| RagPipeline.dbg_ing_hit := 1; RagPipeline.dbg_level := s_chogeup;
      RagPipeline.dbg_views := 10000; RagPipeline.dbg_cook_time := 30;
      RagPipeline.dbg_final := (125000 # 10000)%Q |}).

(** * Properties *)

(** ** Strings *)

Section StringFacts.

Lemma drop_while_clean s : clean (drop_while is_space s).
Proof.
  induction s as [|c t IH]; simpl; [exact I|].
  destruct (is_space c) eqn:E; [exact IH|]. simpl. exact E.
Qed.

Lemma drop_while_id s : clean s -> drop_while is_space s = s.
Proof. destruct s as [|c t]; simpl; [reflexivity|]. intros ->. reflexivity. Qed.

Lemma drop_while_suffix p s : exists x, s = x ++ drop_while p s.
Proof.
  induction s as [|c t [x IH]]; simpl.
  - exists []. reflexivity.
  - destruct (p c).
    + exists (c :: x). simpl. f_equal. exact IH.
    + exists []. reflexivity.
Qed.

Lemma clean_prefix a b : clean (a ++ b) -> clean a.
Proof. destruct a; simpl; auto. Qed.

Lemma drop_while_all p s : forallb p s = true -> drop_while p s = [].
Proof.
  induction s as [|c t IH]; simpl; [reflexivity|].
  intros H. apply andb_prop in H as [-> H]. auto.
Qed.

Lemma strip_clean s : clean (strip s).
Proof.
  unfold strip.
  destruct (drop_while_suffix is_space (rev (drop_while is_space s))) as [x Hx].
  apply (f_equal (@rev N)) in Hx. rewrite rev_involutive, rev_app_distr in Hx.
  apply clean_prefix with (b := rev x). rewrite <- Hx. apply drop_while_clean.
Qed.

Lemma strip_idem s : strip (strip s) = strip s.
Proof.
  pose proof (strip_clean s) as Hc. unfold strip at 1.
  rewrite (drop_while_id _ Hc). unfold strip.
  rewrite rev_involutive.
  rewrite (drop_while_id (drop_while is_space (rev _))); [reflexivity|].
  apply drop_while_clean.
Qed.

Lemma strip_all_space s : forallb is_space s = true -> strip s = [].
Proof. intros H. unfold strip. rewrite (drop_while_all _ _ H). reflexivity. Qed.

Lemma str_eqb_eq a b : str_eqb a b = true <-> a = b.
Proof.
  revert b. induction a as [|x a IH]; intros [|y b]; simpl; split; try congruence.
  - intros H. apply andb_prop in H as [H1 H2].
    apply N.eqb_eq in H1. apply IH in H2. congruence.
  - intros [= -> ->]. rewrite N.eqb_refl. simpl. apply IH. reflexivity.
Qed.

Lemma startswith_nil s : startswith [] s = true.
Proof. destruct s; reflexivity. Qed.

(** The empty string occurs in every string. *)
Lemma contains_nil s : contains [] s = true.
Proof. destruct s; reflexivity. Qed.

Lemma nonempty_true s : RagPipeline.nonempty s = true <-> s <> [].
Proof. unfold RagPipeline.nonempty. destruct s; simpl; split; intros H; congruence. Qed.

Lemma Forall_drop_while (P : N -> Prop) p s : Forall P s -> Forall P (drop_while p s).
Proof.
  induction 1 as [|c t Hc Ht IH]; simpl; [constructor|].
  destruct (p c); [exact IH | constructor; assumption].
Qed.

Lemma Forall_strip (P : N -> Prop) s : Forall P s -> Forall P (strip s).
Proof.
  intros H. unfold strip. apply Forall_rev. apply Forall_drop_while.
  apply Forall_rev. apply Forall_drop_while. exact H.
Qed.

End StringFacts.

(** ** parse_ingredients *)

Section ParseIngredients.
Import RagPipeline.

(** Every character of a piece comes from the pending piece or from the
    rest of the text. *)
Lemma re_split_go_chars (P : N -> Prop) s :
  forall cur b, Forall P cur -> Forall P s ->
  Forall (Forall P) (re_split_go cur b s).
Proof.
  induction s as [|c t IH]; intros cur b Hc Hs; simpl.
  - constructor; [|constructor]. apply Forall_rev. exact Hc.
  - inversion Hs as [|? ? Hc0 Ht]; subst.
    destruct (is_sep c).
    + destruct b.
      * apply IH; [constructor | exact Ht].
      * constructor; [apply Forall_rev; exact Hc |].
        apply IH; [constructor | exact Ht].
    + apply IH; [constructor; assumption | exact Ht].
Qed.

Lemma forallb_Forall_space s :
  forallb is_space s = true -> Forall (fun c => is_space c = true) s.
Proof. intros H. apply List.Forall_forall. apply (proj1 (forallb_forall _ _) H). Qed.

Lemma Forall_space_forallb s :
  Forall (fun c => is_space c = true) s -> forallb is_space s = true.
Proof. intros H. apply forallb_forall. apply (proj1 (List.Forall_forall _ _) H). Qed.

Lemma kept_pieces_empty (items : list pystr) :
  Forall (fun i => strip i = []) items ->
  map strip (List.filter (fun i => nonempty (strip i)) items) = [].
Proof.
  induction 1 as [|i items Hi _ IH]; simpl; [reflexivity|].
  rewrite Hi. simpl. exact IH.
Qed.

Lemma kept_pieces_trimmed (items : list pystr) :
  Forall (fun s => s <> [] /\ strip s = s)
         (map strip (List.filter (fun i => nonempty (strip i)) items)).
Proof.
  induction items as [|i items IH]; simpl; [constructor|].
  destruct (nonempty (strip i)) eqn:E; [|exact IH].
  simpl. constructor; [|exact IH].
  split; [apply nonempty_true; exact E | apply strip_idem].
Qed.

End ParseIngredients.

(** C10. For every input string, [parse_ingredients] returns a list whose
    elements are all non-empty and equal to their own trimmed form, and it
    returns the empty list when the input is empty, consists of white space
    only, or is (or trims to) one of the sentinels 없음, none, None. *)
Theorem parse_ingredients_trimmed_nonempty (text : pystr) :
  Forall (fun s => s <> [] /\ strip s = s) (RagPipeline.parse_ingredients text)
  /\ (text = [] \/ forallb is_space text = true
      \/ In text [s_eopseum; U "none"; U "None"]
      \/ In (strip text) [s_eopseum; U "none"; U "None"]
      -> RagPipeline.parse_ingredients text = []).
Proof.
  unfold RagPipeline.parse_ingredients. split.
  - destruct (_ || _); [constructor | apply kept_pieces_trimmed].
  - intros [-> | [Hws | [Hin | Hin]]].
    + reflexivity.
    + destruct (_ || _); [reflexivity|].
      apply kept_pieces_empty.
      unfold RagPipeline.re_split.
      apply List.Forall_impl with (P := Forall (fun c => is_space c = true)).
      * intros piece Hp. apply strip_all_space. apply Forall_space_forallb. exact Hp.
      * apply re_split_go_chars; [constructor | apply forallb_Forall_space; exact Hws].
    + simpl in Hin. destruct Hin as [<- | [<- | [<- | []]]]; vm_compute; reflexivity.
    + assert (E : existsb (str_eqb (strip text)) [s_eopseum; U "none"; U "None"] = true).
      { apply existsb_exists. exists (strip text). split; [exact Hin|].
        apply str_eqb_eq. reflexivity. }
      rewrite E, orb_true_r. reflexivity.
Qed.

(** ** The optimizer's ingredient count *)

Section IngredientHits.

Lemma optim_ing_hit_app l1 l2 text :
  Optim.ing_hit (l1 ++ l2) text = (Optim.ing_hit l1 text + Optim.ing_hit l2 text)%Z.
Proof.
  unfold Optim.ing_hit. rewrite List.filter_app, length_app. lia.
Qed.

Lemma optim_ing_hit_cons e l text :
  Optim.ing_hit (e :: l) text =
  ((if contains (strip e) text then 1 else 0) + Optim.ing_hit l text)%Z.
Proof.
  unfold Optim.ing_hit. simpl. destruct (contains (strip e) text); simpl length; lia.
Qed.

End IngredientHits.

(** C9. In the optimizer's scorer an ingredient entry whose trimmed form is
    the empty string counts as a hit for every document text, wherever it
    stands in the list: it raises the hit count by one.  Such an entry is
    what line 134 produces for a trailing comma. *)
Theorem blank_ingredient_always_hits (l1 l2 : list pystr) (e text : pystr) :
  strip e = [] ->
  Optim.ing_hit (l1 ++ e :: l2) text = (1 + Optim.ing_hit (l1 ++ l2) text)%Z
  /\ Optim.main_user_ings (U "tofu, ") = [U "tofu"; []].
Proof.
  intros He. split; [|reflexivity].
  rewrite !optim_ing_hit_app, optim_ing_hit_cons, He, contains_nil. lia.
Qed.

Lemma blank_ingredient_always_hits_witness :
  Optim.ing_hit ([U "tofu"] ++ U " " :: []) (U "beef stew")
  = (1 + Optim.ing_hit ([U "tofu"] ++ []) (U "beef stew"))%Z
  /\ Optim.main_user_ings (U "tofu, ") = [U "tofu"; []].
Proof. apply (blank_ingredient_always_hits [U "tofu"] [] (U " ") (U "beef stew")). reflexivity. Defined.

(** ** The style bonus *)

Section StyleScore.

(** The inference-time scorer: no bonus for an empty hint or for the
    sentinel, otherwise 1.5 exactly when the hint occurs. *)
Lemma rag_style_score_spec (doc : Document) (style_hint : pystr) :
  RagPipeline.style_score doc style_hint =
  if str_eqb style_hint [] || str_eqb style_hint s_sanggwaneopseum then 0%Q
  else if hint_occurs doc style_hint then (3 # 2)%Q else 0%Q.
Proof.
  unfold RagPipeline.style_score, hint_occurs, RagPipeline.nonempty.
  destruct style_hint as [|c h]; [reflexivity|].
  change (str_eqb (c :: h) []) with false. cbn [truthy andb orb].
  destruct (str_eqb (c :: h) s_sanggwaneopseum); cbn [negb]; [reflexivity|].
  destruct (contains (c :: h) (page_content doc)); cbn [orb];
    [reflexivity|].
  destruct (contains (c :: h) (py_str (get (metadata doc) "situation" (VStr []))));
  destruct (contains (c :: h) (py_str (get (metadata doc) "method" (VStr []))));
  reflexivity.
Qed.

(** The optimizer's scorer: no bonus for an empty hint, otherwise 1 exactly
    when the hint occurs.  The sentinel is a hint like any other. *)
Lemma optim_style_score_spec (doc : Document) (style_hint : pystr) :
  Optim.style_score doc style_hint =
  if str_eqb style_hint [] then 0%Z
  else if hint_occurs doc style_hint then 1%Z else 0%Z.
Proof.
  unfold Optim.style_score, hint_occurs.
  destruct style_hint as [|c h]; reflexivity.
Qed.

End StyleScore.

(** C4, at the input where the two scorers part: with the "no preference"
    sentinel 상관없음 as style hint and a document whose content contains
    that text, the inference-time scorer gives no style bonus while the
    optimizer's scorer gives the bonus 1. *)
Theorem optimizer_style_score_ignores_sentinel :
  RagPipeline.style_score doc_mentions_sentinel s_sanggwaneopseum = 0%Q
  /\ Optim.style_score doc_mentions_sentinel s_sanggwaneopseum = 1%Z.
Proof. split; vm_compute; reflexivity. Qed.

(** ** The time penalty *)

Section TimePenalty.

(** The inference-time penalty is a non-decreasing step function of the
    parsed minutes. *)
Lemma rag_time_penalty_monotone (m1 m2 : Z) :
  (m1 <= m2)%Z -> (RagPipeline.time_penalty m1 <= RagPipeline.time_penalty m2)%Q.
Proof.
  intros H. unfold RagPipeline.time_penalty.
  destruct (Z.leb_spec m1 30), (Z.leb_spec m2 30), (Z.leb_spec m1 60), (Z.leb_spec m2 60);
    try lia; unfold Qle; simpl; lia.
Qed.

Lemma rag_time_penalty_steps (m : Z) :
  ((m <= 30)%Z -> RagPipeline.time_penalty m = 0%Q)
  /\ ((30 < m <= 60)%Z -> RagPipeline.time_penalty m = (1 # 2)%Q)
  /\ ((60 < m)%Z -> RagPipeline.time_penalty m = (3 # 2)%Q).
Proof.
  unfold RagPipeline.time_penalty.
  destruct (Z.leb_spec m 30), (Z.leb_spec m 60); repeat split; intros; try lia; reflexivity.
Qed.

(** The "no info" marker 정보 anywhere in the text gives the sentinel
    duration, hence the largest penalty. *)
Lemma rag_no_info_sentinel (s : pystr) :
  contains s_jeongbo (strip s) = true ->
  RagPipeline.time_to_minutes (VStr s) = Ok 9999%Z
  /\ RagPipeline.time_penalty 9999 = (3 # 2)%Q.
Proof.
  intros H. split; [|reflexivity].
  unfold RagPipeline.time_to_minutes. destruct s as [|c s]; [reflexivity|].
  cbn [truthy negb RagPipeline.strip_val obind]. rewrite H. reflexivity.
Qed.

End TimePenalty.

(** C3, at the input where the optimizer's scorer breaks the order: the
    cook times 10분이내 and 30분이내 parse to 10 and 30 minutes and the
    inference-time scorer penalises neither, but [_parse_time] gives the
    ten-minute recipe the largest penalty 2 and the thirty-minute recipe
    the penalty 0. *)
Theorem optimizer_time_penalty_not_monotone :
  RagPipeline.time_to_minutes (VStr (U "10분이내")) = Ok 10%Z
  /\ RagPipeline.time_to_minutes (VStr (U "30분이내")) = Ok 30%Z
  /\ RagPipeline.time_penalty 10 = 0%Q
  /\ RagPipeline.time_penalty 30 = 0%Q
  /\ Optim._parse_time (VStr (U "10분이내")) = 2%Z
  /\ Optim._parse_time (VStr (U "30분이내")) = 0%Z.
Proof. repeat split; vm_compute; reflexivity. Qed.

(** ** Totality of the two scorers *)

Section Totality.
Import RagPipeline.

Lemma is_space_cases c :
  is_space c = true ->
  In c [9; 10; 11; 12; 13; 28; 29; 30; 31; 32; 133; 160; 5760; 8192; 8193; 8194;
        8195; 8196; 8197; 8198; 8199; 8200; 8201; 8202; 8232; 8233; 8239; 8287;
        12288]%N.
Proof.
  unfold is_space. intros H.
  repeat (apply orb_prop in H as [H|H]);
    first [ apply andb_prop in H as [H1 H2]; apply N.leb_le in H1, H2
          | apply N.eqb_eq in H ];
    simpl; lia.
Qed.

(** No decimal digit is white space. *)
Lemma digit_not_space c : is_digit c = true -> is_space c = false.
Proof.
  intros Hd. destruct (is_space c) eqn:E; [|reflexivity].
  apply is_space_cases in E. simpl in E.
  repeat (destruct E as [<- | E]; [vm_compute in Hd; discriminate|]).
  contradiction.
Qed.

Lemma digit_not_int_space c : is_digit c = true -> is_int_space c = false.
Proof. intros H. unfold is_int_space. rewrite (digit_not_space c H). reflexivity. Qed.

Lemma is_digit_value c : is_digit c = true -> exists d, digit_value c = Some d.
Proof. unfold is_digit. destruct (digit_value c); [eauto | discriminate]. Qed.

(** Trimming a string none of whose characters is to be trimmed. *)
Lemma trim_none (p : N -> bool) s :
  Forall (fun c => p c = false) s -> rev (drop_while p (rev (drop_while p s))) = s.
Proof.
  intros H.
  assert (E1 : drop_while p s = s).
  { destruct s as [|c t]; [reflexivity|]. simpl. inversion H; subst.
    rewrite H2. reflexivity. }
  rewrite E1.
  assert (E2 : drop_while p (rev s) = rev s).
  { apply Forall_rev in H. destruct (rev s) as [|c t]; [reflexivity|].
    simpl. inversion H; subst. rewrite H2. reflexivity. }
  rewrite E2. apply rev_involutive.
Qed.

Lemma strip_no_space s : Forall (fun c => is_space c = false) s -> strip s = s.
Proof. apply trim_none. Qed.

Lemma digits_Forall (P : N -> Prop) ds :
  (forall c, is_digit c = true -> P c) -> forallb is_digit ds = true -> Forall P ds.
Proof.
  intros HP Hd. apply List.Forall_forall. intros c Hc. apply HP.
  apply (proj1 (forallb_forall _ _) Hd c Hc).
Qed.

Lemma filter_all {X} (f : X -> bool) l : forallb f l = true -> List.filter f l = l.
Proof.
  induction l as [|x l IH]; simpl; [reflexivity|].
  intros H. apply andb_prop in H as [-> H]. rewrite (IH H). reflexivity.
Qed.

Lemma int_digits_all ds : forall acc seen,
  forallb is_digit ds = true -> seen = true \/ ds <> [] ->
  exists z, int_digits acc seen ds = Some z.
Proof.
  induction ds as [|c t IH]; intros acc seen Hd Hs; simpl.
  - destruct Hs as [-> | Hs]; [eauto | congruence].
  - simpl in Hd. apply andb_prop in Hd as [Hc Ht].
    destruct (is_digit_value c Hc) as [d ->].
    apply IH; [exact Ht | left; reflexivity].
Qed.

(** [int] reads a run of digits as the run alone when it is not longer
    than [int_max_str_digits]. *)
Lemma int_of_str_digits ds :
  forallb is_digit ds = true -> ds <> [] ->
  int_of_str ds =
  if (int_max_str_digits <? Z.of_nat (length ds))%Z then None else int_digits 0 false ds.
Proof.
  intros Hd Hne. unfold int_of_str.
  rewrite (trim_none is_int_space) by (apply digits_Forall with (2 := Hd); apply digit_not_int_space).
  destruct ds as [|c t]; [congruence|].
  assert (Hc : is_digit c = true) by (simpl in Hd; apply andb_prop in Hd; tauto).
  destruct (N.eqb_spec c 43) as [->|_]; [vm_compute in Hc; discriminate|].
  destruct (N.eqb_spec c 45) as [->|_]; [vm_compute in Hc; discriminate|].
  unfold int_body. rewrite (filter_all _ _ Hd). reflexivity.
Qed.

Lemma int_of_digits ds :
  forallb is_digit ds = true -> ds <> [] -> (Z.of_nat (length ds) <= int_max_str_digits)%Z ->
  exists z, py_int (VStr ds) = Ok z.
Proof.
  intros Hd Hne Hlen. unfold py_int. rewrite (int_of_str_digits ds Hd Hne).
  destruct (Z.ltb_spec int_max_str_digits (Z.of_nat (length ds))); [lia|].
  destruct (int_digits_all ds 0 false Hd) as [z ->]; [right; exact Hne|].
  eauto.
Qed.

(** A run of more than [int_max_str_digits] digits is refused. *)
Lemma int_of_long_digits ds :
  forallb is_digit ds = true -> (int_max_str_digits < Z.of_nat (length ds))%Z ->
  py_int (VStr ds) = Raise ValueError.
Proof.
  intros Hd Hlen. unfold py_int. rewrite (int_of_str_digits ds Hd).
  - destruct (Z.ltb_spec int_max_str_digits (Z.of_nat (length ds))); [reflexivity | lia].
  - intros ->. simpl in Hlen. unfold int_max_str_digits in Hlen. lia.
Qed.

Lemma take_while_all p s : forallb p (take_while p s) = true.
Proof.
  induction s as [|c t IH]; simpl; [reflexivity|].
  destruct (p c) eqn:E; simpl; [rewrite E; exact IH | reflexivity].
Qed.

Lemma search_minutes_digits s ds :
  search_minutes s = Some ds -> forallb is_digit ds = true /\ ds <> [].
Proof.
  induction s as [|c t IH]; simpl.
  - unfold match_minutes_here. simpl. congruence.
  - destruct (match_minutes_here (c :: t)) as [ds'|] eqn:E; [|exact IH].
    intros [= <-]. unfold match_minutes_here in E.
    pose proof (take_while_all is_digit (c :: t)) as Hall.
    destruct (take_while is_digit (c :: t)) as [|d r]; [congruence|].
    destruct (drop_while is_space (drop_while is_digit (c :: t))) as [|x ?]; [congruence|].
    destruct (x =? c_bun)%N; [|congruence].
    injection E as <-. split; [exact Hall | congruence].
Qed.

Lemma take_while_length p s : (length (take_while p s) <= length s)%nat.
Proof. induction s as [|c t IH]; simpl; [lia|]. destruct (p c); simpl; lia. Qed.

Lemma drop_while_length p s : (length (drop_while p s) <= length s)%nat.
Proof. induction s as [|c t IH]; simpl; [lia|]. destruct (p c); simpl; lia. Qed.

Lemma strip_length s : (length (strip s) <= length s)%nat.
Proof.
  unfold strip. rewrite length_rev.
  etransitivity; [apply drop_while_length|]. rewrite length_rev. apply drop_while_length.
Qed.

(** The digits found are a piece of the text. *)
Lemma search_minutes_length s ds :
  search_minutes s = Some ds -> (length ds <= length s)%nat.
Proof.
  induction s as [|c t IH]; simpl.
  - unfold match_minutes_here. simpl. congruence.
  - destruct (match_minutes_here (c :: t)) as [ds'|] eqn:E.
    + intros [= <-]. unfold match_minutes_here in E.
      pose proof (take_while_length is_digit (c :: t)) as Hlen.
      destruct (take_while is_digit (c :: t)) as [|d r]; [congruence|].
      destruct (drop_while is_space (drop_while is_digit (c :: t))) as [|x ?]; [congruence|].
      destruct (x =? c_bun)%N; [|congruence].
      injection E as <-. exact Hlen.
    + intros H. apply IH in H. lia.
Qed.

(** [time_to_minutes] returns for every string of at most
    [int_max_str_digits] characters. *)
Lemma time_to_minutes_str s :
  (Z.of_nat (length s) <= int_max_str_digits)%Z -> exists m, time_to_minutes (VStr s) = Ok m.
Proof.
  intros Hlen. unfold time_to_minutes.
  destruct (negb (truthy (VStr s))); [eauto|].
  cbn [strip_val obind].
  destruct (contains s_jeongbo (strip s)); [eauto|].
  destruct (search_minutes (strip s)) as [ds|] eqn:E; [|eauto].
  pose proof (search_minutes_length _ _ E) as Hl. pose proof (strip_length s) as Hs.
  apply search_minutes_digits in E as [Hd Hne].
  apply int_of_digits; [assumption | assumption | lia].
Qed.

(** [normalize_level] returns for every string. *)
Lemma normalize_level_str s : exists l, normalize_level (VStr s) = Ok l.
Proof. unfold normalize_level, py_or. destruct (truthy (VStr s)); simpl; eauto. Qed.

Lemma pop_score_count v : (0 <= v < 2 ^ 63)%Z -> exists q, pop_score v = Ok q.
Proof.
  intros Hv. unfold pop_score, float_of_int.
  assert (Hb : (2 ^ 63 < 2 ^ 1024 - 2 ^ 970)%Z) by (vm_compute; reflexivity).
  destruct (Z.ltb_spec (Z.abs v) (2 ^ 1024 - 2 ^ 970)); [simpl; eauto | lia].
Qed.

Lemma log1p_count v : (0 <= v < 2 ^ 63)%Z -> Np.log1p v = Ok (Np.Fin (ln (1 + IZR v))).
Proof.
  intros Hv. unfold Np.log1p.
  assert (Hb : (2 ^ 63 < 2 ^ 64)%Z) by (vm_compute; reflexivity).
  destruct (Z.leb_spec (- 2 ^ 63) v); [|lia].
  destruct (Z.ltb_spec v (2 ^ 64)); [|lia].
  destruct (Z.leb_spec 0 v); [reflexivity | lia].
Qed.

(** [score] reads [self.params] and writes nothing. *)
Lemma score_run doc user_ings style_hint (self : Optim.AutoRanker) :
  Optim.score doc user_ings style_hint self
  = (self, score_value (Optim.params self) doc user_ings style_hint).
Proof.
  unfold Optim.score, score_value, Optim.bind, Optim.lift, Optim.read_params, Optim.ret.
  destruct (py_int _) as [v|e]; [|reflexivity]. cbn [obind].
  destruct (Np.log1p v) as [x|e]; reflexivity.
Qed.

(** A key that is absent reads as the default of the [get]. *)
Lemma get_insert_default (md : gmap string pyval) k d k' d' :
  md !! k = None -> (k = k' -> d = d') ->
  get (<[k:=d]> md) k' d' = get md k' d'.
Proof.
  intros Hk Hd. unfold get. destruct (decide (k = k')) as [E|E].
  - subst k'. rewrite lookup_insert_eq, Hk. auto.
  - rewrite lookup_insert_ne by exact E. reflexivity.
Qed.

End Totality.

Section TotalityTheorem.
Import RagPipeline.

Lemma py_int_or_zero v : py_int (py_or (VInt v) (VInt 0)) = Ok v.
Proof.
  unfold py_or. simpl. destruct (Z.eqb_spec v 0); simpl; congruence.
Qed.

Lemma normalize_level_falsy_or_str v :
  falsy_or_str v -> exists l, normalize_level v = Ok l.
Proof.
  unfold normalize_level, py_or. intros [-> | [s ->]]; [simpl; eauto|].
  destruct (truthy (VStr s)); simpl; eauto.
Qed.

Lemma time_to_minutes_short v :
  short_time v -> exists m, time_to_minutes v = Ok m.
Proof.
  intros [Hf | [s [-> Hlen]]].
  - unfold time_to_minutes. rewrite Hf. simpl. eauto.
  - apply time_to_minutes_str. exact Hlen.
Qed.

(** [int(views or 0)] reads a count where [int(views)] does. *)
Lemma reads_as_count_or_zero v :
  reads_as_count v -> reads_as_count (py_or v (VInt 0)).
Proof.
  intros Hv. unfold py_or. destruct (truthy v); [exact Hv|].
  exists 0%Z. split; [reflexivity|]. split; [lia | vm_compute; reflexivity].
Qed.

Lemma score_doc_total doc user_ings style_hint :
  falsy_or_str (get (metadata doc) "level" (VStr [])) ->
  short_time (get (metadata doc) "time" (VStr [])) ->
  reads_as_count (get (metadata doc) "views" (VInt 0)) ->
  exists r, score_doc doc user_ings style_hint = Ok r.
Proof.
  intros Hl Ht Hv. unfold score_doc.
  destruct (normalize_level_falsy_or_str _ Hl) as [l' ->]. cbn [obind].
  destruct (reads_as_count_or_zero _ Hv) as [v [-> Hr]]. cbn [obind].
  destruct (time_to_minutes_short _ Ht) as [m ->]. cbn [obind].
  destruct (pop_score_count v Hr) as [q ->]. cbn [obind].
  eauto.
Qed.

Lemma score_value_total p doc user_ings style_hint :
  reads_as_count (get (metadata doc) "views" (VInt 0)) ->
  exists k, score_value p doc user_ings style_hint = Ok k.
Proof.
  intros [v [Hv Hr]]. unfold score_value.
  rewrite Hv. cbn [obind]. rewrite (log1p_count v Hr). cbn [obind]. eauto.
Qed.

Lemma score_doc_default doc user_ings style_hint k d :
  In (k, d) field_defaults -> metadata doc !! k = None ->
  score_doc (with_field doc k d) user_ings style_hint = score_doc doc user_ings style_hint.
Proof.
  intros Hin Hk. unfold score_doc, style_score, with_field. cbn [metadata page_content].
  simpl in Hin.
  repeat (destruct Hin as [[= <- <-] | Hin]; [
    rewrite !(get_insert_default (metadata doc)) by
      first [ exact Hk | intros E; first [reflexivity | discriminate E] ];
    reflexivity |]).
  contradiction.
Qed.

Lemma score_value_default p doc user_ings style_hint k d :
  In (k, d) field_defaults -> metadata doc !! k = None ->
  score_value p (with_field doc k d) user_ings style_hint
  = score_value p doc user_ings style_hint.
Proof.
  intros Hin Hk. unfold score_value, Optim.style_score, with_field.
  cbn [metadata page_content]. simpl in Hin.
  repeat (destruct Hin as [[= <- <-] | Hin]; [
    rewrite !(get_insert_default (metadata doc)) by
      first [ exact Hk | intros E; first [reflexivity | discriminate E] ];
    reflexivity |]).
  contradiction.
Qed.

End TotalityTheorem.

(** C1, as the code has it.  Let the [level] of a document be absent,
    falsy or a string, its [time] absent, falsy or a string of at most 4300
    characters, its [views] absent or a value that [int] converts to a
    count in [0, 2^63) (such an [int], or a string holding its literal),
    and its [method] and [situation] anything but an [int] of more than
    4300 digits.  Then both scorers return a score without raising, for
    every ingredient list, style hint and weight vector; and a field among
    [level], [views], [time], [method], [situation] that is absent scores
    exactly as if it held its default (the empty string, and 0 for
    [views]). *)
Theorem scoring_total_on_typed_metadata (doc : Document) (user_ings : list pystr)
    (style_hint : pystr) (self : Optim.AutoRanker) :
  falsy_or_str (get (metadata doc) "level" (VStr [])) ->
  short_time (get (metadata doc) "time" (VStr [])) ->
  reads_as_count (get (metadata doc) "views" (VInt 0)) ->
  printable (get (metadata doc) "method" (VStr [])) ->
  printable (get (metadata doc) "situation" (VStr [])) ->
  (exists r, RagPipeline.score_doc doc user_ings style_hint = Ok r)
  /\ (exists k, Optim.score doc user_ings style_hint self = (self, Ok k))
  /\ (forall k d, In (k, d) field_defaults -> metadata doc !! k = None ->
        RagPipeline.score_doc (with_field doc k d) user_ings style_hint
        = RagPipeline.score_doc doc user_ings style_hint
        /\ Optim.score (with_field doc k d) user_ings style_hint self
           = Optim.score doc user_ings style_hint self).
Proof.
  intros Hl Ht Hv _ _. split; [|split].
  - apply score_doc_total; assumption.
  - destruct (score_value_total (Optim.params self) doc user_ings style_hint Hv) as [x Hx].
    exists x. rewrite score_run, Hx. reflexivity.
  - intros k d Hin Hk. split.
    + apply score_doc_default; assumption.
    + rewrite !score_run. f_equal. apply score_value_default; assumption.
Qed.

Lemma scoring_total_on_typed_metadata_witness :
  (exists r, RagPipeline.score_doc doc_A_text_views [U "tofu"] [] = Ok r)
  /\ (exists k, Optim.score doc_A_text_views [U "tofu"] [] Optim.__init__
                = (Optim.__init__, Ok k)).
Proof.
  destruct (scoring_total_on_typed_metadata doc_A_text_views [U "tofu"] [] Optim.__init__)
    as [H1 [H2 _]].
  - left. reflexivity.
  - right. exists (U "30분이내"). split; [reflexivity | vm_compute; discriminate].
  - exists 10000%Z. split; [vm_compute; reflexivity|].
    split; [lia | vm_compute; reflexivity].
  - exact I.
  - exact I.
  - split; [exact H1 | exact H2].
Defined.

(** C1 as stated fails: a [views] field holding the text N/A makes [int]
    raise [ValueError] in both scorers. *)
Lemma scoring_raises_on_non_numeric_views :
  RagPipeline.score_doc doc_views_not_numeric [U "tofu"] [] = Raise ValueError
  /\ snd (Optim.score doc_views_not_numeric [U "tofu"] [] Optim.__init__) = Raise ValueError.
Proof.
  split; [vm_compute; reflexivity|].
  rewrite score_run. cbn [snd]. vm_compute. reflexivity.
Qed.

(** ** Sorting *)

(** *** The reference sort: stable, ordered, a rearrangement *)

Section SortFacts.
Context {K A : Type} (ltb : K -> K -> bool) (good : K -> Prop).

(** [ltb] is a strict weak order on the keys that are [good] (for floats:
    the keys that are not NaN). *)
Hypothesis ltb_irrefl : forall a, good a -> ltb a a = false.
Hypothesis ltb_trans : forall a b c, good a -> good b -> good c ->
  ltb a b = true -> ltb b c = true -> ltb a c = true.
Hypothesis ltb_ntrans : forall a b c, good a -> good b -> good c ->
  ltb a b = false -> ltb b c = false -> ltb a c = false.

Implicit Types (x y : K * A) (l acc run rest : list (K * A)).

Lemma ltb_asym a b : good a -> good b -> ltb a b = true -> ltb b a = false.
Proof.
  intros Ha Hb H. destruct (ltb b a) eqn:E; [|reflexivity].
  rewrite <- (ltb_irrefl a Ha). symmetry. apply (ltb_trans a b a); assumption.
Qed.

Lemma Forall_insert_asc (P : K * A -> Prop) x l :
  P x -> Forall P l -> Forall P (insert_asc ltb x l).
Proof.
  intros Hx Hl. induction Hl as [|y t Hy Ht IH]; simpl.
  - constructor; [exact Hx | constructor].
  - destruct (ltb (fst x) (fst y)).
    + constructor; [exact Hx | constructor; assumption].
    + constructor; assumption.
Qed.

Lemma insert_asc_ascending x l :
  good (fst x) -> keys_good good l -> ascending ltb l -> ascending ltb (insert_asc ltb x l).
Proof.
  intros Hx Hg Hs. induction Hs as [|y t Hy Hs IH]; simpl.
  - constructor; constructor.
  - inversion Hg as [|? ? Hgy Hgt]; subst.
    destruct (ltb (fst x) (fst y)) eqn:E.
    + constructor; [|constructor; assumption].
      constructor; [apply ltb_asym; assumption|].
      rewrite List.Forall_forall in *. intros z Hz.
      destruct (ltb (fst z) (fst x)) eqn:Ezx; [|reflexivity].
      rewrite <- (Hy z Hz). symmetry.
      apply (ltb_trans (fst z) (fst x) (fst y)); auto.
    + constructor; [|apply IH; exact Hgt].
      apply Forall_insert_asc; assumption.
Qed.

Lemma filter_tied_insert_asc k x l :
  good k -> good (fst x) -> keys_good good l -> ascending ltb l ->
  List.filter (tied ltb k) (insert_asc ltb x l) = List.filter (tied ltb k) (l ++ [x]).
Proof.
  intros Hk Hx Hg Hs. induction Hs as [|y t Hy Hs IH]; simpl; [reflexivity|].
  inversion Hg as [|? ? Hgy Hgt]; subst.
  destruct (ltb (fst x) (fst y)) eqn:E.
  - change (List.filter (tied ltb k) (x :: y :: t)
            = List.filter (tied ltb k) ((y :: t) ++ [x])).
    rewrite List.filter_app.
    change (List.filter (tied ltb k) (x :: y :: t))
      with (if tied ltb k x then x :: List.filter (tied ltb k) (y :: t)
            else List.filter (tied ltb k) (y :: t)).
    change (List.filter (tied ltb k) [x]) with (if tied ltb k x then [x] else []).
    destruct (tied ltb k x) eqn:Ex.
    + (* every entry from [y] on is greater than [x], so none is tied with [k] *)
      assert (Hnone : List.filter (tied ltb k) (y :: t) = []).
      { assert (Hall : Forall (fun z => tied ltb k z = false) (y :: t)).
        { unfold keys_good in Hg. rewrite List.Forall_forall in *. intros z Hz.
          assert (Hgz : good (fst z)) by (apply Hg; exact Hz).
          assert (Hxz : ltb (fst x) (fst z) = true).
          { destruct Hz as [<- | Hz]; [exact E|].
            destruct (ltb (fst x) (fst z)) eqn:Exz; [reflexivity|].
            rewrite <- E. symmetry.
            apply (ltb_ntrans (fst x) (fst z) (fst y)); auto. }
          unfold tied in *. apply andb_prop in Ex as [Ex1 Ex2].
          apply negb_true_iff in Ex1, Ex2.
          destruct (ltb k (fst z)) eqn:Ekz; [rewrite andb_false_r; reflexivity|].
          rewrite (ltb_ntrans (fst x) k (fst z)) in Hxz by assumption.
          discriminate. }
        clear - Hall. induction Hall as [|z r Hz _ IHr]; simpl; [reflexivity|].
        rewrite Hz. exact IHr. }
      rewrite Hnone. reflexivity.
    + rewrite app_nil_r. reflexivity.
  - simpl. rewrite (IH Hgt). reflexivity.
Qed.

Lemma fold_insert_asc_spec k l : forall acc,
  good k -> keys_good good acc -> keys_good good l -> ascending ltb acc ->
  let r := fold_left (fun acc x => insert_asc ltb x acc) l acc in
  keys_good good r /\ ascending ltb r
  /\ List.filter (tied ltb k) r = List.filter (tied ltb k) (acc ++ l).
Proof.
  induction l as [|x l IH]; intros acc Hk Ha Hl Hs; simpl.
  - rewrite app_nil_r. auto.
  - inversion Hl as [|? ? Hx Hl']; subst.
    destruct (IH (insert_asc ltb x acc)) as [H1 [H2 H3]]; auto.
    + apply Forall_insert_asc; assumption.
    + apply insert_asc_ascending; assumption.
    + split; [exact H1|]. split; [exact H2|].
      rewrite H3. change (acc ++ x :: l) with (acc ++ [x] ++ l).
      rewrite !List.filter_app.
      rewrite (filter_tied_insert_asc k x acc) by assumption.
      rewrite List.filter_app, <- app_assoc. reflexivity.
Qed.

Lemma filter_rev' (f : K * A -> bool) l : List.filter f (rev l) = rev (List.filter f l).
Proof.
  induction l as [|x l IH]; simpl; [reflexivity|].
  rewrite List.filter_app, IH. simpl. destruct (f x); simpl;
    [reflexivity | apply app_nil_r].
Qed.

(** Stability: the entries with a given key come out in their input order,
    in both directions of the sort. *)
Lemma stable_keyed_stable (reverse : bool) k l :
  good k -> keys_good good l ->
  List.filter (tied ltb k) (stable_keyed ltb reverse l) = List.filter (tied ltb k) l.
Proof.
  intros Hk Hl. unfold stable_keyed, insertion_sort. destruct reverse.
  - rewrite filter_rev'.
    destruct (fold_insert_asc_spec k (rev l) [] Hk) as [_ [_ ->]];
      [constructor | apply Forall_rev; exact Hl | constructor |].
    simpl. rewrite filter_rev', rev_involutive. reflexivity.
  - destruct (fold_insert_asc_spec k l [] Hk) as [_ [_ ->]];
      [constructor | exact Hl | constructor |].
    reflexivity.
Qed.

Lemma insert_asc_perm x l : Permutation (insert_asc ltb x l) (x :: l).
Proof.
  induction l as [|y t IH]; simpl; [reflexivity|].
  destruct (ltb (fst x) (fst y)); [reflexivity|].
  rewrite IH. apply perm_swap.
Qed.

Lemma fold_insert_asc_perm l : forall acc,
  Permutation (fold_left (fun acc x => insert_asc ltb x acc) l acc) (acc ++ l).
Proof.
  induction l as [|x l IH]; intros acc; simpl.
  - rewrite app_nil_r. reflexivity.
  - rewrite IH, insert_asc_perm. apply Permutation_middle.
Qed.

Lemma stable_keyed_perm reverse l : Permutation (stable_keyed ltb reverse l) l.
Proof.
  unfold stable_keyed, insertion_sort. destruct reverse.
  - rewrite <- Permutation_rev, fold_insert_asc_perm. simpl.
    symmetry. apply Permutation_rev.
  - rewrite fold_insert_asc_perm. reflexivity.
Qed.

Lemma fold_insert_asc_ascending l : forall acc,
  keys_good good acc -> keys_good good l -> ascending ltb acc ->
  ascending ltb (fold_left (fun acc x => insert_asc ltb x acc) l acc).
Proof.
  induction l as [|x l IH]; intros acc Ha Hl Hs; simpl; [exact Hs|].
  inversion Hl; subst. apply IH; [|assumption|].
  - unfold keys_good. rewrite insert_asc_perm. constructor; assumption.
  - apply insert_asc_ascending; assumption.
Qed.

Lemma descending_snoc l x :
  descending ltb l -> Forall (fun y => ltb (fst y) (fst x) = false) l ->
  descending ltb (l ++ [x]).
Proof.
  intros Hd Hx. induction Hd as [|y t Hy Hd IH]; simpl.
  - constructor; constructor.
  - inversion Hx; subst. constructor; [|apply IH; assumption].
    apply Forall_app. split; [exact Hy | constructor; [assumption | constructor]].
Qed.

Lemma ascending_rev l : ascending ltb l -> descending ltb (rev l).
Proof.
  induction 1 as [|x l Hx Hs IH]; simpl; [constructor|].
  apply descending_snoc; [exact IH | apply Forall_rev; exact Hx].
Qed.

Lemma stable_keyed_descending l :
  keys_good good l -> descending ltb (stable_keyed ltb true l).
Proof.
  intros Hl. unfold stable_keyed, insertion_sort. apply ascending_rev.
  apply fold_insert_asc_ascending; [constructor | apply Forall_rev; exact Hl | constructor].
Qed.

(** *** CPython's sort: a rearrangement for any keys, the reference sort
    for comparable keys *)

Lemma lookup_map {X Y} (g : X -> Y) (l : list X) (i : nat) :
  map g l !! i = option_map g (l !! i).
Proof.
  revert i. induction l as [|x l IH]; intros [|i]; simpl; try reflexivity. apply IH.
Qed.

Lemma run_ascending_app prev l run rest :
  run_ascending ltb prev l = (run, rest) -> l = run ++ rest.
Proof.
  revert prev run rest. induction l as [|x t IH]; intros prev run rest; simpl.
  - intros [= <- <-]. reflexivity.
  - destruct (ltb (fst x) (fst prev)).
    + intros [= <- <-]. reflexivity.
    + destruct (run_ascending ltb x t) as [run' rest'] eqn:E.
      intros [= <- <-]. simpl. f_equal. apply (IH x). exact E.
Qed.

Lemma run_descending_app prev l run rest :
  run_descending ltb prev l = (run, rest) -> l = run ++ rest.
Proof.
  revert prev run rest. induction l as [|x t IH]; intros prev run rest; simpl.
  - intros [= <- <-]. reflexivity.
  - destruct (ltb (fst x) (fst prev)).
    + destruct (run_descending ltb x t) as [run' rest'] eqn:E.
      intros [= <- <-]. simpl. f_equal. apply (IH x). exact E.
    + intros [= <- <-]. reflexivity.
Qed.

Lemma count_run_perm l run rest :
  count_run ltb l = (run, rest) -> Permutation (run ++ rest) l.
Proof.
  unfold count_run. destruct l as [|x [|y t]].
  - intros [= <- <-]. reflexivity.
  - intros [= <- <-]. reflexivity.
  - destruct (ltb (fst y) (fst x)).
    + destruct (run_descending ltb y t) as [r q] eqn:E. intros [= <- <-].
      apply run_descending_app in E. subst t.
      change (x :: y :: r ++ q) with ((x :: y :: r) ++ q).
      apply Permutation_app_tail. symmetry. apply Permutation_rev.
    + destruct (run_ascending ltb y t) as [r q] eqn:E. intros [= <- <-].
      apply run_ascending_app in E. subst t. reflexivity.
Qed.

Lemma binary_insert_perm x run : Permutation (binary_insert ltb x run) (x :: run).
Proof.
  unfold binary_insert. rewrite <- Permutation_middle, take_drop. reflexivity.
Qed.

Lemma binarysort_perm rest : forall run,
  Permutation (binarysort ltb run rest) (run ++ rest).
Proof.
  unfold binarysort. induction rest as [|x rest IH]; intros run; simpl.
  - rewrite app_nil_r. reflexivity.
  - rewrite IH, binary_insert_perm. apply Permutation_middle.
Qed.

Lemma sort_asc_perm l : Permutation (sort_asc ltb l) l.
Proof.
  unfold sort_asc. destruct (count_run ltb l) as [run rest] eqn:E.
  rewrite binarysort_perm. apply count_run_perm. exact E.
Qed.

(** The sorted list has the entries of the input, each as often, whatever
    the keys are. *)
Lemma sort_keyed_perm reverse l : Permutation (sort_keyed ltb reverse l) l.
Proof.
  unfold sort_keyed. destruct reverse.
  - rewrite <- Permutation_rev, sort_asc_perm. symmetry. apply Permutation_rev.
  - apply sort_asc_perm.
Qed.

(** What holds of every input entry holds of every output entry. *)
Lemma Forall_sort_keyed (P : K * A -> Prop) reverse l :
  Forall P l -> Forall P (sort_keyed ltb reverse l).
Proof.
  intros Hl. apply List.Forall_forall. intros x Hx.
  apply (proj1 (List.Forall_forall _ _) Hl).
  apply (Permutation_in _ (sort_keyed_perm reverse l) Hx).
Qed.

(** In an ascending list the entries greater than a key come after the
    others. *)
Lemma ascending_split pivot l :
  good pivot -> keys_good good l -> ascending ltb l ->
  exists fs ts, l = fs ++ ts
    /\ Forall (fun y => ltb pivot (fst y) = false) fs
    /\ Forall (fun y => ltb pivot (fst y) = true) ts.
Proof.
  intros Hp Hg Hs. induction Hs as [|y t Hy Hs IH].
  - exists [], []. repeat split; constructor.
  - inversion Hg as [|? ? Hgy Hgt]; subst.
    destruct (ltb pivot (fst y)) eqn:E.
    + exists [], (y :: t). split; [reflexivity|]. split; [constructor|].
      constructor; [exact E|].
      rewrite List.Forall_forall in *. intros z Hz.
      destruct (ltb pivot (fst z)) eqn:Ez; [reflexivity|].
      rewrite <- E. symmetry. apply (ltb_ntrans pivot (fst z) (fst y)); auto.
    + destruct (IH Hgt) as [fs [ts [-> [Hf Ht]]]].
      exists (y :: fs), ts. split; [reflexivity|].
      split; [constructor; assumption | exact Ht].
Qed.

Lemma insert_asc_split x fs ts :
  Forall (fun y => ltb (fst x) (fst y) = false) fs ->
  Forall (fun y => ltb (fst x) (fst y) = true) ts ->
  insert_asc ltb x (fs ++ ts) = fs ++ x :: ts.
Proof.
  intros Hf Ht. induction Hf as [|y fs Hy Hf IH]; simpl.
  - destruct Ht as [|z ts Hz Ht]; simpl; [reflexivity|]. rewrite Hz. reflexivity.
  - rewrite Hy, IH. reflexivity.
Qed.

(** The binary search finds the first entry greater than the pivot. *)
Lemma bisect_split pivot fs ts :
  Forall (fun y => ltb pivot (fst y) = false) fs ->
  Forall (fun y => ltb pivot (fst y) = true) ts ->
  forall steps lo hi,
    (lo <= length fs <= hi)%nat -> (hi <= length (fs ++ ts))%nat ->
    (hi - lo <= steps)%nat ->
    bisect ltb steps pivot (fs ++ ts) lo hi = length fs.
Proof.
  intros Hf Ht. induction steps as [|n IH]; intros lo hi Hl Hr Hs; cbn [bisect].
  - lia.
  - destruct (Nat.ltb_spec lo hi) as [Hlt|Hge]; [|lia].
    assert (Hp : (lo <= lo + (hi - lo) / 2 < hi)%nat).
    { pose proof (Nat.div_lt (hi - lo) 2). lia. }
    set (p := (lo + (hi - lo) / 2)%nat) in *.
    rewrite length_app in Hr.
    destruct (le_lt_dec (length fs) p) as [Hge|Hlt'].
    + rewrite lookup_app_r by exact Hge.
      destruct (ts !! (p - length fs)%nat) as [y|] eqn:Ey.
      * rewrite (Forall_lookup_1 _ _ _ _ Ht Ey). apply IH; rewrite ?length_app; lia.
      * apply lookup_ge_None in Ey. lia.
    + rewrite lookup_app_l by exact Hlt'.
      destruct (fs !! p) as [y|] eqn:Ey.
      * rewrite (Forall_lookup_1 _ _ _ _ Hf Ey). apply IH; rewrite ?length_app; lia.
      * apply lookup_ge_None in Ey. lia.
Qed.

(** On a sorted list with comparable keys the binary search and the linear
    search find the same place. *)
Lemma binary_insert_insert_asc x run :
  good (fst x) -> keys_good good run -> ascending ltb run ->
  binary_insert ltb x run = insert_asc ltb x run.
Proof.
  intros Hx Hg Hs.
  destruct (ascending_split (fst x) run Hx Hg Hs) as [fs [ts [-> [Hf Ht]]]].
  unfold binary_insert.
  rewrite (bisect_split (fst x) fs ts Hf Ht) by (rewrite ?length_app; lia).
  rewrite take_app_length, drop_app_length. symmetry. apply insert_asc_split; assumption.
Qed.

Lemma binarysort_insertion rest : forall run,
  keys_good good run -> keys_good good rest -> ascending ltb run ->
  binarysort ltb run rest = fold_left (fun acc x => insert_asc ltb x acc) rest run.
Proof.
  unfold binarysort. induction rest as [|x rest IH]; intros run Hr Hg Hs; simpl.
  - reflexivity.
  - inversion Hg as [|? ? Hx Hg']; subst.
    rewrite binary_insert_insert_asc by assumption.
    apply IH; [apply Forall_insert_asc; assumption | exact Hg' |].
    apply insert_asc_ascending; assumption.
Qed.

Lemma ascending_app_inv l1 l2 :
  ascending ltb (l1 ++ l2) ->
  forall y z, In y l1 -> In z l2 -> ltb (fst z) (fst y) = false.
Proof.
  induction l1 as [|x l1 IH]; simpl; intros H y z Hy Hz; [contradiction|].
  inversion H as [|? ? Hx Hs]; subst. destruct Hy as [<- | Hy].
  - apply (proj1 (List.Forall_forall _ _) Hx). apply in_or_app. right. exact Hz.
  - apply (IH Hs y z Hy Hz).
Qed.

(** Insertion leaves an ascending list as it is. *)
Lemma insertion_ascending_id l : forall acc,
  ascending ltb (acc ++ l) ->
  fold_left (fun acc x => insert_asc ltb x acc) l acc = acc ++ l.
Proof.
  induction l as [|x l IH]; intros acc Hs; simpl.
  - rewrite app_nil_r. reflexivity.
  - assert (E : insert_asc ltb x acc = acc ++ [x]).
    { rewrite <- (app_nil_r acc) at 1. apply insert_asc_split; [|constructor].
      apply List.Forall_forall. intros y Hy.
      apply (ascending_app_inv acc (x :: l) Hs y x Hy). left. reflexivity. }
    rewrite E, IH; rewrite <- app_assoc; [reflexivity | exact Hs].
Qed.

(** Insertion reverses a strictly descending run. *)
Lemma run_descending_insertion l : forall prev run rest acc,
  run_descending ltb prev l = (run, rest) ->
  fold_left (fun acc x => insert_asc ltb x acc) run (prev :: acc) = rev run ++ prev :: acc.
Proof.
  induction l as [|x t IH]; intros prev run rest acc; simpl.
  - intros [= <- <-]. reflexivity.
  - destruct (ltb (fst x) (fst prev)) eqn:E.
    + destruct (run_descending ltb x t) as [r q] eqn:Er. intros [= <- <-].
      simpl. rewrite E. rewrite (IH x r q (prev :: acc) Er).
      rewrite <- app_assoc. reflexivity.
    + intros [= <- <-]. reflexivity.
Qed.

Lemma run_ascending_ascending l : forall prev run rest,
  good (fst prev) -> keys_good good l ->
  run_ascending ltb prev l = (run, rest) -> ascending ltb (prev :: run).
Proof.
  induction l as [|x t IH]; intros prev run rest Hp Hg; simpl.
  - intros [= <- <-]. constructor; constructor.
  - inversion Hg as [|? ? Hx Hgt]; subst.
    destruct (ltb (fst x) (fst prev)) eqn:E.
    + intros [= <- <-]. constructor; constructor.
    + destruct (run_ascending ltb x t) as [r q] eqn:Er. intros [= <- <-].
      pose proof (IH x r q Hx Hgt Er) as Hs.
      pose proof (run_ascending_app _ _ _ _ Er) as Et.
      constructor; [|exact Hs].
      inversion Hs as [|? ? Hr _]; subst.
      constructor; [exact E|].
      apply List.Forall_forall. intros z Hz.
      apply (ltb_ntrans (fst z) (fst x) (fst prev)); auto.
      * apply (proj1 (List.Forall_forall _ _) Hgt). apply in_or_app. left. exact Hz.
      * apply (proj1 (List.Forall_forall _ _) Hr z Hz).
Qed.

(** With comparable keys CPython's sort is the reference sort. *)
Lemma sort_asc_insertion l :
  keys_good good l -> sort_asc ltb l = insertion_sort ltb l.
Proof.
  unfold sort_asc, insertion_sort, count_run.
  destruct l as [|x [|y t]]; [reflexivity | reflexivity |].
  intros Hg. inversion Hg as [|? ? Hx Hg']; subst.
  inversion Hg' as [|? ? Hy Hgt]; subst.
  destruct (ltb (fst y) (fst x)) eqn:E.
  - destruct (run_descending ltb y t) as [r q] eqn:Er.
    pose proof (run_descending_app _ _ _ _ Er) as Et. subst t.
    apply Forall_app in Hgt as [Hgr Hgq].
    cbn [fold_left insert_asc]. rewrite E, fold_left_app.
    rewrite (run_descending_insertion _ _ _ _ [x] Er).
    assert (Erev : rev (x :: y :: r) = rev r ++ [y; x]).
    { simpl. rewrite <- app_assoc. reflexivity. }
    rewrite Erev. apply binarysort_insertion; [| exact Hgq |].
    + apply Forall_app. split; [apply Forall_rev; exact Hgr|].
      constructor; [exact Hy | constructor; [exact Hx | constructor]].
    + rewrite <- (run_descending_insertion _ _ _ _ [x] Er).
      apply fold_insert_asc_ascending; [| exact Hgr |].
      * constructor; [exact Hy | constructor; [exact Hx | constructor]].
      * constructor; [|constructor; constructor].
        constructor; [|constructor]. apply ltb_asym; assumption.
  - destruct (run_ascending ltb y t) as [r q] eqn:Er.
    pose proof (run_ascending_app _ _ _ _ Er) as Et. subst t.
    apply Forall_app in Hgt as [Hgr Hgq].
    assert (Hs : ascending ltb (x :: y :: r)).
    { pose proof (run_ascending_ascending _ _ _ _ Hy (proj2 (Forall_app _ _ _) (conj Hgr Hgq)) Er)
        as Hyr.
      constructor; [|exact Hyr].
      inversion Hyr as [|? ? Hr _]; subst.
      constructor; [exact E|].
      apply List.Forall_forall. intros z Hz.
      apply (ltb_ntrans (fst z) (fst y) (fst x)); auto.
      - apply (proj1 (List.Forall_forall _ _) Hgr z Hz).
      - apply (proj1 (List.Forall_forall _ _) Hr z Hz). }
    change (x :: y :: r ++ q) with ((x :: y :: r) ++ q).
    rewrite fold_left_app, (insertion_ascending_id (x :: y :: r) [] Hs).
    apply binarysort_insertion; [| exact Hgq | exact Hs].
    constructor; [exact Hx | constructor; [exact Hy | exact Hgr]].
Qed.

Lemma sort_keyed_stable_keyed reverse l :
  keys_good good l -> sort_keyed ltb reverse l = stable_keyed ltb reverse l.
Proof.
  intros Hg. unfold sort_keyed, stable_keyed. destruct reverse.
  - rewrite sort_asc_insertion; [reflexivity | apply Forall_rev; exact Hg].
  - apply sort_asc_insertion. exact Hg.
Qed.

(** Stability: the entries with a given key come out in their input order,
    in both directions of the sort. *)
Lemma sort_keyed_stable (reverse : bool) k l :
  good k -> keys_good good l ->
  List.filter (tied ltb k) (sort_keyed ltb reverse l) = List.filter (tied ltb k) l.
Proof.
  intros Hk Hl. rewrite sort_keyed_stable_keyed by exact Hl.
  apply stable_keyed_stable; assumption.
Qed.

(** With [reverse=True] no entry of the result is less than a later one. *)
Lemma sort_keyed_descending l :
  keys_good good l -> descending ltb (sort_keyed ltb true l).
Proof.
  intros Hl. rewrite sort_keyed_stable_keyed by exact Hl.
  apply stable_keyed_descending. exact Hl.
Qed.

End SortFacts.

Section Descending.
Context {K A : Type} (ltb : K -> K -> bool).
Implicit Types (x y : K * A) (l : list (K * A)).

Lemma descending_app_inv l1 l2 :
  descending ltb (l1 ++ l2) ->
  descending ltb l2
  /\ forall x y, In x l1 -> In y l2 -> ltb (fst x) (fst y) = false.
Proof.
  induction l1 as [|z l1 IH]; simpl; intros H.
  - split; [exact H | intros x y []].
  - inversion H as [|? ? Hz Hd]; subst. destruct (IH Hd) as [H2 Hxy].
    split; [exact H2|]. intros x y [<- | Hx] Hy.
    + apply (proj1 (List.Forall_forall _ _) Hz). apply in_or_app. right. exact Hy.
    + apply Hxy; assumption.
Qed.

(** In a descending list an entry is not less than any later entry. *)
Lemma descending_split l l1 x l2 y l3 :
  descending ltb l -> l = l1 ++ x :: l2 ++ y :: l3 -> ltb (fst x) (fst y) = false.
Proof.
  intros Hd ->. apply descending_app_inv in Hd as [Hd _].
  inversion Hd as [|? ? Hx _]; subst.
  apply (proj1 (List.Forall_forall _ _) Hx). apply in_or_app. right. left. reflexivity.
Qed.

(** The first [n] entries of a descending list dominate the others. *)
Lemma descending_take_drop n l x y :
  descending ltb l -> In x (take n l) -> In y (drop n l) -> ltb (fst x) (fst y) = false.
Proof.
  intros Hd Hx Hy. rewrite <- (take_drop n l) in Hd.
  apply descending_app_inv in Hd as [_ H]. apply H; assumption.
Qed.

End Descending.

(** *** The sort and a translation of the keys

    A translation of the keys that keeps [<] commutes with the sort, so
    the sort can be evaluated on keys for which [<] is computed. *)

Section MapKeys.
Context {K K' A : Type} (ltb : K -> K -> bool) (ltb' : K' -> K' -> bool) (f : K -> K').
Hypothesis ltb_map : forall a b, ltb' (f a) (f b) = ltb a b.

Implicit Types (x y prev : K * A) (l run rest sorted : list (K * A)).

Lemma run_ascending_map l : forall prev,
  run_ascending ltb' (rekey f prev) (map (rekey f) l)
  = (map (rekey f) (fst (run_ascending ltb prev l)),
     map (rekey f) (snd (run_ascending ltb prev l))).
Proof.
  induction l as [|x t IH]; intros prev; simpl; [reflexivity|].
  rewrite ltb_map. destruct (ltb (fst x) (fst prev)); [reflexivity|].
  rewrite (IH x). destruct (run_ascending ltb x t); reflexivity.
Qed.

Lemma run_descending_map l : forall prev,
  run_descending ltb' (rekey f prev) (map (rekey f) l)
  = (map (rekey f) (fst (run_descending ltb prev l)),
     map (rekey f) (snd (run_descending ltb prev l))).
Proof.
  induction l as [|x t IH]; intros prev; simpl; [reflexivity|].
  rewrite ltb_map. destruct (ltb (fst x) (fst prev)); [|reflexivity].
  rewrite (IH x). destruct (run_descending ltb x t); reflexivity.
Qed.

Lemma count_run_map l :
  count_run ltb' (map (rekey f) l)
  = (map (rekey f) (fst (count_run ltb l)), map (rekey f) (snd (count_run ltb l))).
Proof.
  unfold count_run. destruct l as [|x [|y t]]; [reflexivity | reflexivity |].
  cbn [map]. change (fst (rekey f y)) with (f (fst y)).
  change (fst (rekey f x)) with (f (fst x)).
  rewrite ltb_map. destruct (ltb (fst y) (fst x)).
  - rewrite run_descending_map. destruct (run_descending ltb y t) as [r q].
    cbn [fst snd].
    change (rekey f x :: rekey f y :: map (rekey f) r) with (map (rekey f) (x :: y :: r)).
    rewrite map_rev. reflexivity.
  - rewrite run_ascending_map. destruct (run_ascending ltb y t) as [r q]. reflexivity.
Qed.

Lemma bisect_map pivot sorted : forall steps lo hi,
  bisect ltb' steps (f pivot) (map (rekey f) sorted) lo hi
  = bisect ltb steps pivot sorted lo hi.
Proof.
  induction steps as [|n IH]; intros lo hi; cbn [bisect]; [reflexivity|].
  destruct (lo <? hi)%nat; [|reflexivity].
  rewrite lookup_map.
  destruct (sorted !! (lo + (hi - lo) / 2)%nat) as [y|]; [|reflexivity].
  cbn [option_map rekey fst]. rewrite ltb_map, !IH. reflexivity.
Qed.

Lemma binary_insert_map x sorted :
  binary_insert ltb' (rekey f x) (map (rekey f) sorted)
  = map (rekey f) (binary_insert ltb x sorted).
Proof.
  unfold binary_insert. change (fst (rekey f x)) with (f (fst x)).
  rewrite length_map, bisect_map, map_app, firstn_map. cbn [map].
  rewrite skipn_map. reflexivity.
Qed.

Lemma binarysort_map rest : forall run,
  binarysort ltb' (map (rekey f) run) (map (rekey f) rest)
  = map (rekey f) (binarysort ltb run rest).
Proof.
  unfold binarysort. induction rest as [|x rest IH]; intros run; simpl; [reflexivity|].
  rewrite binary_insert_map. apply IH.
Qed.

Lemma sort_asc_map l : sort_asc ltb' (map (rekey f) l) = map (rekey f) (sort_asc ltb l).
Proof.
  unfold sort_asc. rewrite count_run_map.
  destruct (count_run ltb l) as [run rest]. apply binarysort_map.
Qed.

Lemma sort_keyed_map_keys reverse l :
  sort_keyed ltb' reverse (map_keys f l) = map_keys f (sort_keyed ltb reverse l).
Proof.
  unfold sort_keyed, map_keys. destruct reverse.
  - rewrite <- map_rev, sort_asc_map, map_rev. reflexivity.
  - apply sort_asc_map.
Qed.

End MapKeys.

(** ** The keys of the two rankings *)

Section StableRanking.
Import Np.

(** *** Rational keys (rag_pipeline.py) *)

Lemma Qltb_true a b : Qltb a b = true <-> (a < b)%Q.
Proof.
  unfold Qltb. destruct (Qlt_le_dec a b) as [H|H]; split; intros; try congruence.
  exfalso. apply (Qlt_not_le a b); assumption.
Qed.

Lemma Qltb_false a b : Qltb a b = false <-> (b <= a)%Q.
Proof.
  unfold Qltb. destruct (Qlt_le_dec a b) as [H|H]; split; intros; try congruence.
  exfalso. apply (Qlt_not_le a b); assumption.
Qed.

Lemma tied_Qeq {A} (k : Q) (x : Q * A) : tied Qltb k x = Qeq_bool (fst x) k.
Proof.
  unfold tied. destruct (Qeq_bool (fst x) k) eqn:E.
  - apply Qeq_bool_iff in E.
    assert (H1 : Qltb (fst x) k = false) by (apply Qltb_false; rewrite E; apply Qle_refl).
    assert (H2 : Qltb k (fst x) = false) by (apply Qltb_false; rewrite E; apply Qle_refl).
    rewrite H1, H2. reflexivity.
  - destruct (Qltb (fst x) k) eqn:H1; [reflexivity|].
    destruct (Qltb k (fst x)) eqn:H2; [reflexivity|].
    apply Qltb_false in H1, H2.
    assert (Heq : (fst x == k)%Q) by (apply Qle_antisym; assumption).
    apply Qeq_bool_iff in Heq. congruence.
Qed.

Lemma filter_ext_Forall {X} (f g : X -> bool) l :
  Forall (fun x => f x = g x) l -> List.filter f l = List.filter g l.
Proof.
  induction 1 as [|x l Hx _ IH]; simpl; [reflexivity|].
  rewrite Hx, IH. reflexivity.
Qed.

Lemma sort_scored_stable (sc : list (Q * (Document * RagPipeline.Debug))) (s : Q) :
  List.filter (fun x => Qeq_bool (fst x) s) (RagPipeline.sort_scored sc)
  = List.filter (fun x => Qeq_bool (fst x) s) sc.
Proof.
  unfold RagPipeline.sort_scored.
  rewrite <- (List.filter_ext _ _ (tied_Qeq s)).
  rewrite <- (List.filter_ext _ _ (tied_Qeq s) sc).
  apply sort_keyed_stable with (good := fun _ => True).
  - intros a _. apply Qltb_false. apply Qle_refl.
  - intros a b c _ _ _ H1 H2. apply Qltb_true in H1, H2. apply Qltb_true.
    apply (Qlt_trans a b c); assumption.
  - intros a b c _ _ _ H1 H2. apply Qltb_false in H1, H2. apply Qltb_false.
    apply (Qle_trans c b a); assumption.
  - exact I.
  - apply List.Forall_forall. intros; exact I.
Qed.

(** *** Float keys (optim.py) *)

Ltac fl_cases :=
  repeat match goal with
  | |- context [Rlt_dec ?a ?b] => destruct (Rlt_dec a b)
  | H : context [Rlt_dec ?a ?b] |- _ => destruct (Rlt_dec a b)
  | |- context [Req_dec_T ?a ?b] => destruct (Req_dec_T a b)
  | H : context [Req_dec_T ?a ?b] |- _ => destruct (Req_dec_T a b)
  end;
  try congruence; try lra.

Lemma fl_ltb_irrefl a : not_nan a -> fl_ltb a a = false.
Proof. unfold not_nan. destruct a; simpl; intros; fl_cases. Qed.

Lemma fl_ltb_trans a b c : not_nan a -> not_nan b -> not_nan c ->
  fl_ltb a b = true -> fl_ltb b c = true -> fl_ltb a c = true.
Proof. unfold not_nan. destruct a, b, c; simpl; intros; fl_cases. Qed.

Lemma fl_ltb_ntrans a b c : not_nan a -> not_nan b -> not_nan c ->
  fl_ltb a b = false -> fl_ltb b c = false -> fl_ltb a c = false.
Proof. unfold not_nan. destruct a, b, c; simpl; intros; fl_cases. Qed.

Lemma tied_fl_eqb {A} (k : fl) (x : fl * A) :
  not_nan k -> not_nan (fst x) -> tied fl_ltb k x = fl_eqb (fst x) k.
Proof.
  unfold tied, not_nan. destruct x as [a d]. simpl.
  destruct a, k; simpl; intros; fl_cases; simpl; fl_cases.
Qed.

(** The monadic comprehension over [score] leaves the object alone and
    collects the values of [score_value]. *)
Lemma mapM_score_run docs user_ings style_hint (self : Optim.AutoRanker) :
  Optim.mapM (fun d => Optim.score d user_ings style_hint) docs self
  = (self, omap (fun d => score_value (Optim.params self) d user_ings style_hint) docs).
Proof.
  induction docs as [|d docs IH]; simpl; [reflexivity|].
  unfold Optim.bind at 1. rewrite score_run.
  destruct (score_value _ d _ _) as [k|e]; [|reflexivity]. cbn [obind].
  unfold Optim.bind at 1. rewrite IH.
  destruct (omap _ docs) as [ks|e]; reflexivity.
Qed.

Lemma ranked_run docs user_ings style_hint (self : Optim.AutoRanker) :
  Optim.ranked docs user_ings style_hint self
  = (self, ranked_value (Optim.params self) docs user_ings style_hint).
Proof.
  unfold Optim.ranked, ranked_value, Optim.bind. rewrite mapM_score_run.
  destruct (omap _ docs); reflexivity.
Qed.

Lemma omap_Ok_combine {X Y} (f : X -> outcome Y) l : forall ys,
  omap f l = Ok ys ->
  Forall (fun yx => f (snd yx) = Ok (fst yx)) (combine ys l)
  /\ map snd (combine ys l) = l.
Proof.
  induction l as [|x l IH]; simpl; intros ys H.
  - injection H as <-. split; [constructor | reflexivity].
  - destruct (f x) as [y|e] eqn:Ex; [|discriminate]. cbn [obind] in H.
    destruct (omap f l) as [ys'|e] eqn:El; [|discriminate]. cbn [obind] in H.
    injection H as <-. destruct (IH ys' eq_refl) as [H1 H2]. simpl. split.
    + constructor; [exact Ex | exact H1].
    + rewrite H2. reflexivity.
Qed.

Lemma filter_map_snd {X Y} (f : Y -> bool) (l : list (X * Y)) :
  List.filter f (map snd l) = map snd (List.filter (fun x => f (snd x)) l).
Proof.
  induction l as [|x l IH]; simpl; [reflexivity|].
  destruct (f (snd x)); simpl; rewrite IH; reflexivity.
Qed.

Lemma omap_all_Ok {X Y} (f : X -> outcome Y) l :
  Forall (fun x => exists y, f x = Ok y) l -> exists ys, omap f l = Ok ys.
Proof.
  induction 1 as [|x l [y Hy] _ [ys IH]]; simpl; [eauto|].
  rewrite Hy, IH. simpl. eauto.
Qed.

(** The keyed list behind [ranked]: every pair carries the score of its
    document. *)
Lemma ranked_value_keys p docs user_ings style_hint r :
  ranked_value p docs user_ings style_hint = Ok r ->
  exists kd : list (fl * Document),
    r = map snd (sort_keyed fl_ltb true kd)
    /\ map snd kd = docs
    /\ Forall (fun x => score_value p (snd x) user_ings style_hint = Ok (fst x)) kd.
Proof.
  unfold ranked_value. intros Hr.
  destruct (omap _ docs) as [keys|e] eqn:Ek; [|discriminate].
  cbn [obind] in Hr. injection Hr as <-.
  destruct (omap_Ok_combine _ _ _ Ek) as [Hpairs Hsnd].
  exists (combine keys docs). auto.
Qed.

Lemma ranked_value_stable p docs user_ings style_hint r s :
  ranked_value p docs user_ings style_hint = Ok r ->
  Forall (score_not_nan p user_ings style_hint) docs ->
  not_nan s ->
  List.filter (scores_as p user_ings style_hint s) r
  = List.filter (scores_as p user_ings style_hint s) docs.
Proof.
  unfold ranked_value. intros Hr Hn Hs.
  destruct (omap _ docs) as [keys|e] eqn:Ek; [|discriminate].
  cbn [obind] in Hr. injection Hr as <-.
  destruct (omap_Ok_combine _ _ _ Ek) as [Hpairs Hsnd].
  set (kd := combine keys docs) in *.
  (* every pair carries the score of its document, and no key is NaN *)
  assert (Hgood : Forall (fun x : fl * Document =>
            score_value p (snd x) user_ings style_hint = Ok (fst x) /\ not_nan (fst x)) kd).
  { rewrite List.Forall_forall in *. intros x Hx. split; [apply Hpairs; exact Hx|].
    intros E. apply (Hn (snd x)).
    - rewrite <- Hsnd. apply in_map. exact Hx.
    - rewrite (Hpairs x Hx), E. reflexivity. }
  assert (Hext : forall l : list (fl * Document),
            Forall (fun x => score_value p (snd x) user_ings style_hint = Ok (fst x)
                             /\ not_nan (fst x)) l ->
            List.filter (fun x => scores_as p user_ings style_hint s (snd x)) l
            = List.filter (tied fl_ltb s) l).
  { intros l Hl. apply filter_ext_Forall.
    apply List.Forall_impl with (2 := Hl). intros x [Hx Hnx].
    unfold scores_as. rewrite Hx. symmetry. apply tied_fl_eqb; assumption. }
  rewrite <- Hsnd at 1. rewrite !filter_map_snd. f_equal.
  change (rev (sort_asc fl_ltb (rev kd))) with (sort_keyed fl_ltb true kd).
  rewrite Hext by (apply Forall_sort_keyed; exact Hgood).
  rewrite (Hext kd Hgood).
  apply sort_keyed_stable with (good := not_nan).
  - apply fl_ltb_irrefl.
  - apply fl_ltb_trans.
  - apply fl_ltb_ntrans.
  - exact Hs.
  - apply List.Forall_impl with (2 := Hgood). intros x [_ H]. exact H.
Qed.

End StableRanking.

(** ** Float facts *)

Section FloatFacts.
Import Np.
Local Open Scope R_scope.

Lemma overflow_threshold_gt : 1000000000000000000000000000000 < overflow_threshold.
Proof. unfold overflow_threshold. apply IZR_lt. vm_compute. reflexivity. Qed.

(** A result of moderate size is as computed. *)
Lemma overflow_fin x :
  - 1000000000000000000000000000000 <= x <= 1000000000000000000000000000000 ->
  overflow (Fin x) = Fin x.
Proof.
  intros Hx. pose proof overflow_threshold_gt as Ht. unfold overflow.
  destruct (Rle_dec overflow_threshold x); [lra|].
  destruct (Rle_dec x (- overflow_threshold)); [lra|]. reflexivity.
Qed.

(** A result of the threshold or more is an infinity. *)
Lemma overflow_big x : overflow_threshold <= x -> overflow (Fin x) = PInf.
Proof. intros H. unfold overflow. destruct (Rle_dec overflow_threshold x); tauto. Qed.

Lemma ln_1p_bounds x : 0 <= x -> 0 <= ln (1 + x) <= x.
Proof.
  intros Hx. split.
  - destruct (Req_dec x 0) as [-> | Hne].
    + rewrite Rplus_0_r, ln_1. lra.
    + rewrite <- ln_1. left. apply ln_increasing; lra.
  - pose proof (exp_ineq1_le x) as He.
    destruct (Req_dec (1 + x) (exp x)) as [E | Hne].
    + rewrite E, ln_exp. lra.
    + rewrite <- (ln_exp x) at 2. left. apply ln_increasing; lra.
Qed.

(** The weighted sum of moderate terms is the exact one. *)
Lemma weighted_exact p hits level x style pen :
  let B := 100000000000000000000000000000 in
  - B <= Optim.w_ing p * IZR hits <= B ->
  - B <= Optim.w_level p * level <= B ->
  - B <= Optim.w_pop p * x <= B ->
  - B <= Optim.w_style p * IZR style <= B ->
  - B <= Optim.p_time p * IZR pen <= B ->
  Optim.weighted p hits level (Fin x) style pen
  = Fin (Optim.w_ing p * IZR hits + Optim.w_level p * level + Optim.w_pop p * x
         + Optim.w_style p * IZR style - Optim.p_time p * IZR pen).
Proof.
  intros B H1 H2 H3 H4 H5. subst B.
  unfold Optim.weighted, sub, add, mul, fl_sub.
  cbn [fl_mul]. rewrite !overflow_fin by lra.
  cbn [fl_add]. rewrite !overflow_fin by lra.
  cbn [fl_add]. rewrite !overflow_fin by lra.
  cbn [fl_add]. rewrite !overflow_fin by lra.
  cbn [fl_opp fl_add]. rewrite overflow_fin by lra.
  f_equal.
Qed.

Lemma fl_add_nan_r a : fl_add a NaN = NaN.
Proof. destruct a; reflexivity. Qed.

Lemma fl_mul_nan_r a : fl_mul a NaN = NaN.
Proof. destruct a; reflexivity. Qed.

(** A popularity term that is NaN makes the score NaN, whatever the
    weights. *)
Lemma weighted_nan p hits level style pen :
  Optim.weighted p hits level NaN style pen = NaN.
Proof.
  unfold Optim.weighted, sub, add, mul, fl_sub.
  rewrite fl_mul_nan_r. cbn [overflow]. rewrite fl_add_nan_r. reflexivity.
Qed.

Lemma fl_ltb_code a b : fl_ltb (fl_of_code a) (fl_of_code b) = code_ltb a b.
Proof.
  destruct a as [x|], b as [y|]; simpl; try reflexivity.
  destruct (Rlt_dec (IZR x) (IZR y)) as [H|H]; destruct (Z.ltb_spec x y) as [H'|H'];
    try reflexivity.
  - apply lt_IZR in H. lia.
  - apply IZR_lt in H'. contradiction.
Qed.

Lemma fl_ltb_asym a b : fl_ltb a b = true -> fl_ltb b a = false.
Proof.
  destruct a, b; simpl; try congruence.
  destruct (Rlt_dec x x0), (Rlt_dec x0 x); try congruence. lra.
Qed.

(** *** Order kept by the operations

    [b] is not below [a]: this holds as soon as one of them is NaN. *)

Lemma overflow_mono a b :
  fl_ltb b a = false -> fl_ltb (overflow b) (overflow a) = false.
Proof.
  pose proof overflow_threshold_gt as Ht.
  destruct a as [x| | |], b as [y| | |]; simpl; try congruence;
    repeat match goal with
    | |- context [Rle_dec ?u ?v] => destruct (Rle_dec u v)
    | |- context [Rlt_dec ?u ?v] => destruct (Rlt_dec u v)
    end; simpl; try congruence; try lra;
    repeat match goal with
    | |- context [Rlt_dec ?u ?v] => destruct (Rlt_dec u v)
    end; try congruence; try lra.
Qed.

Lemma fl_add_mono_l c a b :
  fl_ltb b a = false -> fl_ltb (fl_add b c) (fl_add a c) = false.
Proof.
  destruct a as [x| | |], b as [y| | |], c as [z| | |]; simpl; try congruence;
    repeat match goal with
    | |- context [Rlt_dec ?u ?v] => destruct (Rlt_dec u v)
    end; try congruence; try lra.
Qed.

Lemma fl_add_mono_r c a b :
  fl_ltb b a = false -> fl_ltb (fl_add c b) (fl_add c a) = false.
Proof.
  destruct a as [x| | |], b as [y| | |], c as [z| | |]; simpl; try congruence;
    repeat match goal with
    | |- context [Rlt_dec ?u ?v] => destruct (Rlt_dec u v)
    end; try congruence; try lra.
Qed.

Lemma fl_mul_mono w a b :
  0 <= w -> fl_ltb b a = false -> fl_ltb (fl_mul (Fin w) b) (fl_mul (Fin w) a) = false.
Proof.
  intros Hw.
  destruct a as [x| | |], b as [y| | |]; simpl; unfold fl_scale_inf; try congruence;
    repeat match goal with
    | |- context [Rlt_dec ?u ?v] => destruct (Rlt_dec u v)
    end; simpl; try congruence; try lra.
  intros _. exfalso.
  assert (w * x <= w * y) by (apply Rmult_le_compat_l; lra). lra.
Qed.

Lemma add_mono_l c a b : fl_ltb b a = false -> fl_ltb (add b c) (add a c) = false.
Proof. intros H. apply overflow_mono, fl_add_mono_l, H. Qed.

Lemma add_mono_r c a b : fl_ltb b a = false -> fl_ltb (add c b) (add c a) = false.
Proof. intros H. apply overflow_mono, fl_add_mono_r, H. Qed.

Lemma sub_mono_l c a b : fl_ltb b a = false -> fl_ltb (sub b c) (sub a c) = false.
Proof. intros H. apply overflow_mono, fl_add_mono_l, H. Qed.

Lemma mul_mono w a b :
  0 <= w -> fl_ltb b a = false -> fl_ltb (mul (Fin w) b) (mul (Fin w) a) = false.
Proof. intros Hw H. apply overflow_mono, fl_mul_mono; assumption. Qed.

(** The score does not go down with the popularity term when its weight is
    not negative, nor with the style flag when its weight is not negative. *)
Lemma weighted_mono_pop p hits level pop1 pop2 style pen :
  0 <= Optim.w_pop p -> fl_ltb pop2 pop1 = false ->
  fl_ltb (Optim.weighted p hits level pop2 style pen)
         (Optim.weighted p hits level pop1 style pen) = false.
Proof.
  intros Hw H. unfold Optim.weighted.
  apply sub_mono_l, add_mono_l, add_mono_r, mul_mono; assumption.
Qed.

Lemma weighted_mono_style p hits level pop style1 style2 pen :
  0 <= Optim.w_style p -> (style1 <= style2)%Z ->
  fl_ltb (Optim.weighted p hits level pop style2 pen)
         (Optim.weighted p hits level pop style1 pen) = false.
Proof.
  intros Hw H. unfold Optim.weighted.
  apply sub_mono_l, add_mono_r, mul_mono; [exact Hw|].
  simpl. apply IZR_le in H. destruct (Rlt_dec (IZR style2) (IZR style1)); [lra | reflexivity].
Qed.

(** *** Scores bounded from one side *)

Lemma at_least_mul w x :
  - overflow_threshold < w * x -> at_least (w * x) (mul (Fin w) (Fin x)).
Proof.
  intros H. unfold mul, overflow. cbn [fl_mul].
  destruct (Rle_dec overflow_threshold (w * x)); [exact I|].
  destruct (Rle_dec (w * x) (- overflow_threshold)); [lra|]. simpl. lra.
Qed.

Lemma at_most_mul w x :
  w * x < overflow_threshold -> at_most (w * x) (mul (Fin w) (Fin x)).
Proof.
  intros H. unfold mul, overflow. cbn [fl_mul].
  destruct (Rle_dec overflow_threshold (w * x)); [lra|].
  destruct (Rle_dec (w * x) (- overflow_threshold)); [exact I|]. simpl. lra.
Qed.

Lemma at_least_add c1 c2 a b :
  at_least c1 a -> at_least c2 b -> - overflow_threshold < c1 + c2 ->
  at_least (c1 + c2) (add a b).
Proof.
  destruct a as [x| | |], b as [y| | |]; simpl; try contradiction; try (intros; exact I).
  intros Ha Hb H. unfold add, overflow. cbn [fl_add].
  destruct (Rle_dec overflow_threshold (x + y)); [exact I|].
  destruct (Rle_dec (x + y) (- overflow_threshold)); [lra|]. simpl. lra.
Qed.

Lemma at_most_add c1 c2 a b :
  at_most c1 a -> at_most c2 b -> c1 + c2 < overflow_threshold ->
  at_most (c1 + c2) (add a b).
Proof.
  destruct a as [x| | |], b as [y| | |]; simpl; try contradiction; try (intros; exact I).
  intros Ha Hb H. unfold add, overflow. cbn [fl_add].
  destruct (Rle_dec overflow_threshold (x + y)); [lra|].
  destruct (Rle_dec (x + y) (- overflow_threshold)); [exact I|]. simpl. lra.
Qed.

Lemma at_least_sub c z a b :
  at_least c a -> at_most z b -> - overflow_threshold < c - z ->
  at_least (c - z) (sub a b).
Proof.
  destruct a as [x| | |], b as [y| | |]; simpl; try contradiction; try (intros; exact I).
  intros Ha Hb H. unfold sub, fl_sub, overflow. cbn [fl_opp fl_add].
  destruct (Rle_dec overflow_threshold (x + - y)); [exact I|].
  destruct (Rle_dec (x + - y) (- overflow_threshold)); [lra|]. simpl. lra.
Qed.

Lemma at_most_sub c z a b :
  at_most c a -> at_least z b -> c - z < overflow_threshold ->
  at_most (c - z) (sub a b).
Proof.
  destruct a as [x| | |], b as [y| | |]; simpl; try contradiction; try (intros; exact I).
  intros Ha Hb H. unfold sub, fl_sub, overflow. cbn [fl_opp fl_add].
  destruct (Rle_dec overflow_threshold (x + - y)); [lra|].
  destruct (Rle_dec (x + - y) (- overflow_threshold)); [exact I|]. simpl. lra.
Qed.

Lemma at_most_lt_at_least y x kb ka :
  at_most y kb -> at_least x ka -> y < x -> fl_ltb kb ka = true.
Proof.
  destruct ka as [a| | |], kb as [b| | |]; simpl; try contradiction; try reflexivity.
  intros Hb Ha H. destruct (Rlt_dec b a); [reflexivity | lra].
Qed.

End FloatFacts.

Lemma scored_keeps_documents docs user_ings style_hint : forall sc,
  RagPipeline.scored docs user_ings style_hint = Ok sc ->
  map (fun x => fst (snd x)) sc = docs.
Proof.
  unfold RagPipeline.scored.
  induction docs as [|d docs IH]; simpl; intros sc H.
  - injection H as <-. reflexivity.
  - destruct (RagPipeline.score_doc d user_ings style_hint) as [r|e]; [|discriminate].
    cbn [obind] in H.
    destruct (omap _ docs) as [sc'|e]; [|discriminate].
    cbn [obind] in H. injection H as <-. simpl. rewrite (IH sc' eq_refl). reflexivity.
Qed.

(** Evaluation of a closed subterm by the virtual machine. *)
Ltac eval_closed t := let v := eval vm_compute in t in change t with v.

(** Evaluation of the pieces of [score_value] that do not depend on the
    weights. *)
Ltac eval_score_pieces :=
  unfold score_value;
  repeat match goal with |- context [py_int ?v] => progress eval_closed (py_int v) end;
  cbn [obind];
  rewrite ?log1p_count by (split; [lia | vm_compute; reflexivity]);
  cbn [obind];
  unfold Optim._level_score;
  repeat match goal with |- context [val_in ?a ?b] => progress eval_closed (val_in a b) end;
  repeat match goal with |- context [val_is_str ?a ?b] =>
    progress eval_closed (val_is_str a b) end;
  repeat match goal with |- context [Optim._parse_time ?a] =>
    progress eval_closed (Optim._parse_time a) end.

Lemma optim_ing_hit_tofu (content : pystr) :
  Optim.ing_hit [U "tofu"] content = if contains (U "tofu") content then 1%Z else 0%Z.
Proof.
  unfold Optim.ing_hit. cbn [List.filter]. eval_closed (strip (U "tofu")).
  destruct (contains _ content); reflexivity.
Qed.

Lemma score_value_A p content :
  contains (U "tofu") content = true ->
  score_value p (doc_A content) [U "tofu"] []
  = Ok (Optim.weighted p 1 1 (Np.Fin (ln (1 + 10000))) 0 0).
Proof.
  intros H. eval_score_pieces.
  cbn [page_content doc_A]. rewrite optim_ing_hit_tofu, H. reflexivity.
Qed.

Lemma score_value_B p content :
  contains (U "tofu") content = false ->
  score_value p (doc_B content) [U "tofu"] []
  = Ok (Optim.weighted p 0 0 (Np.Fin (ln (1 + 500))) 0 2).
Proof.
  intros H. eval_score_pieces.
  cbn [page_content doc_B]. rewrite optim_ing_hit_tofu, H. reflexivity.
Qed.

Lemma ln_views_order : (ln (1 + 500) < ln (1 + 10000))%R.
Proof. apply ln_increasing; lra. Qed.

(** The scores of A and B under the initial weights. *)
Lemma weighted_init_A :
  Optim.weighted (Optim.params Optim.__init__) 1 1 (Np.Fin (ln (1 + 10000))) 0 0
  = Np.Fin (2 * 1 + 1 * 1 + 1 / 2 * ln (1 + 10000) + 1 * 0 - 1 * 0)%R.
Proof.
  pose proof (ln_1p_bounds 10000 ltac:(lra)) as Hln.
  apply weighted_exact; cbn [Optim.params Optim.__init__ Optim.w_ing Optim.w_level
    Optim.w_pop Optim.w_style Optim.p_time]; lra.
Qed.

Lemma weighted_init_B :
  Optim.weighted (Optim.params Optim.__init__) 0 0 (Np.Fin (ln (1 + 500))) 0 2
  = Np.Fin (2 * 0 + 1 * 0 + 1 / 2 * ln (1 + 500) + 1 * 0 - 1 * 2)%R.
Proof.
  pose proof (ln_1p_bounds 500 ltac:(lra)) as Hln.
  apply weighted_exact; cbn [Optim.params Optim.__init__ Optim.w_ing Optim.w_level
    Optim.w_pop Optim.w_style Optim.p_time]; lra.
Qed.

(** ** Ranking is a stable descending sort when no score is NaN *)

Section RankingFacts.
Import Np.

Lemma Qltb_descending {X} (l : list (Q * X)) : descending Qltb (sort_keyed Qltb true l).
Proof.
  apply sort_keyed_descending with (good := fun _ => True).
  - intros a _. apply Qltb_false. apply Qle_refl.
  - intros a b c _ _ _ H1 H2. apply Qltb_true in H1, H2. apply Qltb_true.
    apply (Qlt_trans a b c); assumption.
  - intros a b c _ _ _ H1 H2. apply Qltb_false in H1, H2. apply Qltb_false.
    apply (Qle_trans c b a); assumption.
  - apply List.Forall_forall. intros; exact I.
Qed.

(** The sorted list of [suggest_menus]: the entries of [scored], in
    non-increasing order of score. *)
Lemma sort_scored_sorted (sc : list (Q * (Document * RagPipeline.Debug))) :
  Permutation (RagPipeline.sort_scored sc) sc
  /\ forall l1 x l2 y l3,
       RagPipeline.sort_scored sc = l1 ++ x :: l2 ++ y :: l3 -> (fst y <= fst x)%Q.
Proof.
  split.
  - apply sort_keyed_perm.
  - intros l1 x l2 y l3 E. apply Qltb_false.
    apply (descending_split Qltb _ l1 x l2 y l3 (Qltb_descending sc) E).
Qed.

(** The list [ranked] of [_objective]: the candidates, and in
    non-increasing order of score when no score is NaN. *)
Lemma ranked_value_sorted p docs user_ings style_hint r :
  ranked_value p docs user_ings style_hint = Ok r ->
  Permutation r docs
  /\ (Forall (score_not_nan p user_ings style_hint) docs ->
      forall l1 a l2 b l3, r = l1 ++ a :: l2 ++ b :: l3 ->
      exists ka kb,
        score_value p a user_ings style_hint = Ok ka
        /\ score_value p b user_ings style_hint = Ok kb
        /\ fl_ltb ka kb = false).
Proof.
  intros Hr.
  destruct (ranked_value_keys _ _ _ _ _ Hr) as [kd [-> [Hsnd Hpairs]]].
  split.
  - rewrite <- Hsnd. apply Permutation_map. apply sort_keyed_perm.
  - intros Hn l1 a l2 b l3 Hsplit.
    assert (Hgood : keys_good not_nan kd).
    { unfold keys_good. rewrite List.Forall_forall in *. intros x Hx E.
      apply (Hn (snd x)).
      - rewrite <- Hsnd. apply in_map. exact Hx.
      - rewrite (Hpairs x Hx), E. reflexivity. }
    pose proof (sort_keyed_descending fl_ltb not_nan fl_ltb_irrefl fl_ltb_trans
                  fl_ltb_ntrans kd Hgood) as Hd.
    pose proof (Forall_sort_keyed fl_ltb _ true kd Hpairs) as Hsorted.
    apply map_eq_app in Hsplit as [k1 [k2 [Hk [_ Hk2]]]].
    apply map_eq_cons in Hk2 as [ea [k3 [Hk3 [Ha Hk4]]]].
    apply map_eq_app in Hk4 as [k4 [k5 [Hk5 [_ Hk6]]]].
    apply map_eq_cons in Hk6 as [eb [k6 [Hk7 [Hb _]]]].
    subst k2 k3 k5 a b.
    exists (fst ea), (fst eb).
    rewrite List.Forall_forall in Hsorted.
    rewrite (Hsorted ea), (Hsorted eb).
    + split; [reflexivity|]. split; [reflexivity|].
      apply (descending_split fl_ltb _ k1 ea k4 eb k6 Hd Hk).
    + rewrite Hk. apply in_or_app. right. right. apply in_or_app. right. left. reflexivity.
    + rewrite Hk. apply in_or_app. right. left. reflexivity.
Qed.

(** Of two documents the one with the greater score comes first, whichever
    way they are given. *)
Lemma ranked_value_pair p a b user_ings style_hint (ka kb : fl) :
  score_value p a user_ings style_hint = Ok ka ->
  score_value p b user_ings style_hint = Ok kb ->
  fl_ltb kb ka = true ->
  ranked_value p [a; b] user_ings style_hint = Ok [a; b]
  /\ ranked_value p [b; a] user_ings style_hint = Ok [a; b].
Proof.
  intros Ha Hb Hlt. pose proof (fl_ltb_asym _ _ Hlt) as Hge.
  unfold ranked_value. cbn [omap]. rewrite Ha, Hb.
  cbn [obind combine]. unfold sort_keyed, sort_asc, count_run.
  cbn [rev app fst]. rewrite Hlt, Hge. split; reflexivity.
Qed.

(** The sort on the keys of the seven sample candidates: the first two
    entries, which tie, change places. *)
Lemma sort_sample_codes {X} (a b c d e f g : X) :
  map snd (sort_keyed code_ltb true
             [(Some 0, a); (Some 0, b); (None, c); (Some 0, d); (Some 0, e);
              (Some 0, f); (Some 1, g)]%Z)
  = [b; c; g; a; d; e; f].
Proof. vm_compute. reflexivity. Qed.

Lemma map_snd_map_keys {K K' X} (f : K -> K') (l : list (K * X)) :
  map snd (map_keys f l) = map snd l.
Proof. unfold map_keys, rekey. rewrite map_map. reflexivity. Qed.

Lemma score_value_plain p content views :
  score_value p (doc_plain content views) [U "tofu"] []
  = let* pop := log1p views in
    Ok (Optim.weighted p (Optim.ing_hit [U "tofu"] content) 0 pop 0 2).
Proof.
  unfold score_value, doc_plain, Optim.style_score, Optim._level_score.
  cbn [metadata page_content].
  repeat match goal with
         | |- context [get ?m ?k ?d] => progress eval_closed (get m k d)
         end.
  eval_closed (val_in (VStr []) beginner_labels).
  eval_closed (val_is_str (VStr []) s_junggeup).
  eval_closed (Optim._parse_time (VStr [])).
  cbn [py_int obind truthy andb]. reflexivity.
Qed.

Lemma weighted_hits_only hits x :
  (0 <= x <= 1000000)%R -> (0 <= hits <= 1)%Z ->
  Optim.weighted hits_only_params hits 0 (Fin x) 0 2 = Fin (IZR hits).
Proof.
  intros Hx [Hh0 Hh1]. apply IZR_le in Hh0, Hh1.
  rewrite weighted_exact;
    cbn [hits_only_params Optim.w_ing Optim.w_level Optim.w_pop Optim.w_style
         Optim.p_time]; [f_equal; lra | lra ..].
Qed.

End RankingFacts.

(** C8, as the code has it.  Ranking is a stable descending sort where
    the scores are comparable.  In [suggest_menus], for every list
    [scored] (whose documents are the candidates, in input order), the
    sorted list holds the same entries, no entry has a smaller score than
    an entry after it, and the entries with a given score stand in the
    order they had in [scored].  In [_objective], [sorted] returns as soon
    as every candidate is scored; and for every candidate list and weight
    vector for which no score is NaN, [ranked] holds the candidates, no
    document scores less than a document after it, and the documents with
    a given score stand in their input order. *)
Theorem ranking_is_stable :
  (forall (sc : list (Q * (Document * RagPipeline.Debug))),
     Permutation (RagPipeline.sort_scored sc) sc
     /\ (forall l1 x l2 y l3,
           RagPipeline.sort_scored sc = l1 ++ x :: l2 ++ y :: l3 -> (fst y <= fst x)%Q)
     /\ (forall s : Q,
           List.filter (fun x => Qeq_bool (fst x) s) (RagPipeline.sort_scored sc)
           = List.filter (fun x => Qeq_bool (fst x) s) sc))
  /\ (forall docs user_ings style_hint sc,
        RagPipeline.scored docs user_ings style_hint = Ok sc ->
        map (fun x => fst (snd x)) sc = docs)
  /\ (forall (self : Optim.AutoRanker) docs user_ings style_hint,
        Forall (fun d => exists k, Optim.score d user_ings style_hint self = (self, Ok k))
               docs ->
        exists r, Optim.ranked docs user_ings style_hint self = (self, Ok r))
  /\ (forall (self : Optim.AutoRanker) docs user_ings style_hint r,
        Optim.ranked docs user_ings style_hint self = (self, Ok r) ->
        Forall (score_not_nan (Optim.params self) user_ings style_hint) docs ->
        Permutation r docs
        /\ (forall l1 a l2 b l3, r = l1 ++ a :: l2 ++ b :: l3 ->
            exists ka kb,
              Optim.score a user_ings style_hint self = (self, Ok ka)
              /\ Optim.score b user_ings style_hint self = (self, Ok kb)
              /\ Np.fl_ltb ka kb = false)
        /\ (forall s : Np.fl, not_nan s ->
            List.filter (scores_as (Optim.params self) user_ings style_hint s) r
            = List.filter (scores_as (Optim.params self) user_ings style_hint s) docs)).
Proof.
  split; [|split; [|split]].
  - intros sc. destruct (sort_scored_sorted sc) as [Hp Hd].
    split; [exact Hp|]. split; [exact Hd|]. intros s. apply sort_scored_stable.
  - apply scored_keeps_documents.
  - intros self docs user_ings style_hint Hall. rewrite ranked_run.
    assert (Hk : exists keys,
              omap (fun d => score_value (Optim.params self) d user_ings style_hint) docs
              = Ok keys).
    { apply omap_all_Ok. apply List.Forall_impl with (2 := Hall).
      intros d [k Hd]. rewrite score_run in Hd. injection Hd as Hd. eauto. }
    destruct Hk as [keys Hk]. unfold ranked_value. rewrite Hk. cbn [obind]. eauto.
  - intros self docs user_ings style_hint r Hr Hn.
    rewrite ranked_run in Hr. injection Hr as Hr.
    destruct (ranked_value_sorted _ _ _ _ _ Hr) as [Hp Hd].
    split; [exact Hp|]. split.
    + intros l1 a l2 b l3 E. destruct (Hd Hn l1 a l2 b l3 E) as [ka [kb [Ha [Hb Hk]]]].
      exists ka, kb. rewrite !score_run, Ha, Hb. auto.
    + intros s Hs. apply ranked_value_stable; assumption.
Qed.

Lemma ranked_docs_with_tie :
  ranked_value (Optim.params Optim.__init__) docs_with_tie [U "tofu"] []
  = Ok [doc_A (U "tofu soup"); doc_A (U "fried tofu"); doc_B (U "beef stew")].
Proof.
  pose proof ln_views_order as Hln.
  unfold ranked_value, docs_with_tie. cbn [omap].
  rewrite score_value_B, !score_value_A by reflexivity.
  rewrite weighted_init_A, weighted_init_B.
  cbn [obind combine].
  rewrite (sort_keyed_stable_keyed Np.fl_ltb not_nan fl_ltb_irrefl fl_ltb_trans fl_ltb_ntrans)
    by (repeat constructor; discriminate).
  unfold stable_keyed, insertion_sort.
  cbn [rev app fold_left insert_asc fst Np.fl_ltb].
  repeat (match goal with
          | |- context [Rlt_dec ?a ?b] => destruct (Rlt_dec a b); try (exfalso; lra)
          end;
          cbn [rev app insert_asc fst Np.fl_ltb]).
  reflexivity.
Qed.

Lemma ranking_is_stable_witness :
  List.filter (scores_as (Optim.params Optim.__init__) [U "tofu"] []
                 (Np.Fin (2 * 1 + 1 * 1 + 1 / 2 * ln (1 + 10000) + 1 * 0 - 1 * 0)%R))
    [doc_A (U "tofu soup"); doc_A (U "fried tofu"); doc_B (U "beef stew")]
  = List.filter (scores_as (Optim.params Optim.__init__) [U "tofu"] []
                   (Np.Fin (2 * 1 + 1 * 1 + 1 / 2 * ln (1 + 10000) + 1 * 0 - 1 * 0)%R))
      docs_with_tie.
Proof.
  assert (Hr : Optim.ranked docs_with_tie [U "tofu"] [] Optim.__init__
               = (Optim.__init__,
                  Ok [doc_A (U "tofu soup"); doc_A (U "fried tofu"); doc_B (U "beef stew")])).
  { rewrite ranked_run, ranked_docs_with_tie. reflexivity. }
  assert (Hn : Forall (score_not_nan (Optim.params Optim.__init__) [U "tofu"] [])
                 docs_with_tie).
  { unfold docs_with_tie, score_not_nan.
    repeat constructor; rewrite ?score_value_A, ?score_value_B by reflexivity;
      rewrite ?weighted_init_A, ?weighted_init_B; discriminate. }
  apply (proj2 (proj2 (proj2 (proj2 (proj2 ranking_is_stable)) _ _ _ _ _ Hr Hn))).
  discriminate.
Defined.

(** C8 as stated fails where a score is NaN.  With weights that count
    ingredient hits only, seven candidates score 0, 0, NaN (a negative
    [views]), 0, 0, 0, 1.  The first two tie, and [sorted] returns the
    second before the first. *)
Lemma ranking_swaps_ties_beside_nan :
  let self := {| Optim.params := hits_only_params |} in
  Optim.score (doc_plain (U "rice 1") 10) [U "tofu"] [] self = (self, Ok (Np.Fin 0))
  /\ Optim.score (doc_plain (U "rice 2") 10) [U "tofu"] [] self = (self, Ok (Np.Fin 0))
  /\ Optim.ranked docs_with_nan [U "tofu"] [] self
     = (self,
        Ok [doc_plain (U "rice 2") 10; doc_plain (U "noodles") (-5);
            doc_plain (U "tofu") 10; doc_plain (U "rice 1") 10;
            doc_plain (U "rice 3") 10; doc_plain (U "rice 4") 10;
            doc_plain (U "rice 5") 10]).
Proof.
  intros self.
  assert (Hln : (0 <= ln (1 + 10) <= 1000000)%R).
  { pose proof (ln_1p_bounds 10 ltac:(lra)). lra. }
  assert (Hrice : forall content,
            contains (U "tofu") content = false ->
            score_value hits_only_params (doc_plain content 10) [U "tofu"] []
            = Ok (fl_of_code (Some 0%Z))).
  { intros content Hc. rewrite score_value_plain, optim_ing_hit_tofu, Hc.
    rewrite log1p_count by (split; [lia | vm_compute; reflexivity]). cbn [obind].
    rewrite weighted_hits_only by (exact Hln || lia). reflexivity. }
  assert (Htofu : score_value hits_only_params (doc_plain (U "tofu") 10) [U "tofu"] []
                  = Ok (fl_of_code (Some 1%Z))).
  { rewrite score_value_plain, optim_ing_hit_tofu.
    eval_closed (contains (U "tofu") (U "tofu")).
    rewrite log1p_count by (split; [lia | vm_compute; reflexivity]). cbn [obind].
    rewrite weighted_hits_only by (exact Hln || lia). reflexivity. }
  assert (Hnan : score_value hits_only_params (doc_plain (U "noodles") (-5)) [U "tofu"] []
                 = Ok (fl_of_code None)).
  { rewrite score_value_plain.
    change (Np.log1p (-5)) with (Ok Np.NaN). cbn [obind].
    rewrite weighted_nan. reflexivity. }
  rewrite !score_run, ranked_run. cbn [Optim.params self].
  split; [f_equal; apply Hrice; reflexivity|].
  split; [f_equal; apply Hrice; reflexivity|].
  f_equal. unfold ranked_value, docs_with_nan. cbn [omap].
  rewrite !Hrice by reflexivity. rewrite Htofu, Hnan. cbn [obind]. f_equal.
  match goal with
  | |- map snd (sort_keyed _ _ (combine _ [?a; ?b; ?c; ?d; ?e; ?f; ?g])) = _ =>
    change (map snd (sort_keyed Np.fl_ltb true
              (map_keys fl_of_code
                 [(Some 0, a); (Some 0, b); (None, c); (Some 0, d); (Some 0, e);
                  (Some 0, f); (Some 1, g)]%Z))
            = [b; c; g; a; d; e; f])
  end.
  rewrite (sort_keyed_map_keys code_ltb Np.fl_ltb fl_of_code fl_ltb_code).
  rewrite map_snd_map_keys. apply sort_sample_codes.
Qed.

(** ** The scenario of the specification *)

Section Scenario.
Import Np.
Local Open Scope R_scope.

Lemma pow_1000_below : IZR (2 ^ 1000) * 500 < overflow_threshold.
Proof.
  unfold overflow_threshold. rewrite <- mult_IZR. apply IZR_lt. vm_compute. reflexivity.
Qed.

Lemma overflow_threshold_pos : 0 < overflow_threshold.
Proof. pose proof overflow_threshold_gt. lra. Qed.

(** The score of A is at least the exact weighted sum (it is that sum or
    an infinity). *)
Lemma weighted_A_at_least p :
  0 <= Optim.w_ing p -> 0 <= Optim.w_level p -> 0 <= Optim.w_pop p ->
  at_least (Optim.w_ing p * 1 + Optim.w_level p * 1 + Optim.w_pop p * ln (1 + 10000)
            + Optim.w_style p * 0 - Optim.p_time p * 0)
           (Optim.weighted p 1 1 (Fin (ln (1 + 10000))) 0 0).
Proof.
  intros H1 H2 H3. pose proof overflow_threshold_pos as Ht.
  pose proof (ln_1p_bounds 10000 ltac:(lra)) as [Hln _].
  assert (Hpop : 0 <= Optim.w_pop p * ln (1 + 10000)) by (apply Rmult_le_pos; assumption).
  unfold Optim.weighted.
  apply at_least_sub; [| apply at_most_mul; lra | lra].
  apply at_least_add; [| apply at_least_mul; lra | lra].
  apply at_least_add; [| apply at_least_mul; lra | lra].
  apply at_least_add; [apply at_least_mul; lra | apply at_least_mul; lra | lra].
Qed.

(** The score of B is at most the exact weighted sum when the popularity
    term does not overflow. *)
Lemma weighted_B_at_most p :
  0 <= Optim.w_pop p <= IZR (2 ^ 1000) -> 0 <= Optim.p_time p ->
  at_most (Optim.w_ing p * 0 + Optim.w_level p * 0 + Optim.w_pop p * ln (1 + 500)
           + Optim.w_style p * 0 - Optim.p_time p * 2)
          (Optim.weighted p 0 0 (Fin (ln (1 + 500))) 0 2).
Proof.
  intros H3 H5. pose proof overflow_threshold_pos as Ht. pose proof pow_1000_below as Hb.
  pose proof (ln_1p_bounds 500 ltac:(lra)) as Hln.
  assert (Hpop : 0 <= Optim.w_pop p * ln (1 + 500) <= IZR (2 ^ 1000) * 500).
  { split; [apply Rmult_le_pos; lra|]. apply Rmult_le_compat; lra. }
  unfold Optim.weighted.
  apply at_most_sub; [| apply at_least_mul; lra | lra].
  apply at_most_add; [| apply at_most_mul; lra | lra].
  apply at_most_add; [| apply at_most_mul; lra | lra].
  apply at_most_add; [apply at_most_mul; lra | apply at_most_mul; lra | lra].
Qed.

Lemma ln_501_ge_2 : 2 <= ln (1 + 500).
Proof.
  pose proof exp_le_3 as H3. pose proof (exp_pos 1) as Hp.
  assert (He : exp 2 <= 9).
  { replace 2 with (1 + 1) by lra. rewrite exp_plus.
    replace 9 with (3 * 3) by lra. apply Rmult_le_compat; lra. }
  rewrite <- (ln_exp 2). left. apply ln_increasing; [apply exp_pos | lra].
Qed.

(** A popularity weight of [2^1023] sends the popularity term of both A
    and B, hence both scores, to infinity. *)
Lemma weighted_huge_pop hits level x pen :
  2 <= x -> 0 <= IZR hits <= 1 -> 0 <= level <= 1 -> 0 <= IZR pen <= 2 ->
  Optim.weighted huge_pop_params hits level (Fin x) 0 pen = PInf.
Proof.
  intros Hx Hh Hl Hp. pose proof overflow_threshold_gt as Ht.
  assert (Hbig : overflow_threshold <= IZR (2 ^ 1023) * x).
  { assert (E : overflow_threshold <= IZR (2 ^ 1023) * 2).
    { unfold overflow_threshold. rewrite <- mult_IZR. apply IZR_le.
      vm_compute. discriminate. }
    assert (0 <= IZR (2 ^ 1023)) by (apply IZR_le; vm_compute; discriminate).
    assert (IZR (2 ^ 1023) * 2 <= IZR (2 ^ 1023) * x)
      by (apply Rmult_le_compat_l; lra).
    lra. }
  unfold Optim.weighted, sub, add, mul, fl_sub.
  cbn [huge_pop_params Optim.w_ing Optim.w_level Optim.w_pop Optim.w_style Optim.p_time
       fl_mul].
  rewrite (overflow_fin (1 * IZR hits)), (overflow_fin (0 * level)),
    (overflow_fin (0 * 0)), (overflow_fin (0 * IZR pen)) by lra.
  cbn [fl_add]. rewrite overflow_fin by lra.
  rewrite (overflow_big (IZR (2 ^ 1023) * x) Hbig). reflexivity.
Qed.

End Scenario.

(** C6, as the code has it.  Let A have the metadata level 초급, views
    10000, time 30분이내 and a content containing tofu, and B the metadata
    level 고급, views 500, time 120분이내 and a content without tofu.  With
    the ingredients [tofu] and an empty style hint, under every weight
    vector whose components are non-negative, whose ingredient weight is
    positive and whose popularity weight is at most 2^1000, the score of A
    is strictly greater than the score of B, and the ranking of the two
    documents is A before B whichever way they are given. *)
Theorem scenario_A_ranks_above_B (content_A content_B : pystr) (p : Optim.Params) :
  contains (U "tofu") content_A = true ->
  contains (U "tofu") content_B = false ->
  (0 < Optim.w_ing p)%R -> (0 <= Optim.w_level p)%R ->
  (0 <= Optim.w_pop p <= IZR (2 ^ 1000))%R ->
  (0 <= Optim.w_style p)%R -> (0 <= Optim.p_time p)%R ->
  let A := doc_A content_A in
  let B := doc_B content_B in
  let self := {| Optim.params := p |} in
  exists ka kb : Np.fl,
    Optim.score A [U "tofu"] [] self = (self, Ok ka)
    /\ Optim.score B [U "tofu"] [] self = (self, Ok kb)
    /\ Np.fl_ltb kb ka = true
    /\ Optim.ranked [A; B] [U "tofu"] [] self = (self, Ok [A; B])
    /\ Optim.ranked [B; A] [U "tofu"] [] self = (self, Ok [A; B]).
Proof.
  intros HA HB Hing Hlevel Hpop Hstyle Htime A B self.
  pose proof (score_value_A p content_A HA) as EA.
  pose proof (score_value_B p content_B HB) as EB.
  pose proof ln_views_order as Hln.
  assert (Hlt : Np.fl_ltb (Optim.weighted p 0 0 (Np.Fin (ln (1 + 500))) 0 2)
                          (Optim.weighted p 1 1 (Np.Fin (ln (1 + 10000))) 0 0) = true).
  { apply (at_most_lt_at_least _ _ _ _ (weighted_B_at_most p Hpop Htime)
             (weighted_A_at_least p ltac:(lra) Hlevel ltac:(lra))).
    assert (Optim.w_pop p * ln (1 + 500) <= Optim.w_pop p * ln (1 + 10000))%R
      by (apply Rmult_le_compat_l; lra).
    lra. }
  eexists. eexists.
  rewrite !score_run, !ranked_run. cbn [Optim.params self].
  subst A B. rewrite EA, EB.
  destruct (ranked_value_pair p _ _ _ _ _ _ EA EB Hlt) as [-> ->].
  repeat split. exact Hlt.
Qed.

Lemma scenario_A_ranks_above_B_witness :
  let A := doc_A (U "tofu soup") in
  let B := doc_B (U "beef stew") in
  exists ka kb : Np.fl,
    Optim.score A [U "tofu"] [] Optim.__init__ = (Optim.__init__, Ok ka)
    /\ Optim.score B [U "tofu"] [] Optim.__init__ = (Optim.__init__, Ok kb)
    /\ Np.fl_ltb kb ka = true
    /\ Optim.ranked [A; B] [U "tofu"] [] Optim.__init__ = (Optim.__init__, Ok [A; B])
    /\ Optim.ranked [B; A] [U "tofu"] [] Optim.__init__ = (Optim.__init__, Ok [A; B]).
Proof.
  apply (scenario_A_ranks_above_B (U "tofu soup") (U "beef stew")
           (Optim.params Optim.__init__));
    first [ reflexivity
          | simpl; lra
          | simpl; split; [lra|]; apply (Rle_trans _ (IZR 1)); [lra|];
            apply IZR_le; vm_compute; discriminate ].
Defined.

(** C6 as stated fails for a weight vector with non-negative components
    and the ingredient weight 1: when the popularity weight is 2^1023 the
    popularity term, and with it the score, is infinite for A and for B,
    and given B before A the ranking leaves B before A. *)
Lemma scenario_ties_on_overflow :
  let A := doc_A (U "tofu soup") in
  let B := doc_B (U "beef stew") in
  let self := {| Optim.params := huge_pop_params |} in
  Optim.score A [U "tofu"] [] self = (self, Ok Np.PInf)
  /\ Optim.score B [U "tofu"] [] self = (self, Ok Np.PInf)
  /\ Optim.ranked [B; A] [U "tofu"] [] self = (self, Ok [B; A]).
Proof.
  intros A B self.
  assert (EA : score_value huge_pop_params A [U "tofu"] [] = Ok Np.PInf).
  { subst A. rewrite score_value_A by reflexivity. f_equal.
    apply weighted_huge_pop; try lra.
    pose proof ln_501_ge_2. pose proof ln_views_order. lra. }
  assert (EB : score_value huge_pop_params B [U "tofu"] [] = Ok Np.PInf).
  { subst B. rewrite score_value_B by reflexivity. f_equal.
    apply weighted_huge_pop; try lra. apply ln_501_ge_2. }
  rewrite !score_run, ranked_run. cbn [Optim.params self].
  rewrite EA, EB. split; [reflexivity|]. split; [reflexivity|]. f_equal.
  unfold ranked_value. cbn [omap]. rewrite EA, EB. reflexivity.
Qed.

(** ** The proxy objective *)

Section Objective.
Import Np.
Local Open Scope R_scope.

(** [_objective] stores its argument in [self.params] before anything else;
    what it returns does not depend on the weights held before. *)
Lemma objective_run p docs user_ings style_hint (self : Optim.AutoRanker) :
  Optim._objective p docs user_ings style_hint self
  = ({| Optim.params := p |}, objective_value p docs user_ings style_hint).
Proof.
  unfold Optim._objective, objective_value, Optim.bind at 1, Optim.write_params.
  unfold Optim.bind at 1. rewrite ranked_run. cbn [Optim.params].
  destruct (ranked_value _ _ _ _) as [r|e]; [|reflexivity]. cbn [obind].
  unfold Optim.bind, Optim.lift, Optim.ret.
  destruct (Optim.final_score _ _ _); reflexivity.
Qed.

Lemma mean_nonempty l : l <> [] -> mean l = Fin (rate l).
Proof. destruct l; [congruence | reflexivity]. Qed.

Lemma omap_length {X Y} (f : X -> outcome Y) l : forall ys,
  omap f l = Ok ys -> length ys = length l.
Proof.
  induction l as [|x l IH]; simpl; intros ys H.
  - injection H as <-. reflexivity.
  - destruct (f x); [|discriminate]. cbn [obind] in H.
    destruct (omap f l) as [ys'|]; [|discriminate]. cbn [obind] in H.
    injection H as <-. simpl. rewrite (IH ys' eq_refl). reflexivity.
Qed.

Lemma nonempty_length {X} (l : list X) : l <> [] <-> (0 < length l)%nat.
Proof. destruct l; simpl; split; intros; try congruence; lia. Qed.

Lemma final_score_nonempty top user_ings style_hint vs :
  top <> [] ->
  omap views_of top = Ok vs ->
  Optim.final_score top user_ings style_hint
  = Ok (Fin (rate vs
             + 2000 * rate (map (Optim.ing_count user_ings) top)
             + 1000 * rate (map (fun d => Optim.style_score d style_hint) top)
             + 500 * rate (map Optim.level_flag top))).
Proof.
  intros Hne Hvs. unfold Optim.final_score. fold views_of. rewrite Hvs. cbn [obind].
  apply nonempty_length in Hne.
  rewrite !mean_nonempty.
  - reflexivity.
  - apply nonempty_length. rewrite length_map. exact Hne.
  - apply nonempty_length. rewrite length_map. exact Hne.
  - apply nonempty_length. rewrite length_map. exact Hne.
  - apply nonempty_length. rewrite (omap_length _ _ _ Hvs). exact Hne.
Qed.

Lemma sumZ_bounds (c : Z) l :
  Forall (fun z => (0 <= z <= c)%Z) l ->
  (0 <= sumZ l <= c * Z.of_nat (length l))%Z.
Proof.
  induction 1 as [|z l Hz _ IH]; simpl sumZ; simpl length; lia.
Qed.

Lemma rate_bounds (c : Z) l :
  l <> [] -> Forall (fun z => (0 <= z <= c)%Z) l -> 0 <= rate l <= IZR c.
Proof.
  intros Hne Hl. apply nonempty_length in Hne.
  destruct (sumZ_bounds c l Hl) as [H0 H1].
  apply IZR_le in H0, H1. rewrite mult_IZR, <- INR_IZR_INZ in H1.
  assert (Hn : 0 < INR (length l)) by (apply lt_0_INR; exact Hne).
  unfold rate. split.
  - apply Rmult_le_reg_r with (r := INR (length l)); [exact Hn|].
    rewrite Rmult_0_l. unfold Rdiv. rewrite Rmult_assoc, Rinv_l by lra. lra.
  - apply Rmult_le_reg_r with (r := INR (length l)); [exact Hn|].
    unfold Rdiv. rewrite Rmult_assoc, Rinv_l by lra. lra.
Qed.

Lemma filter_length_le {X} (f : X -> bool) l : (length (List.filter f l) <= length l)%nat.
Proof. induction l as [|x l IH]; simpl; [lia|]. destruct (f x); simpl; lia. Qed.

Lemma ing_count_bounds user_ings top :
  Forall (fun z => (0 <= z <= Z.of_nat (length user_ings))%Z)
         (map (Optim.ing_count user_ings) top).
Proof.
  apply List.Forall_forall. intros z Hz. apply in_map_iff in Hz as [d [<- _]].
  unfold Optim.ing_count.
  pose proof (filter_length_le (fun ing => contains ing (page_content d)) user_ings). lia.
Qed.

Lemma style_score_bounds style_hint top :
  Forall (fun z => (0 <= z <= 1)%Z) (map (fun d => Optim.style_score d style_hint) top).
Proof.
  apply List.Forall_forall. intros z Hz. apply in_map_iff in Hz as [d [<- _]].
  unfold Optim.style_score. destruct (_ && _); lia.
Qed.

Lemma level_flag_bounds top :
  Forall (fun z => (0 <= z <= 1)%Z) (map Optim.level_flag top).
Proof.
  apply List.Forall_forall. intros z Hz. apply in_map_iff in Hz as [d [<- _]].
  unfold Optim.level_flag. destruct (val_in _ _); lia.
Qed.

End Objective.

(** C2, as the code has it.  For every non-empty top-K list whose [views]
    convert to integers, the fitness is
    mean_views + 2000 * ingredient + 1000 * style + 500 * level, where the
    ingredient component is the mean number of the query's ingredient terms
    found per item, between 0 and the number of terms, and the style and
    level components are mean fractions between 0 and 1; the value
    [_objective] returns is the opposite of the fitness of the first five
    ranked documents. *)
Theorem fitness_formula_and_ranges (top : list Document) (user_ings : list pystr)
    (style_hint : pystr) (vs : list Z) :
  top <> [] ->
  omap views_of top = Ok vs ->
  let mean_views := rate vs in
  let ingredient := rate (map (Optim.ing_count user_ings) top) in
  let style := rate (map (fun d => Optim.style_score d style_hint) top) in
  let level := rate (map Optim.level_flag top) in
  let fitness := (mean_views + 2000 * ingredient + 1000 * style + 500 * level)%R in
  Optim.final_score top user_ings style_hint = Ok (Np.Fin fitness)
  /\ (0 <= ingredient <= INR (length user_ings))%R
  /\ (0 <= style <= 1)%R
  /\ (0 <= level <= 1)%R
  /\ (forall p docs self r,
        ranked_value p docs user_ings style_hint = Ok r -> take 5 r = top ->
        snd (Optim._objective p docs user_ings style_hint self) = Ok (Np.Fin (- fitness))).
Proof.
  intros Hne Hvs mean_views ingredient style level fitness.
  pose proof (final_score_nonempty top user_ings style_hint vs Hne Hvs) as Hf.
  assert (Hmap : forall f : Document -> Z, map f top <> []).
  { intros f. destruct top; [congruence | discriminate]. }
  split; [exact Hf|]. split; [|split; [|split]].
  - subst ingredient. rewrite INR_IZR_INZ.
    apply rate_bounds; [apply Hmap | apply ing_count_bounds].
  - subst style. apply (rate_bounds 1); [apply Hmap | apply style_score_bounds].
  - subst level. apply (rate_bounds 1); [apply Hmap | apply level_flag_bounds].
  - intros p docs self r Hr Htop. rewrite objective_run. cbn [snd].
    unfold objective_value. rewrite Hr. cbn [obind]. rewrite Htop, Hf. reflexivity.
Qed.

Lemma fitness_formula_and_ranges_witness :
  Optim.final_score [doc_tofu_onion] [U "tofu"; U "onion"] []
  = Ok (Np.Fin (rate [10000%Z]
                + 2000 * rate (map (Optim.ing_count [U "tofu"; U "onion"]) [doc_tofu_onion])
                + 1000 * rate (map (fun d => Optim.style_score d []) [doc_tofu_onion])
                + 500 * rate (map Optim.level_flag [doc_tofu_onion]))%R).
Proof.
  apply (fitness_formula_and_ranges [doc_tofu_onion] [U "tofu"; U "onion"] [] [10000%Z]).
  - discriminate.
  - reflexivity.
Defined.

(** C2 as stated fails: with the ingredients [tofu, onion] and one item that
    names both, the ingredient component is 2, which is not a fraction. *)
Lemma ingredient_component_exceeds_one :
  exists r : R,
    Np.mean (map (Optim.ing_count [U "tofu"; U "onion"]) [doc_tofu_onion]) = Np.Fin r
    /\ (1 < r)%R.
Proof.
  exists (rate [2%Z]). split.
  - cbn [map]. eval_closed (Optim.ing_count [U "tofu"; U "onion"] doc_tofu_onion).
    reflexivity.
  - unfold rate, Np.sumZ. cbn [fold_right length].
    change (2 + 0)%Z with 2%Z. change (INR 1) with 1%R. lra.
Qed.

(** C7, as the code has it.  On an empty candidate set the evaluation of
    the objective completes without raising, stores the weights, and
    returns NaN, the mean of an empty list: no sentinel is substituted. *)
Theorem objective_on_empty_set_is_nan (p : Optim.Params) (user_ings : list pystr)
    (style_hint : pystr) (self : Optim.AutoRanker) :
  Optim._objective p [] user_ings style_hint self = ({| Optim.params := p |}, Ok Np.NaN).
Proof. rewrite objective_run. reflexivity. Qed.

(** C7 as stated fails: the value returned for the empty set is NaN, which
    is neither above nor below the value returned for a one-document set,
    so it is not the worst value. *)
Lemma empty_set_fitness_not_extreme :
  exists v_empty v_one : Np.fl,
    snd (Optim._objective (Optim.params Optim.__init__) [] [U "tofu"] [] Optim.__init__)
      = Ok v_empty
    /\ snd (Optim._objective (Optim.params Optim.__init__) [doc_A_sample] [U "tofu"] []
              Optim.__init__) = Ok v_one
    /\ Np.fl_leb v_one v_empty = false
    /\ Np.fl_leb v_empty v_one = false.
Proof.
  exists Np.NaN. eexists. rewrite !objective_run. cbn [snd]. split; [reflexivity|].
  split.
  - unfold objective_value, ranked_value. cbn [omap].
    unfold doc_A_sample. rewrite score_value_A by reflexivity.
    cbn [obind combine]. unfold sort_keyed, sort_asc.
    cbn [rev app fold_left insert_asc map snd take].
    rewrite (final_score_nonempty _ _ _ [10000%Z]) by (discriminate || reflexivity).
    cbn [obind Np.fl_opp]. reflexivity.
  - split; reflexivity.
Qed.

(** C5, as the code has it.  [score] leaves the ranker's weights as they
    were.  [_objective] replaces them by its argument [params] (also when
    it raises), so the weights after the call are the ones passed in; its
    result does not depend on the weights held before, and calling it again
    with the same arguments gives the same result. *)
Theorem objective_overwrites_params :
  (forall doc user_ings style_hint (self : Optim.AutoRanker),
     fst (Optim.score doc user_ings style_hint self) = self)
  /\ (forall p docs user_ings style_hint (self : Optim.AutoRanker),
        fst (Optim._objective p docs user_ings style_hint self) = {| Optim.params := p |})
  /\ (forall p docs user_ings style_hint (self1 self2 : Optim.AutoRanker),
        snd (Optim._objective p docs user_ings style_hint self1)
        = snd (Optim._objective p docs user_ings style_hint self2))
  /\ (forall p docs user_ings style_hint (self : Optim.AutoRanker),
        Optim._objective p docs user_ings style_hint
          (fst (Optim._objective p docs user_ings style_hint self))
        = Optim._objective p docs user_ings style_hint self)
  /\ (forall doc user_ings style_hint (self : Optim.AutoRanker),
        Optim.score doc user_ings style_hint
          (fst (Optim.score doc user_ings style_hint self))
        = Optim.score doc user_ings style_hint self).
Proof.
  repeat split; intros; rewrite ?objective_run, ?score_run; reflexivity.
Qed.

(** C5 as stated fails: evaluating the objective at the zero weights on a
    fresh ranker leaves it with the zero weights, not with its initial
    ones. *)
Lemma objective_changes_weights :
  Optim.params (fst (Optim._objective zero_params [] [] [] Optim.__init__))
  <> Optim.params Optim.__init__.
Proof.
  rewrite objective_run. cbn [fst Optim.params]. intros E.
  apply (f_equal Optim.w_ing) in E. simpl in E. lra.
Qed.

(** An input made of white space only, as C10 covers it. *)
Lemma parse_ingredients_trimmed_nonempty_witness :
  RagPipeline.parse_ingredients (U "  ") = [].
Proof.
  apply (proj2 (parse_ingredients_trimmed_nonempty (U "  "))).
  right. left. reflexivity.
Defined.

(** * Further properties *)

(** ** Ranking in [suggest_menus] *)

Section RagRanking.
Import RagPipeline.

Lemma scored_length docs user_ings style_hint sc :
  scored docs user_ings style_hint = Ok sc -> length sc = length docs.
Proof. unfold scored. apply omap_length. Qed.

End RagRanking.

(** X1. Line 170 of [suggest_menus] returns the entries of [scored], each
    as often as it occurs there, in non-increasing order of score: an entry
    never has a smaller score than an entry after it. *)
Theorem sort_scored_permutation_descending
    (sc : list (Q * (Document * RagPipeline.Debug))) :
  Permutation (RagPipeline.sort_scored sc) sc
  /\ forall l1 x l2 y l3,
       RagPipeline.sort_scored sc = l1 ++ x :: l2 ++ y :: l3 -> (fst y <= fst x)%Q.
Proof.
  split.
  - apply sort_keyed_perm.
  - intros l1 x l2 y l3 E. apply Qltb_false.
    apply (descending_split Qltb _ l1 x l2 y l3 (Qltb_descending sc) E).
Qed.

(** X2. When every candidate is scored, [top] holds the first five entries
    of the sorted list: min(5, number of candidates) entries, which together
    with the entries left out are the entries of [scored], and none of which
    has a smaller score than an entry left out. *)
Theorem top_keeps_the_best (docs : list Document) (user_ings : list pystr)
    (style_hint : pystr) (sc : list (Q * (Document * RagPipeline.Debug))) :
  RagPipeline.scored docs user_ings style_hint = Ok sc ->
  exists best rest,
    RagPipeline.top docs user_ings style_hint = Ok best
    /\ length best = Nat.min 5 (length docs)
    /\ Permutation (best ++ rest) sc
    /\ forall x y, In x best -> In y rest -> (fst y <= fst x)%Q.
Proof.
  intros Hsc.
  exists (take 5 (RagPipeline.sort_scored sc)), (drop 5 (RagPipeline.sort_scored sc)).
  split; [|split; [|split]].
  - unfold RagPipeline.top. rewrite Hsc. reflexivity.
  - unfold RagPipeline.sort_scored.
    rewrite length_take, (Permutation_length (sort_keyed_perm Qltb true sc)).
    rewrite (scored_length _ _ _ _ Hsc). reflexivity.
  - rewrite take_drop. apply sort_keyed_perm.
  - intros x y Hx Hy. apply Qltb_false.
    apply (descending_take_drop Qltb 5 _ x y (Qltb_descending sc) Hx Hy).
Qed.

Lemma top_keeps_the_best_witness :
  exists best rest,
    RagPipeline.top [doc_B (U "beef stew"); doc_A (U "tofu soup")] [U "tofu"] [] = Ok best
    /\ length best = Nat.min 5 (length [doc_B (U "beef stew"); doc_A (U "tofu soup")])
    /\ Permutation (best ++ rest)
         [((-28000 # 20000)%Q,
           (doc_B (U "beef stew"),
            {| RagPipeline.dbg_ing_hit := 0; RagPipeline.dbg_level := U "고급";
               RagPipeline.dbg_views := 500; RagPipeline.dbg_cook_time := 120;
               RagPipeline.dbg_final := (-28000 # 20000)%Q |}));
          ((125000 # 10000)%Q,
           (doc_A (U "tofu soup"),
            {| RagPipeline.dbg_ing_hit := 1; RagPipeline.dbg_level := s_chogeup;
               RagPipeline.dbg_views := 10000; RagPipeline.dbg_cook_time := 30;
               RagPipeline.dbg_final := (125000 # 10000)%Q |}))]
    /\ forall x y, In x best -> In y rest -> (fst y <= fst x)%Q.
Proof.
  apply (top_keeps_the_best [doc_B (U "beef stew"); doc_A (U "tofu soup")] [U "tofu"] []).
  vm_compute. reflexivity.
Defined.

(** ** The menus of [suggest_menus] *)

Section MenuCards.
Import RagPipeline.
Context (retriever_invoke : pystr -> outcome (list Document))
        (llm_chat : pystr -> outcome pystr).

Lemma score_doc_debug d user_ings style_hint r :
  score_doc d user_ings style_hint = Ok r ->
  py_int (py_or (get (metadata d) "views" (VInt 0)) (VInt 0)) = Ok (dbg_views (snd r))
  /\ dbg_final (snd r) = fst r
  /\ dbg_ing_hit (snd r) = ing_hit user_ings (page_content d).
Proof.
  unfold score_doc.
  destruct (normalize_level _) as [l|]; [|discriminate]. cbn [obind].
  destruct (py_int _) as [v|]; [|discriminate]. cbn [obind].
  destruct (time_to_minutes _) as [m|]; [|discriminate]. cbn [obind].
  destruct (pop_score v) as [q|]; [|discriminate]. cbn [obind].
  intros [= <-]. simpl. auto.
Qed.

Lemma scored_entries docs user_ings style_hint : forall sc,
  scored docs user_ings style_hint = Ok sc ->
  Forall (entry_scored user_ings style_hint) sc.
Proof.
  unfold scored, entry_scored.
  induction docs as [|d docs IH]; simpl; intros sc H.
  - injection H as <-. constructor.
  - destruct (score_doc d user_ings style_hint) as [r|e] eqn:Er; [|discriminate].
    cbn [obind] in H.
    destruct (omap _ docs) as [sc'|e]; [|discriminate].
    cbn [obind] in H. injection H as <-.
    constructor; [|apply IH; reflexivity].
    simpl. rewrite Er. destruct r; reflexivity.
Qed.

Lemma menu_card_scored user_story language user_ings style_hint entry :
  entry_scored user_ings style_hint entry ->
  Menus.menu_card llm_chat user_story language entry
  = Ok (card_of llm_chat user_story language entry).
Proof.
  unfold entry_scored. intros H.
  destruct (score_doc_debug _ _ _ _ H) as [Hv _]. cbn [snd] in Hv.
  unfold Menus.menu_card, card_of. rewrite Hv. reflexivity.
Qed.

Lemma omap_pure {X Y} (f : X -> outcome Y) (g : X -> Y) l :
  Forall (fun x => f x = Ok (g x)) l -> omap f l = Ok (map g l).
Proof.
  induction 1 as [|x l Hx _ IH]; simpl; [reflexivity|].
  rewrite Hx, IH. reflexivity.
Qed.

Lemma Forall_take {X} (P : X -> Prop) n l : Forall P l -> Forall P (take n l).
Proof.
  intros H. revert n. induction H as [|x l Hx _ IH]; intros [|n]; simpl;
    constructor; auto.
Qed.

Lemma In_take {X} n (l : list X) x : In x (take n l) -> In x l.
Proof.
  revert n. induction l as [|y l IH]; intros [|n]; simpl; try tauto.
  intros [-> | H]; [left; reflexivity | right; apply (IH n H)].
Qed.

Lemma top_entries docs user_ings style_hint best :
  top docs user_ings style_hint = Ok best ->
  exists sc, scored docs user_ings style_hint = Ok sc
             /\ best = take 5 (sort_scored sc)
             /\ Forall (entry_scored user_ings style_hint) best.
Proof.
  unfold top. destruct (scored docs user_ings style_hint) as [sc|e] eqn:E; [|discriminate].
  cbn [obind]. intros [= <-]. exists sc. split; [reflexivity|]. split; [reflexivity|].
  apply Forall_take. apply Forall_sort_keyed. apply scored_entries with (1 := E).
Qed.

(** What [suggest_menus] returns once the retriever has answered. *)
Lemma suggest_menus_run user_story ingredients style_hint docs :
  retriever_invoke (Menus.menu_query user_story ingredients style_hint) = Ok docs ->
  Menus.suggest_menus retriever_invoke llm_chat user_story ingredients style_hint
  = let* best := top docs (parse_ingredients ingredients) style_hint in
    Ok (map (card_of llm_chat user_story (Menus.detect_language user_story)) best).
Proof.
  intros Hr. unfold Menus.suggest_menus. rewrite Hr. cbn [obind].
  destruct (top docs _ style_hint) as [best|e] eqn:E; [|reflexivity]. cbn [obind].
  destruct (top_entries _ _ _ _ E) as [sc [_ [_ Hall]]].
  apply omap_pure. apply List.Forall_impl with (2 := Hall).
  intros entry He. apply menu_card_scored with (1 := He).
Qed.

Lemma py_or_truthy a b : truthy b = true -> truthy (py_or a b) = true.
Proof. unfold py_or. destruct (truthy a) eqn:E; auto. Qed.

Lemma make_witty_title_truthy raw user_story language :
  truthy raw = true ->
  truthy (Menus.make_witty_title llm_chat raw user_story language) = true.
Proof.
  intros H. unfold Menus.make_witty_title.
  destruct (llm_chat _) as [reply|e]; [|exact H].
  destruct (nonempty (strip reply)) eqn:E; [exact E | exact H].
Qed.

Lemma tags_of_truthy md :
  (length (Menus.tags_of md) <= 3)%nat
  /\ Forall (fun t => truthy t = true) (Menus.tags_of md).
Proof.
  unfold Menus.tags_of.
  destruct (truthy (get md "level" (VStr []))) eqn:E1;
  destruct (truthy (get md "method" VNone)) eqn:E2;
  destruct (truthy (get md "time" VNone)) eqn:E3;
  destruct (negb (contains s_jeongbo (py_str (get md "time" VNone))));
  simpl; split; try lia; repeat constructor; assumption.
Qed.

End MenuCards.

(** X3. Whatever the chat client replies or raises: when the retriever
    answers and [suggest_menus] returns, it returns min(5, number of
    retrieved documents) cards, and on every card the raw title and the
    displayed title are truthy (never empty or [None]), there are at most
    three tags and every tag is truthy, and [spice] is 3. *)
Theorem suggest_menus_cards_well_formed
    (retriever_invoke : pystr -> outcome (list Document))
    (llm_chat : pystr -> outcome pystr)
    (user_story ingredients style_hint : pystr)
    (docs : list Document) (menus : list Menus.Menu) :
  retriever_invoke (Menus.menu_query user_story ingredients style_hint) = Ok docs ->
  Menus.suggest_menus retriever_invoke llm_chat user_story ingredients style_hint
  = Ok menus ->
  length menus = Nat.min 5 (length docs)
  /\ Forall (fun m =>
       truthy (Menus.raw_title m) = true
       /\ truthy (Menus.title m) = true
       /\ (length (Menus.tags m) <= 3)%nat
       /\ Forall (fun t => truthy t = true) (Menus.tags m)
       /\ Menus.spice m = 3%Z) menus.
Proof.
  intros Hr Hm. rewrite (suggest_menus_run _ _ _ _ _ _ Hr) in Hm.
  destruct (RagPipeline.top docs _ style_hint) as [best|e] eqn:E; [|discriminate].
  cbn [obind] in Hm. injection Hm as <-.
  destruct (top_entries _ _ _ _ E) as [sc [Hsc [-> _]]].
  split.
  - rewrite length_map. unfold RagPipeline.sort_scored.
    rewrite length_take, (Permutation_length (sort_keyed_perm Qltb true sc)).
    rewrite (scored_length _ _ _ _ Hsc). reflexivity.
  - apply List.Forall_forall. intros m Hin. apply in_map_iff in Hin as [entry [<- _]].
    unfold card_of. cbn [Menus.raw_title Menus.title Menus.tags Menus.spice].
    assert (Hraw : truthy (py_or (py_or (get (metadata (fst (snd entry))) "menu" (VStr []))
                                        (get (metadata (fst (snd entry))) "title" (VStr [])))
                                 (VStr (U "Unknown"))) = true)
      by (apply py_or_truthy; reflexivity).
    destruct (tags_of_truthy (metadata (fst (snd entry)))) as [Hlen Hall].
    split; [exact Hraw|]. split; [apply make_witty_title_truthy; exact Hraw|].
    split; [rewrite length_take; lia|]. split; [apply Forall_take; exact Hall | reflexivity].
Qed.

Lemma suggest_menus_cards_well_formed_witness :
  length sample_menus
  = Nat.min 5 (length [doc_B (U "beef stew"); doc_A (U "tofu soup")])
  /\ Forall (fun m =>
       truthy (Menus.raw_title m) = true
       /\ truthy (Menus.title m) = true
       /\ (length (Menus.tags m) <= 3)%nat
       /\ Forall (fun t => truthy t = true) (Menus.tags m)
       /\ Menus.spice m = 3%Z) sample_menus.
Proof.
  apply (suggest_menus_cards_well_formed sample_retriever sample_llm
           (U "tired") (U "tofu, onion") []).
  - reflexivity.
  - vm_compute. reflexivity.
Defined.

(** X4. The cards are in non-increasing order of the final score they
    carry in [debug], and every card carries the debug record that
    [score_doc] computes for one of the retrieved documents, with the
    meme chosen from that record's ingredient hits and views. *)
Theorem suggest_menus_cards_ordered
    (retriever_invoke : pystr -> outcome (list Document))
    (llm_chat : pystr -> outcome pystr)
    (user_story ingredients style_hint : pystr)
    (docs : list Document) (menus : list Menus.Menu) :
  retriever_invoke (Menus.menu_query user_story ingredients style_hint) = Ok docs ->
  Menus.suggest_menus retriever_invoke llm_chat user_story ingredients style_hint
  = Ok menus ->
  (forall l1 a l2 b l3, menus = l1 ++ a :: l2 ++ b :: l3 ->
     (RagPipeline.dbg_final (Menus.debug b) <= RagPipeline.dbg_final (Menus.debug a))%Q)
  /\ Forall (fun m => exists d f,
       In d docs
       /\ RagPipeline.score_doc d (RagPipeline.parse_ingredients ingredients) style_hint
          = Ok (f, Menus.debug m)
       /\ Menus.meme m = Menus.meme_of (RagPipeline.dbg_ing_hit (Menus.debug m))
                           (RagPipeline.dbg_views (Menus.debug m))) menus.
Proof.
  intros Hr Hm. rewrite (suggest_menus_run _ _ _ _ _ _ Hr) in Hm.
  destruct (RagPipeline.top docs _ style_hint) as [best|e] eqn:E; [|discriminate].
  cbn [obind] in Hm. injection Hm as <-.
  destruct (top_entries _ _ _ _ E) as [sc [Hsc [Hbest Hall]]].
  set (card := card_of llm_chat user_story (Menus.detect_language user_story)) in *.
  split.
  - intros l1 a l2 b l3 Hsplit.
    apply map_eq_app in Hsplit as [k1 [k2 [Hk [_ Hk2]]]].
    apply map_eq_cons in Hk2 as [ea [k3 [Hk3 [Ha Hk4]]]].
    apply map_eq_app in Hk4 as [k4 [k5 [Hk5 [_ Hk6]]]].
    apply map_eq_cons in Hk6 as [eb [k6 [Hk7 [Hb _]]]].
    subst k2 k3 k5. subst a b. cbn [card card_of Menus.debug].
    rewrite List.Forall_forall in Hall.
    assert (Ea : entry_scored (RagPipeline.parse_ingredients ingredients) style_hint ea)
      by (apply Hall; rewrite Hk; apply in_or_app; right; left; reflexivity).
    assert (Eb : entry_scored (RagPipeline.parse_ingredients ingredients) style_hint eb).
    { apply Hall. rewrite Hk. apply in_or_app. right. right.
      apply in_or_app. right. left. reflexivity. }
    destruct (score_doc_debug _ _ _ _ Ea) as [_ [Fa _]].
    destruct (score_doc_debug _ _ _ _ Eb) as [_ [Fb _]].
    cbn [fst snd] in Fa, Fb. rewrite Fa, Fb.
    apply Qltb_false.
    apply (descending_split Qltb (RagPipeline.sort_scored sc)
             k1 ea k4 eb (k6 ++ drop 5 (RagPipeline.sort_scored sc))
             (Qltb_descending sc)).
    rewrite <- (take_drop 5 (RagPipeline.sort_scored sc)) at 1.
    rewrite <- Hbest, Hk. rewrite <- !app_assoc. simpl. rewrite <- !app_assoc. reflexivity.
  - apply List.Forall_forall. intros m Hin. apply in_map_iff in Hin as [entry [<- Hin]].
    rewrite List.Forall_forall in Hall. pose proof (Hall entry Hin) as He.
    exists (fst (snd entry)), (fst entry). split; [|split; [exact He | reflexivity]].
    rewrite <- (scored_keeps_documents _ _ _ _ Hsc).
    apply in_map_iff. exists entry. split; [reflexivity|].
    apply (Permutation_in entry (sort_keyed_perm Qltb true sc)).
    rewrite Hbest in Hin. unfold RagPipeline.sort_scored in Hin.
    apply (In_take 5). exact Hin.
Qed.

Lemma suggest_menus_cards_ordered_witness :
  (forall l1 a l2 b l3, sample_menus = l1 ++ a :: l2 ++ b :: l3 ->
     (RagPipeline.dbg_final (Menus.debug b) <= RagPipeline.dbg_final (Menus.debug a))%Q)
  /\ Forall (fun m => exists d f,
       In d [doc_B (U "beef stew"); doc_A (U "tofu soup")]
       /\ RagPipeline.score_doc d (RagPipeline.parse_ingredients (U "tofu, onion")) []
          = Ok (f, Menus.debug m)
       /\ Menus.meme m = Menus.meme_of (RagPipeline.dbg_ing_hit (Menus.debug m))
                           (RagPipeline.dbg_views (Menus.debug m))) sample_menus.
Proof.
  apply (suggest_menus_cards_ordered sample_retriever sample_llm
           (U "tired") (U "tofu, onion") []
           [doc_B (U "beef stew"); doc_A (U "tofu soup")]).
  - reflexivity.
  - vm_compute. reflexivity.
Defined.


(** ** Ranking and failure in [_objective] *)

Section OptimRanking.
Import Np.



End OptimRanking.

(** X6. When [sorted] at lines 58-60 returns, [ranked] holds the candidate
    documents, each as often as in the input; and when no score is NaN, no
    document of [ranked] scores less than a document after it. *)
Theorem ranked_permutation_descending (self : Optim.AutoRanker) (docs : list Document)
    (user_ings : list pystr) (style_hint : pystr) (r : list Document) :
  Optim.ranked docs user_ings style_hint self = (self, Ok r) ->
  Permutation r docs
  /\ (Forall (score_not_nan (Optim.params self) user_ings style_hint) docs ->
      forall l1 a l2 b l3, r = l1 ++ a :: l2 ++ b :: l3 ->
      exists ka kb,
        Optim.score a user_ings style_hint self = (self, Ok ka)
        /\ Optim.score b user_ings style_hint self = (self, Ok kb)
        /\ Np.fl_ltb ka kb = false).
Proof.
  intros Hr. rewrite ranked_run in Hr. injection Hr as Hr.
  destruct (ranked_value_sorted _ _ _ _ _ Hr) as [Hp Hd].
  split; [exact Hp|].
  intros Hn l1 a l2 b l3 E. destruct (Hd Hn l1 a l2 b l3 E) as [ka [kb [Ha [Hb Hk]]]].
  exists ka, kb. rewrite !score_run, Ha, Hb. auto.
Qed.

Lemma ranked_permutation_descending_witness :
  Permutation [doc_A (U "tofu soup"); doc_A (U "fried tofu"); doc_B (U "beef stew")]
              docs_with_tie.
Proof.
  apply (ranked_permutation_descending Optim.__init__ docs_with_tie [U "tofu"] []).
  rewrite ranked_run, ranked_docs_with_tie. reflexivity.
Defined.


(** ** Cook times *)

Section CookTime.
Import RagPipeline.

Lemma uint_codes_digits u : forallb is_digit (uint_codes u) = true.
Proof.
  induction u; [reflexivity | cbn [uint_codes forallb]; rewrite IHu; reflexivity ..].
Qed.

Lemma uint_codes_nonnil u : u <> Decimal.Nil -> uint_codes u <> [].
Proof. destruct u; simpl; congruence. Qed.

Lemma int_digits_uint u : forall acc seen,
  u <> Decimal.Nil -> int_digits acc seen (uint_codes u) = Some (uint_val acc u).
Proof.
  induction u; intros acc seen Hne; try congruence;
    cbn [uint_codes int_digits uint_val];
    match goal with
    | |- context [digit_value ?c] =>
      let v := eval vm_compute in (digit_value c) in change (digit_value c) with v
    end;
    cbn [Z.of_N];
    (destruct u; [reflexivity | apply IHu; discriminate ..]).
Qed.

Lemma uint_val_pos u : forall acc : positive,
  uint_val (Z.pos acc) u = Z.pos (Pos.of_uint_acc u acc).
Proof.
  induction u; intros acc; cbn [uint_val Pos.of_uint_acc]; try reflexivity;
    rewrite <- IHu; f_equal; lia.
Qed.

Lemma uint_val_zero u : uint_val 0 u = Z.of_uint u.
Proof.
  unfold Z.of_uint.
  induction u; cbn [uint_val Pos.of_uint]; try reflexivity;
    try (change (10 * 0 + 0)%Z with 0%Z; exact IHu);
    match goal with
    | |- uint_val ?k _ = _ =>
      let k' := eval vm_compute in k in change k with k'
    end;
    rewrite uint_val_pos; reflexivity.
Qed.

(** Printing a non-negative [int] of at most [int_max_str_digits] digits
    and reading it back. *)
Lemma py_int_py_str n :
  (0 <= n)%Z -> (Z.of_nat (length (py_str (VInt n))) <= int_max_str_digits)%Z ->
  exists ds, py_str (VInt n) = ds /\ forallb is_digit ds = true /\ ds <> []
             /\ py_int (VStr ds) = Ok n.
Proof.
  intros Hn Hlen. exists (py_str (VInt n)). split; [reflexivity|].
  pose proof (DecimalZ.of_to n) as Hrt. unfold py_str in *.
  assert (Hu : exists u, Z.to_int n = Decimal.Pos u /\ u <> Decimal.Nil).
  { destruct n as [|p|p]; simpl.
    - exists Decimal.zero. split; [reflexivity | discriminate].
    - exists (Pos.to_uint p). split; [reflexivity | apply DecimalPos.Unsigned.to_uint_nonnil].
    - lia. }
  destruct Hu as [u [Eu Hne]]. rewrite Eu in *. simpl in Hrt.
  pose proof (uint_codes_digits u) as Hd.
  pose proof (uint_codes_nonnil u Hne) as Hnn.
  split; [exact Hd|]. split; [exact Hnn|].
  unfold py_int. rewrite (int_of_str_digits _ Hd Hnn).
  destruct (Z.ltb_spec int_max_str_digits (Z.of_nat (length (uint_codes u)))); [lia|].
  rewrite (int_digits_uint u 0 false Hne), uint_val_zero, Hrt. reflexivity.
Qed.

Lemma take_while_app_stop p (ds : pystr) c rest :
  forallb p ds = true -> p c = false -> take_while p (ds ++ c :: rest) = ds.
Proof.
  intros Hd Hc. induction ds as [|d ds IH]; simpl; [rewrite Hc; reflexivity|].
  simpl in Hd. apply andb_prop in Hd as [-> Hd]. rewrite IH by exact Hd. reflexivity.
Qed.

Lemma drop_while_app_stop p (ds : pystr) c rest :
  forallb p ds = true -> p c = false -> drop_while p (ds ++ c :: rest) = c :: rest.
Proof.
  intros Hd Hc. induction ds as [|d ds IH]; simpl; [rewrite Hc; reflexivity|].
  simpl in Hd. apply andb_prop in Hd as [-> Hd]. apply IH. exact Hd.
Qed.

Lemma startswith_head_absent c needle hay :
  Forall (fun x => x <> c) hay -> startswith (c :: needle) hay = false.
Proof.
  intros H. destruct hay as [|x hay]; [reflexivity|]. simpl.
  inversion H; subst. destruct (N.eqb_spec c x); [congruence | reflexivity].
Qed.

(** A string in which the first character of the needle does not occur
    does not contain the needle. *)
Lemma contains_head_absent c needle hay :
  Forall (fun x => x <> c) hay -> contains (c :: needle) hay = false.
Proof.
  induction 1 as [|x hay Hx Hh IH].
  - reflexivity.
  - cbn [contains]. rewrite IH, orb_false_r.
    apply startswith_head_absent. constructor; assumption.
Qed.

End CookTime.

Section CookTimeTheorems.
Import RagPipeline.

Lemma contains_skip_prefix c needle (pre hay : pystr) :
  Forall (fun x => x <> c) pre -> contains (c :: needle) hay = false ->
  contains (c :: needle) (pre ++ hay) = false.
Proof.
  intros Hp Hh. induction Hp as [|x pre Hx _ IH]; simpl app; [exact Hh|].
  cbn [contains]. rewrite IH, orb_false_r. cbn [startswith].
  destruct (N.eqb_spec c x); [congruence | reflexivity].
Qed.

Lemma digits_not_jeong ds :
  forallb is_digit ds = true -> Forall (fun x => x <> 51221%N) ds.
Proof.
  apply digits_Forall. intros c Hd ->. vm_compute in Hd. discriminate.
Qed.

Lemma int_digits_nonneg ds : forall acc seen z,
  (0 <= acc)%Z -> int_digits acc seen ds = Some z -> (0 <= z)%Z.
Proof.
  induction ds as [|c t IH]; intros acc seen z Ha; simpl.
  - destruct seen; [intros [= <-]; exact Ha | discriminate].
  - destruct (digit_value c) as [d|].
    + apply IH. lia.
    + destruct ((c =? 95)%N && seen); [apply IH; exact Ha | discriminate].
Qed.

Lemma py_int_digits_nonneg ds z :
  forallb is_digit ds = true -> py_int (VStr ds) = Ok z -> (0 <= z)%Z.
Proof.
  intros Hd. unfold py_int.
  destruct ds as [|c t]; [discriminate|].
  rewrite (int_of_str_digits _ Hd) by discriminate.
  destruct (int_max_str_digits <? _)%Z; [discriminate|].
  destruct (int_digits 0 false (c :: t)) as [z'|] eqn:E; [|discriminate].
  intros [= <-]. apply (int_digits_nonneg _ _ _ _ (Z.le_refl 0) E).
Qed.

(** A text without the character 분 holds no minutes. *)
Lemma search_minutes_no_bun s :
  Forall (fun c => c <> c_bun) s -> search_minutes s = None.
Proof.
  induction 1 as [|c t Hc Ht IH]; [reflexivity|].
  cbn [search_minutes]. rewrite IH.
  assert (E : match_minutes_here (c :: t) = None); [|rewrite E; reflexivity].
  unfold match_minutes_here.
  destruct (take_while is_digit (c :: t)); [reflexivity|].
  assert (Hall : Forall (fun x => x <> c_bun) (c :: t)) by (constructor; assumption).
  apply (Forall_drop_while _ is_digit) in Hall.
  apply (Forall_drop_while _ is_space) in Hall.
  destruct (drop_while is_space (drop_while is_digit (c :: t))) as [|x r]; [reflexivity|].
  inversion Hall; subst. destruct (N.eqb_spec x c_bun); [contradiction | reflexivity].
Qed.

Lemma normalize_level_strip s : normalize_level (VStr s) = Ok (strip s).
Proof. unfold normalize_level, py_or. destruct s; reflexivity. Qed.

Lemma time_to_minutes_strip s :
  time_to_minutes (VStr (strip s)) = time_to_minutes (VStr s).
Proof.
  unfold time_to_minutes. cbn [strip_val obind]. rewrite strip_idem.
  destruct s as [|c s]; [reflexivity|].
  destruct (strip (c :: s)) as [|c' s'] eqn:E; [reflexivity|].
  reflexivity.
Qed.

End CookTimeTheorems.

(** X8. [time_to_minutes] reads back a printed duration: for every
    non-negative integer [n] of at most 4300 digits and every rest without
    white space that does not contain 정보, the text made of the decimal
    digits of [n], the character 분 and the rest parses to [n]. *)
Theorem time_to_minutes_reads_printed_minutes (n : Z) (rest : pystr) :
  (0 <= n)%Z ->
  (Z.of_nat (length (py_str (VInt n))) <= int_max_str_digits)%Z ->
  Forall (fun c => is_space c = false) rest ->
  contains s_jeongbo rest = false ->
  RagPipeline.time_to_minutes (VStr (minutes_text n rest)) = Ok n.
Proof.
  intros Hn Hlen Hsp Hj. unfold minutes_text.
  destruct (py_int_py_str n Hn Hlen) as [ds [-> [Hd [Hne Hint]]]].
  assert (Hbun_digit : is_digit c_bun = false) by reflexivity.
  assert (Hbun_space : is_space c_bun = false) by reflexivity.
  assert (Hstrip : strip (ds ++ c_bun :: rest) = ds ++ c_bun :: rest).
  { apply strip_no_space. apply Forall_app. split.
    - apply digits_Forall with (2 := Hd). apply digit_not_space.
    - constructor; assumption. }
  unfold RagPipeline.time_to_minutes.
  assert (Htruthy : truthy (VStr (ds ++ c_bun :: rest)) = true)
    by (destruct ds; [congruence | reflexivity]).
  rewrite Htruthy. cbn [negb RagPipeline.strip_val obind]. rewrite Hstrip.
  assert (Hno : contains s_jeongbo (ds ++ c_bun :: rest) = false).
  { change s_jeongbo with (51221%N :: [48372%N]) in *.
    apply contains_skip_prefix; [apply digits_not_jeong; exact Hd|].
    apply (contains_skip_prefix _ _ [c_bun]); [|exact Hj].
    constructor; [discriminate | constructor]. }
  rewrite Hno.
  assert (Hsearch : RagPipeline.search_minutes (ds ++ c_bun :: rest) = Some ds).
  { assert (Hhere : RagPipeline.match_minutes_here (ds ++ c_bun :: rest) = Some ds).
    { unfold RagPipeline.match_minutes_here.
      rewrite (take_while_app_stop _ _ _ _ Hd Hbun_digit).
      rewrite (drop_while_app_stop _ _ _ _ Hd Hbun_digit).
      cbn [drop_while]. rewrite Hbun_space. rewrite N.eqb_refl.
      destruct ds; [congruence | reflexivity]. }
    destruct (ds ++ c_bun :: rest); cbn [RagPipeline.search_minutes]; rewrite Hhere;
      reflexivity. }
  rewrite Hsearch. exact Hint.
Qed.

Lemma time_to_minutes_reads_printed_minutes_witness :
  RagPipeline.time_to_minutes (VStr (minutes_text 45 (U "이내"))) = Ok 45%Z.
Proof.
  apply (time_to_minutes_reads_printed_minutes 45 (U "이내")).
  - lia.
  - vm_compute. discriminate.
  - repeat constructor.
  - reflexivity.
Defined.

(** X9. For every string of at most 4300 characters [time_to_minutes]
    returns a non-negative number of minutes; for every string it does
    what it does for the trimmed string; it returns the sentinel 9999 when
    the trimmed string contains 정보 or when the string has no character
    분, and for every falsy value ([None], 0, the empty string); a
    non-zero [int] has no [strip] and raises [AttributeError]; and digits
    of any script are read (the fullwidth ３０분 is 30 minutes). *)
Theorem time_to_minutes_range (s : pystr) :
  ((Z.of_nat (length s) <= int_max_str_digits)%Z ->
   exists m, RagPipeline.time_to_minutes (VStr s) = Ok m /\ (0 <= m)%Z)
  /\ RagPipeline.time_to_minutes (VStr (strip s)) = RagPipeline.time_to_minutes (VStr s)
  /\ (contains s_jeongbo (strip s) = true \/ Forall (fun c => c <> c_bun) s ->
      RagPipeline.time_to_minutes (VStr s) = Ok 9999%Z)
  /\ (forall v, truthy v = false -> RagPipeline.time_to_minutes v = Ok 9999%Z)
  /\ (forall z, z <> 0%Z -> RagPipeline.time_to_minutes (VInt z) = Raise AttributeError)
  /\ RagPipeline.time_to_minutes (VStr (U "３０분")) = Ok 30%Z.
Proof.
  split; [|split; [|split; [|split; [|split]]]].
  - intros Hlen. unfold RagPipeline.time_to_minutes.
    destruct (negb (truthy (VStr s))); [exists 9999%Z; split; [reflexivity | lia]|].
    cbn [RagPipeline.strip_val obind].
    destruct (contains s_jeongbo (strip s)); [exists 9999%Z; split; [reflexivity | lia]|].
    destruct (RagPipeline.search_minutes (strip s)) as [ds|] eqn:E;
      [|exists 9999%Z; split; [reflexivity | lia]].
    pose proof (search_minutes_length _ _ E) as Hl. pose proof (strip_length s) as Hs.
    apply search_minutes_digits in E as [Hd Hne].
    destruct (int_of_digits ds Hd Hne) as [z Hz]; [lia|]. exists z. split; [exact Hz|].
    apply (py_int_digits_nonneg ds z Hd Hz).
  - apply time_to_minutes_strip.
  - intros H. unfold RagPipeline.time_to_minutes.
    destruct (negb (truthy (VStr s))); [reflexivity|].
    cbn [RagPipeline.strip_val obind].
    destruct H as [-> | H]; [reflexivity|].
    destruct (contains s_jeongbo (strip s)); [reflexivity|].
    rewrite (search_minutes_no_bun (strip s)); [reflexivity|].
    apply Forall_strip. exact H.
  - intros v Hv. unfold RagPipeline.time_to_minutes. rewrite Hv. reflexivity.
  - intros z Hz. unfold RagPipeline.time_to_minutes. simpl.
    destruct (Z.eqb_spec z 0); [congruence | reflexivity].
  - vm_compute. reflexivity.
Qed.

(** ** The inference-time score as a function of the fields *)

Section ScoreDocShape.
Import RagPipeline.

Lemma get_insert_same (md : gmap string pyval) k v d : get (<[k:=v]> md) k d = v.
Proof. unfold get. rewrite lookup_insert_eq. reflexivity. Qed.

Lemma get_insert_other (md : gmap string pyval) k v k' d :
  k <> k' -> get (<[k:=v]> md) k' d = get md k' d.
Proof. intros H. unfold get. rewrite lookup_insert_ne by exact H. reflexivity. Qed.

(** The pieces of a successful [score_doc]. *)
Lemma score_doc_final doc user_ings style_hint r :
  score_doc doc user_ings style_hint = Ok r ->
  exists l v m q,
    normalize_level (get (metadata doc) "level" (VStr [])) = Ok l
    /\ py_int (py_or (get (metadata doc) "views" (VInt 0)) (VInt 0)) = Ok v
    /\ time_to_minutes (get (metadata doc) "time" (VStr [])) = Ok m
    /\ pop_score v = Ok q
    /\ fst r = (inject_Z (ing_hit user_ings (page_content doc)) * 3
                + inject_Z (level_score l) * (3 # 2) + q * 1
                + style_score doc style_hint - time_penalty m)%Q.
Proof.
  unfold score_doc.
  destruct (normalize_level _) as [l|] eqn:El; [|discriminate]. cbn [obind].
  destruct (py_int _) as [v|] eqn:Ev; [|discriminate]. cbn [obind].
  destruct (time_to_minutes _) as [m|] eqn:Em; [|discriminate]. cbn [obind].
  destruct (pop_score v) as [q|] eqn:Eq; [|discriminate]. cbn [obind].
  intros [= <-]. exists l, v, m, q. repeat split; assumption || reflexivity.
Qed.

(** Line 95 as a function of [views]. *)
Lemma pop_score_value v q :
  pop_score v = Ok q ->
  q = (if Qltb (inject_Z v / 5000) 5 then inject_Z v / 5000 else 5)%Q.
Proof.
  unfold pop_score, float_of_int.
  destruct (Z.abs v <? 2 ^ 1024 - 2 ^ 970); [|discriminate].
  cbn [obind]. intros [= <-]. reflexivity.
Qed.

Lemma pop_value_monotone v1 v2 :
  (v1 <= v2)%Z ->
  ((if Qltb (inject_Z v1 / 5000) 5 then inject_Z v1 / 5000 else 5)
   <= (if Qltb (inject_Z v2 / 5000) 5 then inject_Z v2 / 5000 else 5))%Q.
Proof.
  intros H. rewrite Zle_Qle in H.
  destruct (Qltb (inject_Z v1 / 5000) 5) eqn:E1;
  destruct (Qltb (inject_Z v2 / 5000) 5) eqn:E2;
    try apply Qltb_true in E1; try apply Qltb_false in E1;
    try apply Qltb_true in E2; try apply Qltb_false in E2;
    unfold Qdiv in *; change (/ 5000)%Q with (1 # 5000)%Q in *; Lqa.lra.
Qed.

Lemma pop_value_range v :
  (0 <= v)%Z ->
  (0 <= (if Qltb (inject_Z v / 5000) 5 then inject_Z v / 5000 else 5) <= 5)%Q.
Proof.
  intros H. rewrite Zle_Qle in H.
  destruct (Qltb (inject_Z v / 5000) 5) eqn:E1;
    try apply Qltb_true in E1; try apply Qltb_false in E1;
    unfold Qdiv in *; change (/ 5000)%Q with (1 # 5000)%Q in *;
    change (inject_Z 0) with 0%Q in H; split; Lqa.lra.
Qed.

Lemma pop_value_saturated v :
  (25000 <= v)%Z ->
  (if Qltb (inject_Z v / 5000) 5 then inject_Z v / 5000 else 5)%Q = 5%Q.
Proof.
  intros H. rewrite Zle_Qle in H.
  destruct (Qltb (inject_Z v / 5000) 5) eqn:E1; [|reflexivity].
  apply Qltb_true in E1. exfalso.
  unfold Qdiv in *. change (/ 5000)%Q with (1 # 5000)%Q in *.
  change (inject_Z 25000) with (25000 # 1)%Q in H. Lqa.lra.
Qed.

Lemma level_score_range l : (0 <= level_score l <= 5)%Z.
Proof.
  unfold level_score. destruct (existsb _ beginner_labels); [lia|].
  destruct (existsb _ [s_junggeup]); lia.
Qed.

Lemma rag_style_score_range doc style_hint :
  (0 <= style_score doc style_hint <= 3 # 2)%Q.
Proof.
  unfold style_score. destruct (_ && _); [|split; Lqa.lra].
  destruct (_ || _); split; Lqa.lra.
Qed.

Lemma time_penalty_range m : (0 <= time_penalty m <= 3 # 2)%Q.
Proof.
  unfold time_penalty. destruct (m <=? 30)%Z; [split; Lqa.lra|].
  destruct (m <=? 60)%Z; split; Lqa.lra.
Qed.

Lemma rag_ing_hit_range user_ings text :
  (0 <= ing_hit user_ings text <= Z.of_nat (length user_ings))%Z.
Proof.
  unfold ing_hit.
  pose proof (filter_length_le (fun ing => nonempty ing && contains ing text) user_ings). lia.
Qed.

End ScoreDocShape.

(** X10. In [score_doc] more views never lower the score: of two
    documents that differ only in an integer [views], the one with more
    views has a final score at least as large; and from 25000 views on the
    score no longer changes. *)
Theorem score_doc_monotone_in_views (doc : Document) (user_ings : list pystr)
    (style_hint : pystr) (v1 v2 : Z) (r1 r2 : Q * RagPipeline.Debug) :
  (v1 <= v2)%Z ->
  RagPipeline.score_doc (with_field doc "views" (VInt v1)) user_ings style_hint = Ok r1 ->
  RagPipeline.score_doc (with_field doc "views" (VInt v2)) user_ings style_hint = Ok r2 ->
  (fst r1 <= fst r2)%Q /\ ((25000 <= v1)%Z -> (fst r1 == fst r2)%Q).
Proof.
  intros Hv H1 H2.
  destruct (score_doc_final _ _ _ _ H1) as [l1 [w1 [m1 [q1 [Hl1 [Hw1 [Hm1 [Hq1 ->]]]]]]]].
  destruct (score_doc_final _ _ _ _ H2) as [l2 [w2 [m2 [q2 [Hl2 [Hw2 [Hm2 [Hq2 ->]]]]]]]].
  unfold RagPipeline.style_score. unfold with_field in *. cbn [metadata page_content] in *.
  rewrite !get_insert_other in * by discriminate.
  rewrite get_insert_same, py_int_or_zero in Hw1, Hw2.
  injection Hw1 as <-. injection Hw2 as <-.
  rewrite Hl1 in Hl2. injection Hl2 as <-. rewrite Hm1 in Hm2. injection Hm2 as <-.
  apply pop_score_value in Hq1, Hq2. subst q1 q2.
  pose proof (pop_value_monotone v1 v2 Hv) as Hmono.
  split.
  - Lqa.lra.
  - intros Hsat. rewrite (pop_value_saturated v1 Hsat).
    rewrite (pop_value_saturated v2) by lia. reflexivity.
Qed.

Lemma score_doc_monotone_in_views_witness :
  (fst sample_score_500 <= fst sample_score_10000)%Q
  /\ ((25000 <= 500)%Z -> (fst sample_score_500 == fst sample_score_10000)%Q).
Proof.
  apply (score_doc_monotone_in_views (doc_A (U "tofu soup")) [U "tofu"] [] 500 10000).
  - lia.
  - vm_compute. reflexivity.
  - vm_compute. reflexivity.
Defined.

(** X11. For a document with a non-negative number of views, the final
    score of [score_doc] lies between -1.5 and 3 * (number of ingredient
    terms) + 14. *)
Theorem score_doc_bounds (doc : Document) (user_ings : list pystr) (style_hint : pystr)
    (r : Q * RagPipeline.Debug) :
  RagPipeline.score_doc doc user_ings style_hint = Ok r ->
  (0 <= RagPipeline.dbg_views (snd r))%Z ->
  (- (3 # 2) <= fst r <= 3 * inject_Z (Z.of_nat (length user_ings)) + 14)%Q.
Proof.
  intros H Hv.
  destruct (score_doc_debug doc user_ings style_hint r H) as [Hw' _].
  destruct (score_doc_final _ _ _ _ H) as [l [w [m [q [Hl [Hw [Hm [Hq ->]]]]]]]].
  rewrite Hw in Hw'. injection Hw' as Hw'. rewrite <- Hw' in Hv.
  apply pop_score_value in Hq. subst q.
  pose proof (pop_value_range w Hv) as Hpop.
  pose proof (level_score_range l) as [Hl0 Hl5].
  pose proof (rag_style_score_range doc style_hint) as Hst.
  pose proof (time_penalty_range m) as Hpen.
  pose proof (rag_ing_hit_range user_ings (page_content doc)) as [Hh0 Hhn].
  rewrite Zle_Qle in Hl0, Hl5, Hh0, Hhn.
  change (inject_Z 0) with 0%Q in *. change (inject_Z 5) with 5%Q in *.
  split; Lqa.lra.
Qed.

Lemma score_doc_bounds_witness :
  (- (3 # 2) <= fst sample_score_10000 <= 3 * inject_Z (Z.of_nat (length [U "tofu"])) + 14)%Q.
Proof.
  apply (score_doc_bounds (doc_A (U "tofu soup")) [U "tofu"] []).
  - vm_compute. reflexivity.
  - simpl. lia.
Defined.

(** ** The optimizer's score as a function of the fields *)

Section OptimScoreShape.
Import Np.
Local Open Scope R_scope.

Lemma ln_1p_monotone (v1 v2 : Z) :
  (0 <= v1 <= v2)%Z -> ln (1 + IZR v1) <= ln (1 + IZR v2).
Proof.
  intros [H0 H12]. apply IZR_le in H0. pose proof (IZR_le _ _ H12) as H.
  destruct (Req_dec (IZR v1) (IZR v2)) as [-> | Hne]; [lra|].
  left. apply ln_increasing; lra.
Qed.

(** Of two floats that are not NaN, one that is not less is at least as
    large. *)
Lemma fl_not_ltb_leb a b :
  not_nan a -> not_nan b -> fl_ltb b a = false -> fl_leb a b = true.
Proof.
  unfold not_nan, fl_leb. destruct a as [x| | |], b as [y| | |]; simpl;
    try congruence; try reflexivity.
  intros _ _. destruct (Rlt_dec y x), (Rlt_dec x y), (Req_dec_T x y);
    simpl; try congruence; lra.
Qed.

End OptimScoreShape.

(** X12. In [AutoRanker.score] with a non-negative popularity weight, more
    views never lower the score: of two documents that differ only in an
    integer [views] between 0 and 2^63, both are scored and the one with
    more views does not score less; when neither score is NaN it scores at
    least as much. *)
Theorem optim_score_monotone_in_views (self : Optim.AutoRanker) (doc : Document)
    (user_ings : list pystr) (style_hint : pystr) (v1 v2 : Z) :
  (0 <= v1 <= v2)%Z -> (v2 < 2 ^ 63)%Z ->
  (0 <= Optim.w_pop (Optim.params self))%R ->
  exists k1 k2 : Np.fl,
    Optim.score (with_field doc "views" (VInt v1)) user_ings style_hint self
    = (self, Ok k1)
    /\ Optim.score (with_field doc "views" (VInt v2)) user_ings style_hint self
       = (self, Ok k2)
    /\ Np.fl_ltb k2 k1 = false
    /\ (not_nan k1 -> not_nan k2 -> Np.fl_leb k1 k2 = true).
Proof.
  intros [H0 H12] Hb Hw.
  rewrite !score_run. unfold score_value, Optim.style_score, with_field.
  cbn [metadata page_content].
  rewrite !get_insert_same. rewrite !get_insert_other by discriminate.
  cbn [py_int obind]. rewrite !log1p_count by lia. cbn [obind].
  eexists. eexists.
  split; [reflexivity|]. split; [reflexivity|].
  pose proof (ln_1p_monotone v1 v2 (conj H0 H12)) as Hln.
  assert (Hk : Np.fl_ltb (Np.Fin (ln (1 + IZR v2))) (Np.Fin (ln (1 + IZR v1))) = false).
  { simpl. destruct (Rlt_dec (ln (1 + IZR v2)) (ln (1 + IZR v1))); [lra | reflexivity]. }
  split.
  - apply weighted_mono_pop; assumption.
  - intros Hn1 Hn2. apply fl_not_ltb_leb; [assumption | assumption |].
    apply weighted_mono_pop; assumption.
Qed.

Lemma optim_score_monotone_in_views_witness :
  exists k1 k2 : Np.fl,
    Optim.score (with_field (doc_A (U "tofu soup")) "views" (VInt 500)) [U "tofu"] []
      Optim.__init__ = (Optim.__init__, Ok k1)
    /\ Optim.score (with_field (doc_A (U "tofu soup")) "views" (VInt 10000)) [U "tofu"] []
         Optim.__init__ = (Optim.__init__, Ok k2)
    /\ Np.fl_ltb k2 k1 = false
    /\ (not_nan k1 -> not_nan k2 -> Np.fl_leb k1 k2 = true).
Proof.
  apply (optim_score_monotone_in_views Optim.__init__ (doc_A (U "tofu soup"))
           [U "tofu"] [] 500 10000).
  - lia.
  - vm_compute. reflexivity.
  - simpl. lra.
Defined.

(** X13. A style hint found in [method] never lowers the score.  Put into
    [method] of a document a string that contains the hint, which is not
    empty.  If [score_doc] scores the old document it scores the new one,
    with a final score at least as large, and with the style bonus 1.5 in
    it unless the hint is the sentinel; if [AutoRanker.score] with a
    non-negative style weight scores the old document it scores the new
    one, and not lower. *)
Theorem style_hint_in_method_never_lowers (doc : Document) (user_ings : list pystr)
    (style_hint : pystr) (t : pystr) :
  style_hint <> [] ->
  contains style_hint t = true ->
  let doc' := with_field doc "method" (VStr t) in
  (forall r,
     RagPipeline.score_doc doc user_ings style_hint = Ok r ->
     exists r', RagPipeline.score_doc doc' user_ings style_hint = Ok r'
                /\ (fst r <= fst r')%Q
                /\ (style_hint <> s_sanggwaneopseum ->
                    RagPipeline.style_score doc' style_hint = (3 # 2)%Q))
  /\ (forall (self : Optim.AutoRanker) k,
        (0 <= Optim.w_style (Optim.params self))%R ->
        Optim.score doc user_ings style_hint self = (self, Ok k) ->
        exists k', Optim.score doc' user_ings style_hint self = (self, Ok k')
                   /\ Np.fl_ltb k' k = false).
Proof.
  intros Hne Hin doc'.
  assert (E1 : str_eqb style_hint [] = false)
    by (destruct style_hint; [congruence | reflexivity]).
  assert (Hocc : hint_occurs doc' style_hint = true).
  { unfold hint_occurs, doc', with_field. cbn [metadata page_content].
    rewrite get_insert_same. cbn [py_str]. rewrite Hin, orb_true_r. reflexivity. }
  split.
  - intros r Hr.
    assert (Hs1 : RagPipeline.style_score doc' style_hint
                  = if str_eqb style_hint s_sanggwaneopseum then 0%Q else (3 # 2)%Q).
    { rewrite rag_style_score_spec, E1, Hocc. cbn [orb].
      destruct (str_eqb style_hint s_sanggwaneopseum); reflexivity. }
    assert (Hs0 : (RagPipeline.style_score doc style_hint
                   <= RagPipeline.style_score doc' style_hint)%Q).
    { rewrite Hs1, rag_style_score_spec, E1. cbn [orb].
      destruct (str_eqb style_hint s_sanggwaneopseum); [apply Qle_refl|].
      destruct (hint_occurs doc style_hint); [apply Qle_refl | discriminate]. }
    destruct (score_doc_final _ _ _ _ Hr) as [l [v [tm [q [Hl [Hv [Ht [Hq Hf]]]]]]]].
    unfold RagPipeline.score_doc. fold (RagPipeline.style_score doc' style_hint).
    unfold doc', with_field at 1 2 3 4. cbn [metadata page_content].
    rewrite !get_insert_other by discriminate.
    rewrite Hl, Hv, Ht. cbn [obind]. rewrite Hq. cbn [obind].
    eexists. split; [reflexivity|]. split.
    + cbn [fst]. rewrite Hf. fold doc'. Lqa.lra.
    + intros Hsent. fold doc'. rewrite Hs1.
      destruct (str_eqb style_hint s_sanggwaneopseum) eqn:E; [|reflexivity].
      apply str_eqb_eq in E. congruence.
  - intros self k Hw Hk. rewrite score_run in *. injection Hk as Hk.
    assert (Hs1 : Optim.style_score doc' style_hint = 1%Z).
    { rewrite optim_style_score_spec, E1, Hocc. reflexivity. }
    assert (Hs0 : (Optim.style_score doc style_hint <= 1)%Z).
    { rewrite optim_style_score_spec. destruct (str_eqb _ _); [lia|].
      destruct (hint_occurs doc style_hint); lia. }
    unfold score_value in *. rewrite Hs1.
    unfold doc', with_field. cbn [metadata page_content].
    rewrite !get_insert_other by discriminate.
    destruct (py_int _) as [v|]; [|discriminate]. cbn [obind] in *.
    destruct (Np.log1p v) as [pop|]; [|discriminate]. cbn [obind] in *.
    injection Hk as <-.
    eexists. split; [reflexivity|].
    apply weighted_mono_style; assumption.
Qed.

Lemma style_hint_in_method_never_lowers_witness :
  exists r',
    RagPipeline.score_doc (with_field (doc_A (U "tofu soup")) "method" (VStr (U "찜")))
      [U "tofu"] (U "찜") = Ok r'
    /\ (fst sample_score_10000 <= fst r')%Q
    /\ (U "찜" <> s_sanggwaneopseum ->
        RagPipeline.style_score
          (with_field (doc_A (U "tofu soup")) "method" (VStr (U "찜"))) (U "찜")
        = (3 # 2)%Q).
Proof.
  destruct (style_hint_in_method_never_lowers (doc_A (U "tofu soup")) [U "tofu"] (U "찜")
              (U "찜")) as [H _].
  - discriminate.
  - vm_compute. reflexivity.
  - apply (H sample_score_10000). vm_compute. reflexivity.
Defined.

(** ** Counting ingredients *)

Section IngredientCounts.

Lemma filter_length_ext {X} (f g : X -> bool) l :
  Forall (fun x => f x = g x) l -> length (List.filter f l) = length (List.filter g l).
Proof. intros H. rewrite (filter_ext_Forall f g l H). reflexivity. Qed.

Lemma filter_length_perm {X} (f : X -> bool) l l' :
  Permutation l l' -> length (List.filter f l) = length (List.filter f l').
Proof.
  induction 1 as [|x l l' _ IH|x y l|l l' l'' _ IH1 _ IH2]; simpl.
  - reflexivity.
  - destruct (f x); simpl; rewrite IH; reflexivity.
  - destruct (f x), (f y); reflexivity.
  - rewrite IH1. exact IH2.
Qed.

End IngredientCounts.

(** X14. On every ingredient list that [parse_ingredients] returns, the
    three ingredient counters agree for every text: the count of
    [score_doc], the count of [AutoRanker.score] (which trims each entry)
    and the per-item count of [_objective] (which does not). *)
Theorem ingredient_counts_agree_on_parsed (ingredients text : pystr) (md : gmap string pyval) :
  let user_ings := RagPipeline.parse_ingredients ingredients in
  RagPipeline.ing_hit user_ings text = Optim.ing_hit user_ings text
  /\ Optim.ing_hit user_ings text
     = Optim.ing_count user_ings {| page_content := text; metadata := md |}.
Proof.
  intros user_ings.
  assert (Hall : Forall (fun s => s <> [] /\ strip s = s) user_ings).
  { unfold user_ings, RagPipeline.parse_ingredients.
    destruct (_ || _); [constructor | apply kept_pieces_trimmed]. }
  unfold RagPipeline.ing_hit, Optim.ing_hit, Optim.ing_count. cbn [page_content].
  split; f_equal; apply filter_length_ext;
    apply List.Forall_impl with (2 := Hall); intros s [Hne Hs].
  - rewrite Hs. apply nonempty_true in Hne. rewrite Hne. reflexivity.
  - rewrite Hs. reflexivity.
Qed.

(** X15. The ingredient counts of both scorers do not depend on the order
    of the ingredient list, add up over concatenated lists, and lie
    between 0 and the number of entries; a repeated entry counts each
    time. *)
Theorem ingredient_counts_order_independent (l l' : list pystr) (text : pystr) :
  (Permutation l l' ->
     RagPipeline.ing_hit l text = RagPipeline.ing_hit l' text
     /\ Optim.ing_hit l text = Optim.ing_hit l' text)
  /\ RagPipeline.ing_hit (l ++ l') text
     = (RagPipeline.ing_hit l text + RagPipeline.ing_hit l' text)%Z
  /\ Optim.ing_hit (l ++ l') text = (Optim.ing_hit l text + Optim.ing_hit l' text)%Z
  /\ (0 <= RagPipeline.ing_hit l text <= Z.of_nat (length l))%Z
  /\ (0 <= Optim.ing_hit l text <= Z.of_nat (length l))%Z.
Proof.
  split; [|split; [|split; [|split]]].
  - intros Hp. unfold RagPipeline.ing_hit, Optim.ing_hit.
    split; f_equal; apply filter_length_perm; exact Hp.
  - unfold RagPipeline.ing_hit. rewrite List.filter_app, length_app. lia.
  - apply optim_ing_hit_app.
  - apply rag_ing_hit_range.
  - unfold Optim.ing_hit.
    pose proof (filter_length_le (fun ing => contains (strip ing) text) l). lia.
Qed.

(** ** Parsing ingredient lists *)

Section ParseRoundTrip.
Import RagPipeline.

Lemma re_split_go_sep_free s : forall cur b,
  sep_free cur -> Forall sep_free (re_split_go cur b s).
Proof.
  unfold sep_free.
  induction s as [|c t IH]; intros cur b Hc; simpl.
  - constructor; [apply Forall_rev; exact Hc | constructor].
  - destruct (is_sep c) eqn:E.
    + destruct b.
      * apply IH. constructor.
      * constructor; [apply Forall_rev; exact Hc | apply IH; constructor].
    + apply IH. constructor; assumption.
Qed.

(** An item without separators is read into the pending piece. *)
Lemma re_split_go_item s : forall cur b rest,
  sep_free s -> s <> [] ->
  re_split_go cur b (s ++ rest) = re_split_go (rev s ++ cur) false rest.
Proof.
  unfold sep_free.
  induction s as [|c t IH]; intros cur b rest Hs Hne; [congruence|].
  inversion Hs as [|? ? Hc Ht]; subst. cbn [app re_split_go]. rewrite Hc.
  destruct t as [|c' t'].
  - reflexivity.
  - rewrite IH by (assumption || discriminate).
    cbn [rev]. rewrite <- !app_assoc. reflexivity.
Qed.

Lemma re_split_join items : forall b,
  items <> [] -> Forall (fun s => sep_free s /\ s <> []) items ->
  re_split_go [] b (join_comma items) = items.
Proof.
  induction items as [|s rest IH]; intros b Hne Hall; [congruence|].
  inversion Hall as [|? ? [Hs Hn] Hrest]; subst.
  destruct rest as [|s' rest'].
  - cbn [join_comma]. rewrite <- (app_nil_r s) at 1.
    rewrite re_split_go_item by assumption.
    cbn [re_split_go]. rewrite app_nil_r, rev_involutive. reflexivity.
  - change (join_comma (s :: s' :: rest')) with (s ++ 44%N :: join_comma (s' :: rest')).
    rewrite re_split_go_item by assumption.
    cbn [re_split_go]. change (is_sep 44) with true. cbv iota.
    rewrite app_nil_r, rev_involutive. f_equal.
    apply IH; [discriminate | exact Hrest].
Qed.

Lemma kept_pieces_id (items : list pystr) :
  Forall trimmed_item items ->
  map strip (List.filter (fun i => nonempty (strip i)) items) = items.
Proof.
  induction 1 as [|s items [Hne Hs] _ IH]; simpl; [reflexivity|].
  rewrite Hs. apply nonempty_true in Hne. rewrite Hne. simpl.
  rewrite Hs, IH. reflexivity.
Qed.

Lemma join_comma_nonempty items :
  items <> [] -> Forall trimmed_item items -> join_comma items <> [].
Proof.
  intros Hne Hall. destruct items as [|s rest]; [congruence|].
  inversion Hall as [|? ? [Hn _] _]; subst.
  destruct rest; cbn [join_comma]; [exact Hn|].
  destruct s; [congruence | discriminate].
Qed.

End ParseRoundTrip.

(** X16. No ingredient that [parse_ingredients] returns contains one of the
    separators: comma, slash, backslash, bar, newline. *)
Theorem parse_ingredients_no_separator (text : pystr) :
  Forall sep_free (RagPipeline.parse_ingredients text).
Proof.
  unfold RagPipeline.parse_ingredients. destruct (_ || _); [constructor|].
  apply List.Forall_forall. intros s Hs.
  apply in_map_iff in Hs as [piece [<- Hin]]. apply filter_In in Hin as [Hin _].
  apply Forall_strip.
  pose proof (re_split_go_sep_free text [] false (List.Forall_nil _)) as Hall.
  apply (proj1 (List.Forall_forall _ _) Hall). exact Hin.
Qed.

(** X17. [parse_ingredients] reads back a comma-joined list: for every
    non-empty list of ingredients that are non-empty, trimmed and free of
    separators, parsing the items joined by commas returns the list,
    unless the joined text trims to one of the sentinels 없음, none, None
    (a single ingredient so named is dropped). *)
Theorem parse_ingredients_join_round_trip (items : list pystr) :
  items <> [] ->
  Forall trimmed_item items ->
  Forall sep_free items ->
  ~ In (strip (join_comma items)) [s_eopseum; U "none"; U "None"] ->
  RagPipeline.parse_ingredients (join_comma items) = items.
Proof.
  intros Hne Htrim Hsep Hsent. unfold RagPipeline.parse_ingredients.
  assert (E1 : RagPipeline.nonempty (join_comma items) = true)
    by (apply nonempty_true; apply join_comma_nonempty; assumption).
  assert (E2 : existsb (str_eqb (strip (join_comma items)))
                 [s_eopseum; U "none"; U "None"] = false).
  { destruct (existsb _ _) eqn:E; [|reflexivity]. exfalso. apply Hsent.
    apply existsb_exists in E as [x [Hx Hq]]. apply str_eqb_eq in Hq. congruence. }
  rewrite E1, E2. cbn [negb orb]. unfold RagPipeline.re_split.
  rewrite re_split_join.
  - apply kept_pieces_id. exact Htrim.
  - exact Hne.
  - rewrite List.Forall_forall in *. intros s Hs. split; [apply Hsep; exact Hs|].
    apply (Htrim s Hs).
Qed.

Lemma parse_ingredients_join_round_trip_witness :
  RagPipeline.parse_ingredients (join_comma [U "tofu"; U "green onion"; U "none"])
  = [U "tofu"; U "green onion"; U "none"].
Proof.
  apply parse_ingredients_join_round_trip.
  - discriminate.
  - repeat constructor; discriminate.
  - repeat constructor.
  - vm_compute. intros [H | [H | [H | []]]]; discriminate H.
Defined.

(** X18. [score_doc] ignores white space around the [level] and [time]
    fields: a document whose [level] (or [time]) is a string scores exactly
    like the document with that string trimmed. *)
Theorem score_doc_ignores_surrounding_space (doc : Document) (user_ings : list pystr)
    (style_hint s : pystr) :
  RagPipeline.score_doc (with_field doc "level" (VStr (strip s))) user_ings style_hint
  = RagPipeline.score_doc (with_field doc "level" (VStr s)) user_ings style_hint
  /\ RagPipeline.score_doc (with_field doc "time" (VStr (strip s))) user_ings style_hint
     = RagPipeline.score_doc (with_field doc "time" (VStr s)) user_ings style_hint.
Proof.
  unfold RagPipeline.score_doc, RagPipeline.style_score, with_field.
  cbn [metadata page_content].
  rewrite !get_insert_same. rewrite !get_insert_other by discriminate.
  rewrite !normalize_level_strip, strip_idem, time_to_minutes_strip.
  split; reflexivity.
Qed.

(** ** Candidates that all tie *)

Section AllTied.
Import Np.

Lemma filter_all_true {X} (f : X -> bool) l :
  Forall (fun x => f x = true) l -> List.filter f l = l.
Proof.
  induction 1 as [|x l Hx _ IH]; simpl; [reflexivity|]. rewrite Hx, IH. reflexivity.
Qed.

Lemma scores_as_not_nan p user_ings style_hint k d :
  scores_as p user_ings style_hint k d = true -> score_not_nan p user_ings style_hint d.
Proof.
  unfold scores_as, score_not_nan. intros H E. rewrite E in H. discriminate.
Qed.

Lemma ranked_value_all_tied p docs user_ings style_hint r k :
  ranked_value p docs user_ings style_hint = Ok r ->
  not_nan k ->
  Forall (fun d => scores_as p user_ings style_hint k d = true) docs ->
  r = docs.
Proof.
  intros Hr Hk Hall.
  assert (Hn : Forall (score_not_nan p user_ings style_hint) docs).
  { apply List.Forall_impl with (2 := Hall). intros d. apply scores_as_not_nan. }
  pose proof (ranked_value_stable p docs user_ings style_hint r k Hr Hn Hk) as Hst.
  rewrite (filter_all_true _ docs Hall) in Hst.
  rewrite filter_all_true in Hst; [exact Hst|].
  destruct (ranked_value_keys _ _ _ _ _ Hr) as [kd [-> [Hsnd _]]].
  assert (Hp : Permutation docs (map snd (sort_keyed fl_ltb true kd))).
  { rewrite <- Hsnd. apply Permutation_map. symmetry. apply sort_keyed_perm. }
  apply (Permutation_Forall Hp). exact Hall.
Qed.

Lemma ranked_value_two_A :
  ranked_value (Optim.params Optim.__init__)
    [doc_A (U "tofu soup"); doc_A (U "fried tofu")] [U "tofu"] []
  = Ok [doc_A (U "tofu soup"); doc_A (U "fried tofu")].
Proof.
  unfold ranked_value. cbn [omap]. rewrite !score_value_A by reflexivity.
  rewrite weighted_init_A. cbn [obind combine].
  rewrite (sort_keyed_stable_keyed fl_ltb not_nan fl_ltb_irrefl fl_ltb_trans fl_ltb_ntrans)
    by (repeat constructor; discriminate).
  unfold stable_keyed, insertion_sort.
  cbn [rev app fold_left insert_asc fst fl_ltb].
  match goal with |- context [Rlt_dec ?a ?b] => destruct (Rlt_dec a b) as [H|H] end;
    [exfalso; lra | reflexivity].
Qed.

Lemma level_tests_agree l labels :
  val_in (VStr l) labels = existsb (str_eqb l) labels.
Proof. reflexivity. Qed.

End AllTied.

(** X21. When all candidates have the same score (not NaN) under the
    weights in force, [sorted] at lines 58-60 returns them in input
    order. *)
Theorem ranked_keeps_input_order_when_all_tie (self : Optim.AutoRanker)
    (docs : list Document) (user_ings : list pystr) (style_hint : pystr)
    (r : list Document) (k : Np.fl) :
  Optim.ranked docs user_ings style_hint self = (self, Ok r) ->
  not_nan k ->
  Forall (fun d => Optim.score d user_ings style_hint self = (self, Ok k)) docs ->
  r = docs.
Proof.
  intros Hr Hk Hall. rewrite ranked_run in Hr. injection Hr as Hr.
  apply (ranked_value_all_tied _ _ _ _ _ k Hr Hk).
  apply List.Forall_impl with (2 := Hall). intros d Hd.
  rewrite score_run in Hd. injection Hd as Hd. unfold scores_as. rewrite Hd.
  destruct k as [x| | |]; cbn [Np.fl_eqb]; try reflexivity.
  - destruct (Req_dec_T x x); [reflexivity | congruence].
  - exfalso. apply Hk. reflexivity.
Qed.

Lemma ranked_keeps_input_order_when_all_tie_witness :
  [doc_A (U "tofu soup"); doc_A (U "fried tofu")]
  = [doc_A (U "tofu soup"); doc_A (U "fried tofu")].
Proof.
  apply (ranked_keeps_input_order_when_all_tie Optim.__init__
           [doc_A (U "tofu soup"); doc_A (U "fried tofu")] [U "tofu"] []
           [doc_A (U "tofu soup"); doc_A (U "fried tofu")]
           (Np.Fin (2 * 1 + 1 * 1 + 1 / 2 * ln (1 + 10000) + 1 * 0 - 1 * 0)%R)).
  - rewrite ranked_run, ranked_value_two_A. reflexivity.
  - discriminate.
  - repeat constructor;
      rewrite score_run, score_value_A, weighted_init_A by reflexivity; reflexivity.
Defined.

(** X22. The three places that classify the difficulty label agree on a
    label without white space around it.  [score_doc] trims the label
    (line 74) before it looks it up, the optimizer does not.  For every
    label text, the tier [score_doc] gives the trimmed label is 5, 2 or 0
    exactly when [AutoRanker._level_score] of the trimmed label is 1, 0.5
    or 0; on the padded label " 초급" they part: it is in the top tier of
    [score_doc] and in the bottom tier of [_level_score].  The objective
    counts a document as beginner-level exactly when [AutoRanker.score]
    gives its [level] the top tier (a missing [level] is in neither). *)
Theorem level_tiers_agree_on_trimmed (l : pystr) (d : Document) :
  RagPipeline.normalize_level (VStr l) = Ok (strip l)
  /\ (RagPipeline.level_score (strip l) = 5%Z
      <-> Optim._level_score (VStr (strip l)) = 1%R)
  /\ (RagPipeline.level_score (strip l) = 2%Z
      <-> Optim._level_score (VStr (strip l)) = (1 / 2)%R)
  /\ (RagPipeline.level_score (strip l) = 0%Z
      <-> Optim._level_score (VStr (strip l)) = 0%R)
  /\ (Optim.level_flag d = 1%Z
      <-> Optim._level_score (get (metadata d) "level" (VStr [])) = 1%R)
  /\ (RagPipeline.normalize_level (VStr (U " 초급")) = Ok s_chogeup
      /\ RagPipeline.level_score s_chogeup = 5%Z
      /\ Optim._level_score (VStr (U " 초급")) = 0%R).
Proof.
  split; [apply normalize_level_strip|].
  assert (Hpad : RagPipeline.normalize_level (VStr (U " 초급")) = Ok s_chogeup
                 /\ RagPipeline.level_score s_chogeup = 5%Z
                 /\ Optim._level_score (VStr (U " 초급")) = 0%R).
  { split; [vm_compute; reflexivity|]. split; [vm_compute; reflexivity|].
    unfold Optim._level_score.
    eval_closed (val_in (VStr (U " 초급")) beginner_labels).
    eval_closed (val_is_str (VStr (U " 초급")) s_junggeup). reflexivity. }
  generalize (strip l). clear l. intros l.
  unfold RagPipeline.level_score, Optim._level_score, Optim.level_flag.
  rewrite level_tests_agree. cbn [existsb val_is_str]. rewrite orb_false_r.
  repeat split; try apply Hpad; intros H;
    repeat match goal with
    | H : context [if ?b then _ else _] |- _ => destruct b eqn:?
    | |- context [if ?b then _ else _] => destruct b eqn:?
    end;
    try reflexivity; try lia; try lra; try discriminate.
  all: unfold get in *; destruct (metadata d !! "level") as [[| |s]|] eqn:Ed;
    cbn in *; try discriminate; try lra; try lia; try congruence.
Qed.
